(** * Sensors module of the flight controller (flight/Modules/Sensors/sensors.c)

    A shallow embedding of [SensorsTask] and of its two callbacks, and the
    properties of the acquisition cycle that the specification states.

    The task is an endless loop.  One pass through the body of [while (1)]
    is the function [loop_body]; everything the pass obtains from the
    drivers, the operating system and the other modules is collected
    in a [cycle_env], and everything it does to them is the list of
    [event]s it returns.  The preprocessor symbols that select the
    hardware are the boolean fields of [config]. *)

From Stdlib Require Import ZArith List Bool Lia.
From Stdlib Require Import QArith Qcanon.
From Stdlib Require Import Floats.SpecFloat.
Import ListNotations.
Open Scope Z_scope.

Set Implicit Arguments.

(** ** Machine integers *)

Definition wrap_unsigned (w x : Z) : Z := x mod 2 ^ w.
Definition wrap_signed (w x : Z) : Z := (x + 2 ^ (w - 1)) mod 2 ^ w - 2 ^ (w - 1).

Definition u8 : Z -> Z := wrap_unsigned 8.
Definition u32 : Z -> Z := wrap_unsigned 32.   (* uint32_t, portTickType *)
Definition s32 : Z -> Z := wrap_signed 32.     (* int32_t *)

(** ** Single precision arithmetic

    The C code computes in [float].  The model is written once over the
    operations it uses; [binary32] below interprets them as IEEE-754 single
    precision, which is the arithmetic of the program.  [exact] interprets
    them as rational arithmetic, which never rounds: it is not what the
    program computes, and it serves only to show that the axis convention
    does not depend on rounding. *)

Class FloatOps (F : Type) : Type := {
  of_int : Z -> F;            (* (float) n, and the literals 25.0f, 340.0f, ... *)
  fadd : F -> F -> F;
  fsub : F -> F -> F;
  fmul : F -> F -> F;
  fdiv : F -> F -> F;
  fneg : F -> F
}.

(** The image of a [float] in memory, as [memcpy] sees it. *)
Class FloatWire (F : Type) : Type := {
  float_bytes : F -> list Z;
  float_bytes_length : forall x, length (float_bytes x) = 4%nat
}.

(** ** Data *)

Record vec3 (A : Type) : Type := V3 { v0 : A; v1 : A; v2 : A }.

Definition vmap {A B : Type} (f : A -> B) (v : vec3 A) : vec3 B :=
  V3 (f (v0 v)) (f (v1 v)) (f (v2 v)).

(** Samples as the drivers deliver them (16 bit signed fields). *)
Record pios_bma180_data : Type := {
  bma_x : Z; bma_y : Z; bma_z : Z; bma_temperature : Z
}.

Record pios_mpu6000_data : Type := {
  mpu_gyro_x : Z; mpu_gyro_y : Z; mpu_gyro_z : Z;
  mpu_accel_x : Z; mpu_accel_y : Z; mpu_accel_z : Z;
  mpu_temperature : Z
}.

Record pios_l3gd20_data : Type := {
  l3g_gyro_x : Z; l3g_gyro_y : Z; l3g_gyro_z : Z; l3g_temperature : Z
}.

(** [AccelsData] and [GyrosData]: x, y, z and temperature, all [float]. *)
Record Measurement (F : Type) : Type := {
  m_x : F; m_y : F; m_z : F; m_temperature : F
}.
Definition AccelsData := Measurement.
Definition GyrosData := Measurement.
Definition MagnetometerData := vec3.

Record RevoCalibrationData (F : Type) : Type := {
  cal_mag_bias : vec3 F; cal_mag_scale : vec3 F;
  cal_accel_bias : vec3 F; cal_accel_scale : vec3 F
}.

(** The UAVObjects whose updates [sensorsUpdatedCb] may be told about. *)
Inductive handle : Type := GPSPositionHandle | BaroAltitudeHandle | OtherHandle.

Definition handle_eqb (a b : handle) : bool :=
  match a, b with
  | GPSPositionHandle, GPSPositionHandle => true
  | BaroAltitudeHandle, BaroAltitudeHandle => true
  | OtherHandle, OtherHandle => true
  | _, _ => false
  end.

(** ** Build and board configuration

    The preprocessor symbols that [SensorsTask] tests, and the debug port.
    [BMA180] is tested at line 307 only; the BMA180 is otherwise selected
    by [PIOS_INCLUDE_BMA180] and by the absence of [PIOS_MPU6000_ACCEL].
    With both [BMA180] and [PIOS_MPU6000_ACCEL] the C file does not compile
    ([accel] is not declared). *)

Record config : Type := {
  PIOS_INCLUDE_MPU6000 : bool;
  PIOS_INCLUDE_L3GD20 : bool;
  PIOS_INCLUDE_BMA180 : bool;
  PIOS_MPU6000_ACCEL : bool;
  BMA180 : bool;
  portTICK_RATE_MS : Z;
  pios_com_aux_id : Z
}.

Definition SENSOR_PERIOD : Z := 2.

(** ** What the task does to its surroundings *)

Inductive severity : Type := SYSTEMALARMS_ALARM_OK | SYSTEMALARMS_ALARM_CRITICAL.

Inductive event (F : Type) : Type :=
| AlarmsClear                                    (* AlarmsClear(SYSTEMALARMS_ALARM_SENSORS) *)
| AlarmsSet (sev : severity)                     (* AlarmsSet(SYSTEMALARMS_ALARM_SENSORS, sev) *)
| PIOS_WDG_UpdateFlag
| vTaskDelay (ticks : Z)
| vTaskDelayUntil (wake : Z)
| PIOS_BMA180_ReadAccels
| AccelsSet (d : AccelsData F)
| GyrosSet (d : GyrosData F)
| MagnetometerSet (d : MagnetometerData F)
| PIOS_COM_SendBufferNonBlocking (port : Z) (message : list Z)
| BaroAltitudeConnectCallback
| GPSPositionConnectCallback.

Arguments AlarmsClear {F}.
Arguments AlarmsSet {F} sev.
Arguments PIOS_WDG_UpdateFlag {F}.
Arguments vTaskDelay {F} ticks.
Arguments vTaskDelayUntil {F} wake.
Arguments PIOS_BMA180_ReadAccels {F}.
Arguments PIOS_COM_SendBufferNonBlocking {F} port message.
Arguments BaroAltitudeConnectCallback {F}.
Arguments GPSPositionConnectCallback {F}.

(** ** The variables that live across passes of the loop *)

Record state (F : Type) : Type := {
  error : bool;
  lastSysTime : Z;
  gps_updated : bool;
  baro_updated : bool;
  bias_correct_gyro : bool;
  mag_bias : vec3 F;
  mag_scale : vec3 F;
  accel_bias : vec3 F;
  accel_scale : vec3 F
}.

(** ** What one pass obtains from its surroundings

    A FIFO that is polled until it delivers is described by the tick
    counts read after each failed poll ([_misses]), the sample of the
    first poll that succeeds ([_first]), and the samples that follow
    before the FIFO runs empty ([_more]).  Locals that the C code reads
    without having written them get their value from the [stale_] fields. *)

Record cycle_env (F : Type) : Type := {
  recovery_tick : Z;                       (* xTaskGetTickCount() in the recovery branch *)
  bma_misses : list Z;
  bma_first : pios_bma180_data;
  bma_more : list pios_bma180_data;
  bma_scale : F;                           (* PIOS_BMA180_GetScale() *)
  mpu_misses : list Z;
  mpu_first : pios_mpu6000_data;
  mpu_more : list pios_mpu6000_data;
  mpu_gyro_scale : F;                      (* PIOS_MPU6000_GetScale() *)
  mpu_accel_scale : F;                     (* PIOS_MPU6000_GetAccelScale() *)
  l3g_queue : list pios_l3gd20_data;       (* content of PIOS_L3GD20_GetQueue() *)
  l3g_scale : F;                           (* PIOS_L3GD20_GetScale() *)
  stale_accel_temperature : F;             (* accelsData.temperature before any write *)
  stale_bma_temperature : Z;               (* accel.temperature before any read *)
  stale_gyro_temperature : F;              (* gyro.temperature before any read *)
  accels_set_result : Z;                   (* return value of AccelsSet *)
  gyros_bias : vec3 F;                     (* GyrosBiasGet *)
  mag_sample : option (vec3 Z);            (* PIOS_HMC5883_NewDataAvailable / ReadMag *)
  gps_record : list Z;                     (* the bytes of GPSPositionGet *)
  baro_record : list Z                     (* the bytes of BaroAltitudeGet *)
}.

(** ** Polling and draining a FIFO *)

(** [while ((read_good = ReadFifo(&buf)) != 0 && !error)
       error = ((xTaskGetTickCount() - lastSysTime) > SENSOR_PERIOD) ? true : error;]
    Every element of [misses] is a poll that fails, with the tick count
    read after it; the poll after the last of them succeeds with [hit].
    The loop is left at the first poll that succeeds or that fails with
    [error] set.  The result is the sample when the last poll succeeded,
    and [error]. *)
Fixpoint wait_fifo {A : Type} (misses : list Z) (hit : A) (last : Z) (err : bool)
  : option A * bool :=
  match misses with
  | [] => (Some hit, err)
  | now :: rest =>
      if err then (None, err)
      else wait_fifo rest hit last
             (if u32 (now - last) >? SENSOR_PERIOD then true else err)
  end.

(** [while (read_good == 0) { count++; accumulate; read_good = ReadFifo(&buf); }]
    entered with a sample in [buf]; a read from the empty FIFO leaves [buf]
    as it is. *)
Fixpoint drain_fifo {A S : Type} (accumulate : S -> A -> S)
  (buf : A) (fifo : list A) (count : Z) (acc : S) : Z * S * A :=
  let count := s32 (count + 1) in
  let acc := accumulate acc buf in
  match fifo with
  | [] => (count, acc, buf)
  | d :: rest => drain_fifo accumulate d rest count acc
  end.

Definition zero3 : vec3 Z := V3 0 0 0.

Definition accum3 (acc : vec3 Z) (x y z : Z) : vec3 Z :=
  V3 (s32 (v0 acc + x)) (s32 (v1 acc + y)) (s32 (v2 acc + z)).

Definition add_bma (acc : vec3 Z) (d : pios_bma180_data) : vec3 Z :=
  accum3 acc (bma_x d) (bma_y d) (bma_z d).

Definition add_mpu_gyro (acc : vec3 Z) (d : pios_mpu6000_data) : vec3 Z :=
  accum3 acc (mpu_gyro_x d) (mpu_gyro_y d) (mpu_gyro_z d).

Definition add_mpu_accel (acc : vec3 Z) (d : pios_mpu6000_data) : vec3 Z :=
  accum3 acc (mpu_accel_x d) (mpu_accel_y d) (mpu_accel_z d).

(** The body of the MPU6000 drain loop: the gyro sums always, the accel
    sums under PIOS_MPU6000_ACCEL. *)
Definition add_mpu (cfg : config) (acc : vec3 Z * vec3 Z) (d : pios_mpu6000_data)
  : vec3 Z * vec3 Z :=
  (add_mpu_gyro (fst acc) d,
   if PIOS_MPU6000_ACCEL cfg then add_mpu_accel (snd acc) d else snd acc).

Definition add_l3g (acc : vec3 Z) (d : pios_l3gd20_data) : vec3 Z :=
  accum3 acc (l3g_gyro_x d) (l3g_gyro_y d) (l3g_gyro_z d).

(** [while (xQueueReceive(gyro_queue, &gyro, 0) != errQUEUE_EMPTY)
       { gyro_samples++; accumulate; }] *)
Fixpoint drain_queue (queue : list pios_l3gd20_data) (samples : Z) (acc : vec3 Z)
  (buf : option pios_l3gd20_data) : Z * vec3 Z * option pios_l3gd20_data :=
  match queue with
  | [] => (samples, acc, buf)
  | d :: rest => drain_queue rest (u32 (samples + 1)) (add_l3g acc d) (Some d)
  end.

(** ** One pass of the main loop *)

Section Cycle.

Context {F : Type} {ops : FloatOps F} {wire : FloatWire F}.

Definition with_error (s : state F) (b : bool) : state F :=
  {| error := b; lastSysTime := lastSysTime s;
     gps_updated := gps_updated s; baro_updated := baro_updated s;
     bias_correct_gyro := bias_correct_gyro s;
     mag_bias := mag_bias s; mag_scale := mag_scale s;
     accel_bias := accel_bias s; accel_scale := accel_scale s |}.

Definition with_lastSysTime (s : state F) (t : Z) : state F :=
  {| error := error s; lastSysTime := t;
     gps_updated := gps_updated s; baro_updated := baro_updated s;
     bias_correct_gyro := bias_correct_gyro s;
     mag_bias := mag_bias s; mag_scale := mag_scale s;
     accel_bias := accel_bias s; accel_scale := accel_scale s |}.

Definition with_updated (s : state F) (gps baro : bool) : state F :=
  {| error := error s; lastSysTime := lastSysTime s;
     gps_updated := gps; baro_updated := baro;
     bias_correct_gyro := bias_correct_gyro s;
     mag_bias := mag_bias s; mag_scale := mag_scale s;
     accel_bias := accel_bias s; accel_scale := accel_scale s |}.

(** SENSOR_PERIOD / portTICK_RATE_MS *)
Definition period_ticks (cfg : config) : Z := Z.quot SENSOR_PERIOD (portTICK_RATE_MS cfg).

(** Lines 195-203: the recovery branch, or the clearing of the alarm.
    [vTaskDelayUntil] advances the wake time it is given by the period. *)
Definition top_of_loop (cfg : config) (e : cycle_env F) (s : state F)
  : state F * list (event F) :=
  if error s then
    let wake := u32 (recovery_tick e + period_ticks cfg) in
    (with_error (with_lastSysTime s wake) false,
     [PIOS_WDG_UpdateFlag; vTaskDelayUntil wake; AlarmsSet SYSTEMALARMS_ALARM_CRITICAL])
  else (s, [AlarmsClear]).

(** What the acquisition part of a pass leaves in the locals. *)
Record readings : Type := {
  r_accel_accum : vec3 Z;
  r_accel_samples : Z;
  r_gyro_accum : vec3 Z;
  r_gyro_samples : Z;
  r_gyro_scaling : F;
  r_bma_temperature : Z;      (* accel.temperature *)
  r_gyro_temperature : F      (* (float) gyro.temperature *)
}.

(** Lines 216-241, compiled unless PIOS_MPU6000_ACCEL is defined.
    [None] is the [continue] of line 228. *)
Definition read_bma180 (e : cycle_env F) (last : Z) (err : bool)
  : option (Z * vec3 Z * Z) :=
  match wait_fifo (bma_misses e) (bma_first e) last err with
  | (_, true) => None
  | (Some d, false) =>
      let '(count, acc, buf) := drain_fifo add_bma d (bma_more e) 0 zero3 in
      Some (u32 count, acc, bma_temperature buf)
  | (None, false) => Some (u32 0, zero3, stale_bma_temperature e)
  end.

(** Lines 244-273, compiled under PIOS_INCLUDE_MPU6000.  The result is the
    count, the gyro and accel sums, and the raw temperature; [None] is the
    [continue] of line 251. *)
Definition read_mpu6000 (cfg : config) (e : cycle_env F) (last : Z) (err : bool)
  (accel_accum : vec3 Z) : option (Z * (vec3 Z * vec3 Z) * F) :=
  match wait_fifo (mpu_misses e) (mpu_first e) last err with
  | (_, true) => None
  | (Some d, false) =>
      let '(count, acc, buf) :=
        drain_fifo (add_mpu cfg) d (mpu_more e) 0 (zero3, accel_accum) in
      Some (u32 count, acc, of_int (mpu_temperature buf))
  | (None, false) => Some (u32 0, (zero3, accel_accum), stale_gyro_temperature e)
  end.

(** Lines 205-294.  [inr evs] is a pass abandoned by [continue], with the
    driver calls made on the way out. *)
Definition acquire (cfg : config) (e : cycle_env F) (last : Z) (err : bool)
  : readings + list (event F) :=
  match (if PIOS_MPU6000_ACCEL cfg
         then Some (0, zero3, stale_bma_temperature e)
         else read_bma180 e last err) with
  | None => inr [PIOS_BMA180_ReadAccels]
  | Some (accel_samples, accel_accum, bma_temp) =>
      if PIOS_INCLUDE_MPU6000 cfg then
        match read_mpu6000 cfg e last err accel_accum with
        | None => inr []
        | Some (count, (gyro_accum, accel_accum'), temp) =>
            inl {| r_accel_accum := accel_accum';
                   r_accel_samples :=
                     if PIOS_MPU6000_ACCEL cfg then count else accel_samples;
                   r_gyro_accum := gyro_accum;
                   r_gyro_samples := count;
                   r_gyro_scaling := mpu_gyro_scale e;
                   r_bma_temperature := bma_temp;
                   r_gyro_temperature := temp |}
        end
      else if PIOS_INCLUDE_L3GD20 cfg then
        let '(samples, gyro_accum, buf) := drain_queue (l3g_queue e) 0 zero3 None in
        inl {| r_accel_accum := accel_accum;
               r_accel_samples := accel_samples;
               r_gyro_accum := gyro_accum;
               r_gyro_samples := samples;
               r_gyro_scaling := l3g_scale e;
               r_bma_temperature := bma_temp;
               r_gyro_temperature :=
                 match buf with
                 | Some d => of_int (l3g_temperature d)
                 | None => stale_gyro_temperature e
                 end |}
      else
        inl {| r_accel_accum := accel_accum;
               r_accel_samples := accel_samples;
               r_gyro_accum := zero3;
               r_gyro_samples := 1;
               r_gyro_scaling := of_int 0;
               r_bma_temperature := bma_temp;
               r_gyro_temperature := stale_gyro_temperature e |}
  end.

(** Lines 295 and 315:
    [{(float) accum[1] / samples, (float) accum[0] / samples, -(float) accum[2] / samples}] *)
Definition mean_remap (accum : vec3 Z) (samples : Z) : vec3 F :=
  V3 (fdiv (of_int (v1 accum)) (of_int samples))
     (fdiv (of_int (v0 accum)) (of_int samples))
     (fdiv (fneg (of_int (v2 accum))) (of_int samples)).

(** Lines 298-302. *)
Definition accel_scaling (cfg : config) (e : cycle_env F) : F :=
  if PIOS_MPU6000_ACCEL cfg then mpu_accel_scale e else bma_scale e.

(** Lines 304-306: [accels[i] * accel_scaling * accel_scale[i] - accel_bias[i]] *)
Definition calibrate_axis (mean scaling scale bias : F) : F :=
  fsub (fmul (fmul mean scaling) scale) bias.

(** Lines 307-311: the temperature written before the record is published. *)
Definition accel_temperature (cfg : config) (e : cycle_env F) (r : readings) : F :=
  if BMA180 cfg then
    fadd (of_int 25) (fdiv (fsub (of_int (r_bma_temperature r)) (of_int 2)) (of_int 2))
  else if PIOS_MPU6000_ACCEL cfg then
    fadd (of_int 35) (fdiv (fadd (r_gyro_temperature r) (of_int 512)) (of_int 340))
  else stale_accel_temperature e.

(** Lines 303-311: [accelsData] as it is handed to [AccelsSet]. *)
Definition accels_record (cfg : config) (e : cycle_env F) (s : state F) (r : readings)
  : AccelsData F :=
  let accels := mean_remap (r_accel_accum r) (r_accel_samples r) in
  let scaling := accel_scaling cfg e in
  {| m_x := calibrate_axis (v0 accels) scaling (v0 (accel_scale s)) (v0 (accel_bias s));
     m_y := calibrate_axis (v1 accels) scaling (v1 (accel_scale s)) (v1 (accel_bias s));
     m_z := calibrate_axis (v2 accels) scaling (v2 (accel_scale s)) (v2 (accel_bias s));
     m_temperature := accel_temperature cfg e r |}.

(** Lines 312-313: [accelsData.temperature = AccelsSet(&accelsData);]
    The call publishes the record; its return value then replaces the
    temperature of the local copy. *)
Definition publish_accels (e : cycle_env F) (d : AccelsData F)
  : AccelsData F * list (event F) :=
  ({| m_x := m_x d; m_y := m_y d; m_z := m_z d;
      m_temperature := of_int (accels_set_result e) |},
   [AccelsSet d]).

(** Lines 315-325: the scaled gyro record before bias correction. *)
Definition gyros_scaled (cfg : config) (r : readings) : GyrosData F :=
  let gyros := mean_remap (r_gyro_accum r) (r_gyro_samples r) in
  {| m_x := fmul (v0 gyros) (r_gyro_scaling r);
     m_y := fmul (v1 gyros) (r_gyro_scaling r);
     m_z := fmul (v2 gyros) (r_gyro_scaling r);
     m_temperature :=
       if PIOS_INCLUDE_MPU6000 cfg then
         fadd (of_int 35) (fdiv (fadd (r_gyro_temperature r) (of_int 512)) (of_int 340))
       else r_gyro_temperature r |}.

(** Lines 326-333. *)
Definition apply_gyro_bias (e : cycle_env F) (s : state F) (d : GyrosData F)
  : GyrosData F :=
  if bias_correct_gyro s then
    let gyrosBias := gyros_bias e in
    {| m_x := fadd (m_x d) (v0 gyrosBias);
       m_y := fadd (m_y d) (v1 gyrosBias);
       m_z := fadd (m_z d) (v2 gyrosBias);
       m_temperature := m_temperature d |}
  else d.

Definition gyros_record (cfg : config) (e : cycle_env F) (s : state F) (r : readings)
  : GyrosData F :=
  apply_gyro_bias e s (gyros_scaled cfg r).

(** Lines 345-347. *)
Definition mag_record (s : state F) (values : vec3 Z) : MagnetometerData F :=
  V3 (fsub (fmul (of_int (v1 values)) (v0 (mag_scale s))) (v0 (mag_bias s)))
     (fsub (fmul (of_int (v0 values)) (v1 (mag_scale s))) (v1 (mag_bias s)))
     (fsub (fmul (of_int (- v2 values)) (v2 (mag_scale s))) (v2 (mag_bias s))).

(** *** The debug message, lines 353-394

    [message] is an array of 200 bytes and [message_size] the number of
    bytes used.  [memcpy] is modelled inside the array; C gives no meaning
    to a copy that runs past its end. *)

Definition memcpy (buf : list Z) (off : Z) (src : list Z) : list Z :=
  firstn (Z.to_nat off) buf ++ src ++ skipn (Z.to_nat off + length src) buf.

Definition sizeof (src : list Z) : Z := Z.of_nat (length src).

(** [memcpy(&message[message_size], src, sizeof(src)); message_size += sizeof(src);] *)
Definition append_block (m : list Z * Z) (src : list Z) : list Z * Z :=
  (memcpy (fst m) (snd m) src, u32 (snd m + sizeof src)).

(** [message[message_size] = tag; message_size++;] followed by the copy. *)
Definition append_tagged (m : list Z * Z) (tag : Z) (src : list Z) : list Z * Z :=
  append_block (memcpy (fst m) (snd m) [tag], u32 (snd m + 1)) src.

Definition xyz_bytes (x y z : F) : list Z :=
  float_bytes x ++ float_bytes y ++ float_bytes z.

Definition measurement_bytes (d : Measurement F) : list Z :=
  xyz_bytes (m_x d) (m_y d) (m_z d) ++ float_bytes (m_temperature d).

Definition vec3_bytes (v : vec3 F) : list Z := xyz_bytes (v0 v) (v1 v) (v2 v).

Definition message_header (last : Z) : list Z :=
  [255; Z.shiftr (Z.land last 65280) 8; Z.land last 255].

Definition telemetry (cfg : config) (e : cycle_env F) (s : state F)
  (accelsData : AccelsData F) (gyrosData : GyrosData F)
  (mag : option (MagnetometerData F)) : state F * list (event F) :=
  if pios_com_aux_id cfg =? 0 then (s, [])
  else
    let m := (message_header (lastSysTime s) ++ repeat 0 197, 3) in
    let m := append_block m (xyz_bytes (m_x accelsData) (m_y accelsData) (m_z accelsData)) in
    let m := append_block m (measurement_bytes gyrosData) in
    let m := match mag with
             | Some d => append_tagged m 1 (vec3_bytes d)
             | None => m
             end in
    let m := if gps_updated s then append_tagged m 2 (gps_record e) else m in
    let m := if baro_updated s then append_tagged m 3 (baro_record e) else m in
    (with_updated s (if gps_updated s then false else gps_updated s)
                    (if baro_updated s then false else baro_updated s),
     [PIOS_COM_SendBufferNonBlocking (pios_com_aux_id cfg)
        (firstn (Z.to_nat (snd m)) (fst m))]).

(** Lines 396-401. *)
Definition end_of_loop (cfg : config) (s : state F) : state F * list (event F) :=
  if PIOS_INCLUDE_MPU6000 cfg && negb (PIOS_INCLUDE_L3GD20 cfg) then
    let wake := u32 (lastSysTime s + period_ticks cfg) in
    (with_lastSysTime s wake, [PIOS_WDG_UpdateFlag; vTaskDelayUntil wake])
  else (s, [PIOS_WDG_UpdateFlag]).

(** Lines 295-401, reached when no read timed out. *)
Definition process (cfg : config) (e : cycle_env F) (s : state F) (r : readings)
  : state F * list (event F) :=
  let '(accelsData, ev_accels) := publish_accels e (accels_record cfg e s r) in
  let gyrosData := gyros_record cfg e s r in
  let mag := option_map (mag_record s) (mag_sample e) in
  let ev_mag := match mag with Some d => [MagnetometerSet d] | None => [] end in
  let '(s1, ev_tele) := telemetry cfg e s accelsData gyrosData mag in
  let '(s2, ev_end) := end_of_loop cfg s1 in
  (s2, ev_accels ++ [GyrosSet gyrosData] ++ ev_mag ++ ev_tele ++ ev_end).

(** The body of [while (1)], lines 193-402. *)
Definition loop_body (cfg : config) (e : cycle_env F) (s : state F)
  : state F * list (event F) :=
  let '(s0, ev_top) := top_of_loop cfg e s in
  match acquire cfg e (lastSysTime s0) (error s0) with
  | inr ev_out => (with_error s0 true, ev_top ++ ev_out)
  | inl r =>
      let '(s1, evs) := process cfg e s0 r in
      (s1, ev_top ++ evs)
  end.

(** ** The callbacks *)

(** [sensorsUpdatedCb], lines 408-414. *)
Definition sensorsUpdatedCb (obj : handle) (s : state F) : state F :=
  let s := if handle_eqb obj GPSPositionHandle
           then with_updated s true (baro_updated s) else s in
  if handle_eqb obj BaroAltitudeHandle
  then with_updated s (gps_updated s) true else s.

(** [settingsUpdatedCb], lines 419-435. *)
Definition settingsUpdatedCb (cal : RevoCalibrationData F) (s : state F) : state F :=
  {| error := error s; lastSysTime := lastSysTime s;
     gps_updated := gps_updated s; baro_updated := baro_updated s;
     bias_correct_gyro := bias_correct_gyro s;
     mag_bias := cal_mag_bias cal; mag_scale := cal_mag_scale cal;
     accel_bias := cal_accel_bias cal; accel_scale := cal_accel_scale cal |}.

End Cycle.

(** ** The task around the loop *)

Section Task.

Context {F : Type} {ops : FloatOps F} {wire : FloatWire F}.

(** The static initialisers of lines 74-88. *)
Definition initial_state : state F :=
  let z := V3 (of_int 0) (of_int 0) (of_int 0) in
  {| error := false; lastSysTime := 0;
     gps_updated := false; baro_updated := false;
     bias_correct_gyro := true;
     mag_bias := z; mag_scale := z; accel_bias := z; accel_scale := z |}.

(** What the start of the task obtains from its surroundings. *)
Record startup_env : Type := {
  revo_calibration : RevoCalibrationData F;   (* RevoCalibrationGet *)
  PIOS_MPU6000_Test : Z;
  PIOS_L3GD20_Test : Z;
  PIOS_BMA180_Test : Z;
  PIOS_HMC5883_Test : Z;
  start_tick : Z                              (* xTaskGetTickCount() of line 190 *)
}.

(** Lines 162-173: [accel_test], [gyro_test] and [mag_test], globals that
    start at zero. *)
Definition self_tests (cfg : config) (b : startup_env) : Z * Z * Z :=
  let gyro_test :=
    if PIOS_INCLUDE_MPU6000 cfg then PIOS_MPU6000_Test b
    else if PIOS_INCLUDE_L3GD20 cfg then PIOS_L3GD20_Test b
    else 0 in
  let accel_test :=
    if PIOS_INCLUDE_MPU6000 cfg && negb (PIOS_INCLUDE_BMA180 cfg) then gyro_test else 0 in
  let accel_test :=
    if PIOS_INCLUDE_BMA180 cfg then PIOS_BMA180_Test b else accel_test in
  (accel_test, gyro_test, PIOS_HMC5883_Test b).

(** The task is either in the main loop or in the idle loop of lines 177-180. *)
Inductive task : Type :=
| Running (s : state F)
| Halted (s : state F).

(** Lines 157-191. *)
Definition SensorsTask_start (cfg : config) (b : startup_env) (s : state F)
  : task * list (event F) :=
  let s := settingsUpdatedCb (revo_calibration b) s in
  let '(accel_test, gyro_test, mag_test) := self_tests cfg b in
  if (accel_test <? 0) || (gyro_test <? 0) || (mag_test <? 0) then
    (Halted s, [AlarmsClear; AlarmsSet SYSTEMALARMS_ALARM_CRITICAL])
  else
    (Running (with_error (with_lastSysTime s (start_tick b)) false),
     AlarmsClear ::
     (if pios_com_aux_id cfg =? 0 then []
      else [BaroAltitudeConnectCallback; GPSPositionConnectCallback])).

(** What happens to the task: a pass of the loop it is in, or one of the
    callbacks run by the event dispatcher between two passes. *)
Inductive input : Type :=
| Pass (e : cycle_env F)
| SensorsUpdated (obj : handle)
| SettingsUpdated (cal : RevoCalibrationData F).

(** [sensorsUpdatedCb] is connected at line 185 only, so only in the main
    loop and only with a debug port; [settingsUpdatedCb] is connected by
    [SensorsInitialize]. *)
Definition step (cfg : config) (t : task) (i : input) : task * list (event F) :=
  match t, i with
  | Running s, Pass e =>
      let '(s', evs) := loop_body cfg e s in (Running s', evs)
  | Halted s, Pass _ => (Halted s, [PIOS_WDG_UpdateFlag; vTaskDelay 10])
  | Running s, SensorsUpdated obj =>
      if pios_com_aux_id cfg =? 0 then (Running s, [])
      else (Running (sensorsUpdatedCb obj s), [])
  | Halted s, SensorsUpdated _ => (Halted s, [])
  | Running s, SettingsUpdated cal => (Running (settingsUpdatedCb cal s), [])
  | Halted s, SettingsUpdated cal => (Halted (settingsUpdatedCb cal s), [])
  end.

Fixpoint run (cfg : config) (t : task) (inputs : list input) : task * list (event F) :=
  match inputs with
  | [] => (t, [])
  | i :: rest =>
      let '(t1, ev1) := step cfg t i in
      let '(t2, ev2) := run cfg t1 rest in
      (t2, ev1 ++ ev2)
  end.

(** *** Reading a list of events *)

Definition accels_published (evs : list (event F)) : list (AccelsData F) :=
  flat_map (fun ev => match ev with AccelsSet d => [d] | _ => [] end) evs.

Definition gyros_published (evs : list (event F)) : list (GyrosData F) :=
  flat_map (fun ev => match ev with GyrosSet d => [d] | _ => [] end) evs.

Definition mags_published (evs : list (event F)) : list (MagnetometerData F) :=
  flat_map (fun ev => match ev with MagnetometerSet d => [d] | _ => [] end) evs.

Definition frames_sent (evs : list (event F)) : list (list Z) :=
  flat_map (fun ev => match ev with
                      | PIOS_COM_SendBufferNonBlocking _ m => [m]
                      | _ => []
                      end) evs.

(** The calls that raise the alarm, and the calls that clear it. *)
Definition alarms_raised (evs : list (event F)) : list severity :=
  flat_map (fun ev => match ev with
                      | AlarmsSet SYSTEMALARMS_ALARM_CRITICAL => [SYSTEMALARMS_ALARM_CRITICAL]
                      | _ => []
                      end) evs.

Definition alarm_clears (evs : list (event F)) : nat :=
  length (filter (fun ev => match ev with AlarmsClear => true | _ => false end) evs).

Definition watchdog_kicks (evs : list (event F)) : nat :=
  length (filter (fun ev => match ev with PIOS_WDG_UpdateFlag => true | _ => false end) evs).

(** The state of the sensors alarm after the calls in [evs]. *)
Definition alarm_after (a : severity) (evs : list (event F)) : severity :=
  fold_left (fun a ev => match ev with
                         | AlarmsClear => SYSTEMALARMS_ALARM_OK
                         | AlarmsSet sev => sev
                         | _ => a
                         end) evs a.

(** A pass is abandoned when one of its reads ran out of time. *)
Definition abandoned (cfg : config) (e : cycle_env F) (s : state F) : bool :=
  let s0 := fst (top_of_loop cfg e s) in
  match acquire cfg e (lastSysTime s0) (error s0) with
  | inr _ => true
  | inl _ => false
  end.

(** The readings of a pass that is not abandoned. *)
Definition readings_of (cfg : config) (e : cycle_env F) (s : state F) : option readings :=
  let s0 := fst (top_of_loop cfg e s) in
  match acquire cfg e (lastSysTime s0) (error s0) with
  | inr _ => None
  | inl r => Some r
  end.

(** Every pass among [inputs] is abandoned. *)
Fixpoint all_abandoned (cfg : config) (t : task) (inputs : list input) : bool :=
  match inputs with
  | [] => true
  | i :: rest =>
      match t, i with
      | Running s, Pass e => abandoned cfg e s
      | _, _ => true
      end && all_abandoned cfg (fst (step cfg t i)) rest
  end.

End Task.

(** ** The axis convention *)

(** The order and sign in which lines 295, 315 and 345-347 read the raw
    axes: (y, x, -z). *)
Definition remap {A : Type} (neg : A -> A) (v : vec3 A) : vec3 A :=
  V3 (v1 v) (v0 v) (neg (v2 v)).

(** ** IEEE-754 single precision *)

Definition binary32 : Type := spec_float.

#[export] Instance binary32_ops : FloatOps binary32 := {|
  of_int := fun z => binary_normalize 24 128 z 0 false;
  fadd := SFadd 24 128;
  fsub := SFsub 24 128;
  fmul := SFmul 24 128;
  fdiv := SFdiv 24 128;
  fneg := SFopp
|}.

(** The 32 bits of a value: sign, biased exponent, fraction; the NaN is
    the default quiet NaN. *)
Definition binary32_bits (x : binary32) : Z :=
  let sign (s : bool) := if s then 2 ^ 31 else 0 in
  match x with
  | S754_zero s => sign s
  | S754_infinity s => sign s + 255 * 2 ^ 23
  | S754_nan => 255 * 2 ^ 23 + 2 ^ 22
  | S754_finite s m e =>
      if Zpos m <? 2 ^ 23 then sign s + Zpos m
      else sign s + (e + 150) * 2 ^ 23 + (Zpos m - 2 ^ 23)
  end.

(** Little endian, as on the target. *)
Definition binary32_bytes (x : binary32) : list Z :=
  let b := binary32_bits x in
  [u8 b; u8 (Z.shiftr b 8); u8 (Z.shiftr b 16); u8 (Z.shiftr b 24)].

#[export] Instance binary32_wire : FloatWire binary32 := {|
  float_bytes := binary32_bytes;
  float_bytes_length := fun _ => eq_refl
|}.

(** ** Exact arithmetic

    An idealisation without rounding.  What is said of the values that the
    program computes is said in [binary32]. *)

Definition exact : Type := Qc.

#[export] Instance exact_ops : FloatOps exact := {|
  of_int := fun z => Q2Qc (inject_Z z);
  fadd := Qcplus;
  fsub := Qcminus;
  fmul := Qcmult;
  fdiv := Qcdiv;
  fneg := Qcopp
|}.

(** ** The wire format of the debug message

    The format as the interface description gives it:
    [0xFF][ts_hi][ts_lo][accel: 3 x float32][gyro: 3 x float32 + temperature]
    and then, each only when present, [0x01][mag], [0x02][gps], [0x03][altitude]. *)

Definition tagged_block (tag : Z) (payload : option (list Z)) : list Z :=
  match payload with
  | Some p => tag :: p
  | None => []
  end.

Definition wire_frame {F : Type} {wire : FloatWire F} (timestamp : Z)
  (accel : AccelsData F) (gyro : GyrosData F) (mag : option (MagnetometerData F))
  (gps baro : option (list Z)) : list Z :=
  [255; (timestamp / 256) mod 256; timestamp mod 256]
  ++ (float_bytes (m_x accel) ++ float_bytes (m_y accel) ++ float_bytes (m_z accel))
  ++ ((float_bytes (m_x gyro) ++ float_bytes (m_y gyro) ++ float_bytes (m_z gyro))
      ++ float_bytes (m_temperature gyro))
  ++ tagged_block 1 (option_map (fun v => float_bytes (v0 v) ++ float_bytes (v1 v)
                                          ++ float_bytes (v2 v)) mag)
  ++ tagged_block 2 gps
  ++ tagged_block 3 baro.

(** The records that a pass with a debug port puts into its message. *)
Definition frame_of {F : Type} {ops : FloatOps F} {wire : FloatWire F}
  (cfg : config) (e : cycle_env F) (s : state F) (r : readings) : list Z :=
  wire_frame (lastSysTime (fst (top_of_loop cfg e s)))
    (accels_record cfg e s r) (gyros_record cfg e s r)
    (option_map (mag_record s) (mag_sample e))
    (if gps_updated s then Some (gps_record e) else None)
    (if baro_updated s then Some (baro_record e) else None).

(** [content] is what the first [message_size] bytes of the array hold. *)
Definition buffer_holds (m : list Z * Z) (content : list Z) : Prop :=
  length (fst m) = 200%nat /\
  snd m = sizeof content /\
  firstn (length content) (fst m) = content.

(** ** The self tests that a configuration runs *)

Definition attached_self_tests {F : Type} (cfg : config) (b : startup_env (F:=F)) : list Z :=
  (if PIOS_INCLUDE_MPU6000 cfg then [PIOS_MPU6000_Test b]
   else if PIOS_INCLUDE_L3GD20 cfg then [PIOS_L3GD20_Test b]
   else [])
  ++ (if PIOS_INCLUDE_BMA180 cfg then [PIOS_BMA180_Test b] else [])
  ++ [PIOS_HMC5883_Test b].

Definition passes {F : Type} (inputs : list (input (F:=F))) : nat :=
  length (filter (fun i => match i with Pass _ => true | _ => false end) inputs).

(** ** Samples in range *)

Definition int16 (x : Z) : Prop := -32768 <= x <= 32767.

Definition int16_vec (v : vec3 Z) : Prop := int16 (v0 v) /\ int16 (v1 v) /\ int16 (v2 v).

(** The axes of a sample. *)
Definition bma_axes (d : pios_bma180_data) : vec3 Z := V3 (bma_x d) (bma_y d) (bma_z d).
Definition mpu_gyro_axes (d : pios_mpu6000_data) : vec3 Z :=
  V3 (mpu_gyro_x d) (mpu_gyro_y d) (mpu_gyro_z d).
Definition mpu_accel_axes (d : pios_mpu6000_data) : vec3 Z :=
  V3 (mpu_accel_x d) (mpu_accel_y d) (mpu_accel_z d).
Definition l3g_axes (d : pios_l3gd20_data) : vec3 Z :=
  V3 (l3g_gyro_x d) (l3g_gyro_y d) (l3g_gyro_z d).

(** The sums of [n] copies of a sample with axes [v], before any wrap-around. *)
Definition scaled_axes (n : Z) (v : vec3 Z) : vec3 Z := vmap (Z.mul n) v.

Definition with_gyros_bias {F : Type} (e : cycle_env F) (b : vec3 F) : cycle_env F :=
  {| recovery_tick := recovery_tick e;
     bma_misses := bma_misses e; bma_first := bma_first e; bma_more := bma_more e;
     bma_scale := bma_scale e;
     mpu_misses := mpu_misses e; mpu_first := mpu_first e; mpu_more := mpu_more e;
     mpu_gyro_scale := mpu_gyro_scale e; mpu_accel_scale := mpu_accel_scale e;
     l3g_queue := l3g_queue e; l3g_scale := l3g_scale e;
     stale_accel_temperature := stale_accel_temperature e;
     stale_bma_temperature := stale_bma_temperature e;
     stale_gyro_temperature := stale_gyro_temperature e;
     accels_set_result := accels_set_result e;
     gyros_bias := b;
     mag_sample := mag_sample e;
     gps_record := gps_record e; baro_record := baro_record e |}.

(** ** Concrete boards and passes

    The three configurations that the comment above [SensorsTask] lists. *)

Module Boards.

(** 1. BMA180 accel and MPU6000 gyro, with a debug port. *)
Definition bma180_mpu6000 : config :=
  {| PIOS_INCLUDE_MPU6000 := true; PIOS_INCLUDE_L3GD20 := false;
     PIOS_INCLUDE_BMA180 := true; PIOS_MPU6000_ACCEL := false; BMA180 := false;
     portTICK_RATE_MS := 1; pios_com_aux_id := 1 |}.

(** 2. MPU6000 gyro and accel. *)
Definition mpu6000_only : config :=
  {| PIOS_INCLUDE_MPU6000 := true; PIOS_INCLUDE_L3GD20 := false;
     PIOS_INCLUDE_BMA180 := false; PIOS_MPU6000_ACCEL := true; BMA180 := false;
     portTICK_RATE_MS := 1; pios_com_aux_id := 0 |}.

(** 3. BMA180 accel and L3GD20 gyro. *)
Definition bma180_l3gd20 : config :=
  {| PIOS_INCLUDE_MPU6000 := false; PIOS_INCLUDE_L3GD20 := true;
     PIOS_INCLUDE_BMA180 := true; PIOS_MPU6000_ACCEL := false; BMA180 := false;
     portTICK_RATE_MS := 1; pios_com_aux_id := 0 |}.

End Boards.

Module Bench.

Definition f32 (z : Z) : binary32 := of_int z.

Definition bma_sample (x y z t : Z) : pios_bma180_data :=
  {| bma_x := x; bma_y := y; bma_z := z; bma_temperature := t |}.

Definition mpu_sample (gx gy gz ax ay az t : Z) : pios_mpu6000_data :=
  {| mpu_gyro_x := gx; mpu_gyro_y := gy; mpu_gyro_z := gz;
     mpu_accel_x := ax; mpu_accel_y := ay; mpu_accel_z := az;
     mpu_temperature := t |}.

(** A pass in which every FIFO delivers one sample at the first poll:
    the accelerometer reads (2, 1, -3), the gyro (4, 2, -6). *)
Definition pass_ok : cycle_env binary32 :=
  {| recovery_tick := 4;
     bma_misses := []; bma_first := bma_sample 2 1 (-3) 10; bma_more := [];
     bma_scale := f32 1;
     mpu_misses := []; mpu_first := mpu_sample 4 2 (-6) 2 1 (-3) 168; mpu_more := [];
     mpu_gyro_scale := f32 1; mpu_accel_scale := f32 1;
     l3g_queue := []; l3g_scale := f32 1;
     stale_accel_temperature := f32 0;
     stale_bma_temperature := 0;
     stale_gyro_temperature := f32 0;
     accels_set_result := 0;
     gyros_bias := V3 (f32 5) (f32 6) (f32 7);
     mag_sample := None;
     gps_record := [71; 80; 83]; baro_record := [66; 65] |}.

(** What [pass_ok] leaves in the locals on the BMA180 + MPU6000 board. *)
Definition pass_ok_readings : readings (F:=binary32) :=
  {| r_accel_accum := V3 2 1 (-3); r_accel_samples := 1;
     r_gyro_accum := V3 4 2 (-6); r_gyro_samples := 1;
     r_gyro_scaling := f32 1;
     r_bma_temperature := 10;
     r_gyro_temperature := f32 168 |}.

(** A pass in which the BMA180 FIFO is still empty when the tick count
    has moved 3 past [lastSysTime = 0]. *)
Definition pass_timeout : cycle_env binary32 :=
  {| recovery_tick := 4;
     bma_misses := [1; 3; 3]; bma_first := bma_sample 2 1 (-3) 10; bma_more := [];
     bma_scale := f32 1;
     mpu_misses := []; mpu_first := mpu_sample 4 2 (-6) 2 1 (-3) 168; mpu_more := [];
     mpu_gyro_scale := f32 1; mpu_accel_scale := f32 1;
     l3g_queue := []; l3g_scale := f32 1;
     stale_accel_temperature := f32 0;
     stale_bma_temperature := 0;
     stale_gyro_temperature := f32 0;
     accels_set_result := 0;
     gyros_bias := V3 (f32 5) (f32 6) (f32 7);
     mag_sample := None;
     gps_record := [71; 80; 83]; baro_record := [66; 65] |}.

(** Calibration of the round-trip example: bias (1, 2, 3), scale (1, 1, 1). *)
Definition calibrated (bias_correct : bool) (gps baro : bool) : state binary32 :=
  {| error := false; lastSysTime := 0;
     gps_updated := gps; baro_updated := baro;
     bias_correct_gyro := bias_correct;
     mag_bias := V3 (f32 0) (f32 0) (f32 0);
     mag_scale := V3 (f32 1) (f32 1) (f32 1);
     accel_bias := V3 (f32 1) (f32 2) (f32 3);
     accel_scale := V3 (f32 1) (f32 1) (f32 1) |}.

Definition startup_faulty : startup_env (F:=binary32) :=
  {| revo_calibration :=
       {| cal_mag_bias := V3 (f32 0) (f32 0) (f32 0);
          cal_mag_scale := V3 (f32 1) (f32 1) (f32 1);
          cal_accel_bias := V3 (f32 1) (f32 2) (f32 3);
          cal_accel_scale := V3 (f32 1) (f32 1) (f32 1) |};
     PIOS_MPU6000_Test := 0;
     PIOS_L3GD20_Test := 0;
     PIOS_BMA180_Test := -1;
     PIOS_HMC5883_Test := 0;
     start_tick := 0 |}.

(** The accelerometer sample repeated in the averaging examples. *)
Definition full_scale : pios_bma180_data := bma_sample (-32768) (-32768) (-32768) 0.

(** A pass in which the BMA180 FIFO holds [d] and [more] copies of it,
    in the arithmetic of one's choice. *)
Definition copies_pass {F : Type} {ops : FloatOps F}
  (d : pios_bma180_data) (more : Z) : cycle_env F :=
  {| recovery_tick := 0;
     bma_misses := []; bma_first := d; bma_more := repeat d (Z.to_nat more);
     bma_scale := of_int 1;
     mpu_misses := []; mpu_first := mpu_sample 4 2 (-6) 2 1 (-3) 168; mpu_more := [];
     mpu_gyro_scale := of_int 1; mpu_accel_scale := of_int 1;
     l3g_queue := []; l3g_scale := of_int 1;
     stale_accel_temperature := of_int 0;
     stale_bma_temperature := 0;
     stale_gyro_temperature := of_int 0;
     accels_set_result := 0;
     gyros_bias := V3 (of_int 0) (of_int 0) (of_int 0);
     mag_sample := None;
     gps_record := []; baro_record := [] |}.

End Bench.

(** ** Further readings of states, events and inputs *)

(** The tick count [now] is more than SENSOR_PERIOD past [last]: the test
    of lines 221 and 249. *)
Definition exceeded (last now : Z) : bool := u32 (now - last) >? SENSOR_PERIOD.

(** The calls of [PIOS_BMA180_ReadAccels], line 227. *)
Definition forced_reads {F : Type} (evs : list (event F)) : nat :=
  length (filter (fun ev => match ev with PIOS_BMA180_ReadAccels => true | _ => false end)
            evs).

(** The same board with another debug port. *)
Definition with_aux_id (cfg : config) (port : Z) : config :=
  {| PIOS_INCLUDE_MPU6000 := PIOS_INCLUDE_MPU6000 cfg;
     PIOS_INCLUDE_L3GD20 := PIOS_INCLUDE_L3GD20 cfg;
     PIOS_INCLUDE_BMA180 := PIOS_INCLUDE_BMA180 cfg;
     PIOS_MPU6000_ACCEL := PIOS_MPU6000_ACCEL cfg;
     BMA180 := BMA180 cfg;
     portTICK_RATE_MS := portTICK_RATE_MS cfg;
     pios_com_aux_id := port |}.

(** The globals of a task, whichever loop it is in. *)
Definition state_of {F : Type} (t : task (F:=F)) : state F :=
  match t with
  | Running s => s
  | Halted s => s
  end.

(** The four calibration arrays, as one record. *)
Definition calibration {F : Type} (s : state F) : RevoCalibrationData F :=
  {| cal_mag_bias := mag_bias s; cal_mag_scale := mag_scale s;
     cal_accel_bias := accel_bias s; cal_accel_scale := accel_scale s |}.

(** The calibration of the last settings notification among [inputs]. *)
Definition latest_settings {F : Type} (inputs : list (input (F:=F)))
  (cal : RevoCalibrationData F) : RevoCalibrationData F :=
  fold_left (fun c i => match i with SettingsUpdated cal' => cal' | _ => c end) inputs cal.

(** No pass among [es], run one after the other from [s], is abandoned. *)
Fixpoint completed_passes {F : Type} {ops : FloatOps F} {wire : FloatWire F}
  (cfg : config) (s : state F) (es : list (cycle_env F)) : bool :=
  match es with
  | [] => true
  | e :: rest =>
      negb (abandoned cfg e s) && completed_passes cfg (fst (loop_body cfg e s)) rest
  end.

(** The state after the passes [es]. *)
Definition after_passes {F : Type} {ops : FloatOps F} {wire : FloatWire F}
  (cfg : config) (s : state F) (es : list (cycle_env F)) : state F :=
  fold_left (fun s e => fst (loop_body cfg e s)) es s.

(** The notifications [objs], delivered one after the other. *)
Definition notify {F : Type} (objs : list handle) (s : state F) : state F :=
  fold_left (fun s obj => sensorsUpdatedCb obj s) objs s.

(** Sums of raw axes, in the integers. *)
Definition vadd (a b : vec3 Z) : vec3 Z :=
  V3 (v0 a + v0 b) (v1 a + v1 b) (v2 a + v2 b).

Definition sum_axes (samples : list (vec3 Z)) : vec3 Z :=
  fold_right vadd zero3 samples.

(** The wake time after a pass that is not abandoned: advanced by one
    period where line 400 is compiled, left alone elsewhere. *)
Definition next_wake (cfg : config) (last : Z) : Z :=
  if PIOS_INCLUDE_MPU6000 cfg && negb (PIOS_INCLUDE_L3GD20 cfg)
  then u32 (last + period_ticks cfg) else last.


(** Integers of at most 2^24 in magnitude: each of them is a single
    precision number, and 2^24 + 1 is the first integer that is not. *)
Definition float_integer (a : Z) : Prop := Z.abs a <= 2 ^ 24.

Definition float_integers (t : vec3 Z) : Prop :=
  float_integer (v0 t) /\ float_integer (v1 t) /\ float_integer (v2 t).

(** [x] is the normal single precision number whose value is the integer
    [a]: a mantissa of 24 bits with the sign of [a], and an exponent that is
    negative or null for an integer below 2^24, and 1 from there to 2^25. *)
Definition normal32 (a : Z) (x : binary32) : Prop :=
  exists (m : positive) (e : Z),
    x = S754_finite (a <? 0) m e /\ 2 ^ 23 <= Zpos m < 2 ^ 24 /\
    ((e <= 0 /\ Zpos m = Z.abs a * 2 ^ (- e)) \/ (e = 1 /\ Z.abs a = 2 * Zpos m)).

(** ** More concrete passes *)

Module Trials.

(** A pass whose first poll of the BMA180 finds the FIFO empty at tick 3,
    and which then gets its samples. *)
Definition late_pass : cycle_env binary32 :=
  {| recovery_tick := 4;
     bma_misses := [3]; bma_first := Bench.bma_sample 2 1 (-3) 10; bma_more := [];
     bma_scale := Bench.f32 1;
     mpu_misses := []; mpu_first := Bench.mpu_sample 4 2 (-6) 2 1 (-3) 168;
     mpu_more := [];
     mpu_gyro_scale := Bench.f32 1; mpu_accel_scale := Bench.f32 1;
     l3g_queue := []; l3g_scale := Bench.f32 1;
     stale_accel_temperature := Bench.f32 0;
     stale_bma_temperature := 0;
     stale_gyro_temperature := Bench.f32 0;
     accels_set_result := 0;
     gyros_bias := V3 (Bench.f32 5) (Bench.f32 6) (Bench.f32 7);
     mag_sample := None;
     gps_record := [71; 80; 83]; baro_record := [66; 65] |}.

(** A pass in which the BMA180 FIFO holds two different samples. *)
Definition two_samples : cycle_env binary32 :=
  {| recovery_tick := 0;
     bma_misses := []; bma_first := Bench.bma_sample 1 2 3 10;
     bma_more := [Bench.bma_sample 3 4 (-9) 12];
     bma_scale := Bench.f32 1;
     mpu_misses := []; mpu_first := Bench.mpu_sample 4 2 (-6) 2 1 (-3) 168;
     mpu_more := [];
     mpu_gyro_scale := Bench.f32 1; mpu_accel_scale := Bench.f32 1;
     l3g_queue := []; l3g_scale := Bench.f32 1;
     stale_accel_temperature := Bench.f32 0;
     stale_bma_temperature := 0;
     stale_gyro_temperature := Bench.f32 0;
     accels_set_result := 0;
     gyros_bias := V3 (Bench.f32 0) (Bench.f32 0) (Bench.f32 0);
     mag_sample := None;
     gps_record := []; baro_record := [] |}.

End Trials.

(** * Properties *)

(** ** Machine integers *)

Lemma u32_small (x : Z) : 0 <= x < 2 ^ 32 -> u32 x = x.
Proof. intros Hx. unfold u32, wrap_unsigned. now apply Z.mod_small. Qed.

Lemma s32_small (x : Z) : - 2 ^ 31 <= x < 2 ^ 31 -> s32 x = x.
Proof.
  intros Hx. unfold s32, wrap_signed.
  change (2 ^ (32 - 1)) with 2147483648 in *.
  change (2 ^ 31) with 2147483648 in *.
  change (2 ^ 32) with 4294967296.
  rewrite Z.mod_small; lia.
Qed.

Lemma s32_add_l (a x : Z) : s32 (s32 a + x) = s32 (a + x).
Proof.
  unfold s32, wrap_signed. f_equal.
  replace (((a + 2 ^ (32 - 1)) mod 2 ^ 32 - 2 ^ (32 - 1)) + x + 2 ^ (32 - 1))
    with ((a + 2 ^ (32 - 1)) mod 2 ^ 32 + x) by ring.
  rewrite Z.add_mod_idemp_l by (now compute).
  f_equal. ring.
Qed.

(** ** The shape of a pass *)

Section PassShape.

Context {F : Type} {ops : FloatOps F} {wire : FloatWire F}.

Lemma top_of_loop_keeps (cfg : config) (e : cycle_env F) (s : state F) :
  let s0 := fst (top_of_loop cfg e s) in
  error s0 = false /\
  gps_updated s0 = gps_updated s /\ baro_updated s0 = baro_updated s /\
  bias_correct_gyro s0 = bias_correct_gyro s /\
  mag_bias s0 = mag_bias s /\ mag_scale s0 = mag_scale s /\
  accel_bias s0 = accel_bias s /\ accel_scale s0 = accel_scale s.
Proof.
  unfold top_of_loop. destruct (error s) eqn:E; cbn; auto 10.
Qed.

Lemma loop_body_abandoned (cfg : config) (e : cycle_env F) (s : state F) :
  abandoned cfg e s = true ->
  exists out,
    (out = [] \/ out = [PIOS_BMA180_ReadAccels]) /\
    loop_body cfg e s =
      (with_error (fst (top_of_loop cfg e s)) true, snd (top_of_loop cfg e s) ++ out).
Proof.
  unfold abandoned, loop_body.
  destruct (top_of_loop cfg e s) as [s0 ev_top]; cbn [fst snd].
  destruct (acquire cfg e (lastSysTime s0) (error s0)) as [r | out] eqn:A;
    [discriminate |].
  intros _. exists out. split; [| reflexivity].
  unfold acquire in A.
  destruct (if PIOS_MPU6000_ACCEL cfg then _ else _) as [[[n acc] t] |];
    [| injection A as <-; now right].
  destruct (PIOS_INCLUDE_MPU6000 cfg).
  - destruct (read_mpu6000 cfg e (lastSysTime s0) (error s0) acc)
      as [[[c [g a]] t'] |]; [discriminate | injection A as <-; now left].
  - destruct (PIOS_INCLUDE_L3GD20 cfg); [| discriminate].
    destruct (drain_queue (l3g_queue e) 0 zero3 None) as [[c g] b]; discriminate.
Qed.

Lemma readings_of_abandoned (cfg : config) (e : cycle_env F) (s : state F) :
  abandoned cfg e s = false <-> exists r, readings_of cfg e s = Some r.
Proof.
  unfold abandoned, readings_of.
  destruct (acquire cfg e _ _) as [r | out]; split.
  - intros _. now exists r.
  - reflexivity.
  - discriminate.
  - intros [r Hr]. discriminate.
Qed.

Lemma telemetry_events (cfg : config) (e : cycle_env F) (s : state F)
  (a : AccelsData F) (g : GyrosData F) (mag : option (MagnetometerData F)) :
  (pios_com_aux_id cfg = 0 /\ telemetry cfg e s a g mag = (s, [])) \/
  (pios_com_aux_id cfg <> 0 /\
   exists m, snd (telemetry cfg e s a g mag)
             = [PIOS_COM_SendBufferNonBlocking (pios_com_aux_id cfg) m] /\
             fst (telemetry cfg e s a g mag) = with_updated s false false).
Proof.
  unfold telemetry. destruct (Z.eqb_spec (pios_com_aux_id cfg) 0) as [E | E].
  - now left.
  - right. split; [exact E |]. eexists. cbn [fst snd]. split; [reflexivity |].
    now destruct (gps_updated s), (baro_updated s).
Qed.

Lemma process_events (cfg : config) (e : cycle_env F) (s : state F) (r : readings) :
  let a := fst (publish_accels e (accels_record cfg e s r)) in
  let g := gyros_record cfg e s r in
  let mag := option_map (mag_record s) (mag_sample e) in
  let tele := telemetry cfg e s a g mag in
  process cfg e s r =
    (fst (end_of_loop cfg (fst tele)),
     [AccelsSet (accels_record cfg e s r)] ++ [GyrosSet g]
     ++ match mag with Some d => [MagnetometerSet d] | None => [] end
     ++ snd tele ++ snd (end_of_loop cfg (fst tele))).
Proof.
  cbv zeta. unfold process. cbn [publish_accels fst snd].
  destruct (telemetry cfg e s _ _ _) as [s1 ev_tele]. cbn [fst snd].
  destruct (end_of_loop cfg s1) as [s2 ev_end]. reflexivity.
Qed.

Lemma end_of_loop_events (cfg : config) (s : state F) :
  accels_published (snd (end_of_loop cfg s)) = [] /\
  gyros_published (snd (end_of_loop cfg s)) = [] /\
  mags_published (snd (end_of_loop cfg s)) = [] /\
  frames_sent (snd (end_of_loop cfg s)) = [] /\
  alarms_raised (snd (end_of_loop cfg s)) = [] /\
  alarm_clears (snd (end_of_loop cfg s)) = 0%nat /\
  (forall a, alarm_after a (snd (end_of_loop cfg s)) = a) /\
  error (fst (end_of_loop cfg s)) = error s /\
  gps_updated (fst (end_of_loop cfg s)) = gps_updated s /\
  baro_updated (fst (end_of_loop cfg s)) = baro_updated s.
Proof.
  unfold end_of_loop.
  destruct (PIOS_INCLUDE_MPU6000 cfg && negb (PIOS_INCLUDE_L3GD20 cfg));
    cbn; auto 12.
Qed.

Lemma loop_body_processed (cfg : config) (e : cycle_env F) (s : state F) (r : readings) :
  readings_of cfg e s = Some r ->
  loop_body cfg e s =
    (fst (process cfg e (fst (top_of_loop cfg e s)) r),
     snd (top_of_loop cfg e s) ++ snd (process cfg e (fst (top_of_loop cfg e s)) r)).
Proof.
  unfold readings_of, loop_body.
  destruct (top_of_loop cfg e s) as [s0 ev_top]; cbn [fst snd].
  destruct (acquire cfg e (lastSysTime s0) (error s0)) as [r' | out];
    [| discriminate].
  intros [= ->]. now destruct (process cfg e s0 r).
Qed.

(** The records of a pass depend on the state only through the globals
    that the top of the loop leaves alone. *)
Lemma accels_record_top (cfg : config) (e : cycle_env F) (s : state F) (r : readings) :
  accels_record cfg e (fst (top_of_loop cfg e s)) r = accels_record cfg e s r.
Proof.
  destruct (top_of_loop_keeps cfg e s) as (_ & _ & _ & _ & _ & _ & Hb & Hs).
  unfold accels_record. now rewrite Hb, Hs.
Qed.

Lemma gyros_record_top (cfg : config) (e : cycle_env F) (s : state F) (r : readings) :
  gyros_record cfg e (fst (top_of_loop cfg e s)) r = gyros_record cfg e s r.
Proof.
  destruct (top_of_loop_keeps cfg e s) as (_ & _ & _ & Hc & _).
  unfold gyros_record, apply_gyro_bias. now rewrite Hc.
Qed.

Lemma mag_record_top (cfg : config) (e : cycle_env F) (s : state F) (values : vec3 Z) :
  mag_record (fst (top_of_loop cfg e s)) values = mag_record s values.
Proof.
  destruct (top_of_loop_keeps cfg e s) as (_ & _ & _ & _ & Hb & Hs & _).
  unfold mag_record. now rewrite Hb, Hs.
Qed.

Lemma top_of_loop_events (cfg : config) (e : cycle_env F) (s : state F) :
  accels_published (snd (top_of_loop cfg e s)) = [] /\
  gyros_published (snd (top_of_loop cfg e s)) = [] /\
  mags_published (snd (top_of_loop cfg e s)) = [] /\
  frames_sent (snd (top_of_loop cfg e s)) = [].
Proof.
  unfold top_of_loop. destruct (error s); cbn; auto.
Qed.

(** What a pass that is not abandoned publishes. *)
Lemma pass_publishes (cfg : config) (e : cycle_env F) (s : state F) (r : readings) :
  readings_of cfg e s = Some r ->
  accels_published (snd (loop_body cfg e s)) = [accels_record cfg e s r] /\
  gyros_published (snd (loop_body cfg e s)) = [gyros_record cfg e s r] /\
  mags_published (snd (loop_body cfg e s))
    = match mag_sample e with Some v => [mag_record s v] | None => [] end.
Proof.
  intros Hr. rewrite (loop_body_processed _ _ _ Hr). cbn [snd].
  rewrite process_events. cbv zeta. cbn [snd].
  set (s0 := fst (top_of_loop cfg e s)).
  set (tele := telemetry cfg e s0 _ _ _).
  destruct (top_of_loop_events cfg e s) as (Ta & Tg & Tm & _).
  destruct (end_of_loop_events cfg (fst tele)) as (Ea & Eg & Em & _).
  assert (Htele : accels_published (snd tele) = [] /\ gyros_published (snd tele) = []
                  /\ mags_published (snd tele) = []).
  { subst tele.
    destruct (telemetry_events cfg e s0
                (fst (publish_accels e (accels_record cfg e s0 r)))
                (gyros_record cfg e s0 r)
                (option_map (mag_record s0) (mag_sample e)))
      as [[_ ->] | [_ (m & -> & _)]]; cbn; auto. }
  destruct Htele as (Ha & Hg & Hm).
  unfold accels_published, gyros_published, mags_published in *.
  rewrite !flat_map_app.
  rewrite Ta, Tg, Tm, Ea, Eg, Em, Ha, Hg, Hm.
  subst s0. rewrite accels_record_top, gyros_record_top.
  destruct (mag_sample e) as [v |]; cbn; rewrite ?mag_record_top; auto.
Qed.

End PassShape.

(** ** Axis convention *)

Lemma remap_involutive {A : Type} (neg : A -> A) :
  (forall a, neg (neg a) = a) -> forall v : vec3 A, remap neg (remap neg v) = v.
Proof. intros Hneg [x y z]. unfold remap. cbn. now rewrite Hneg. Qed.

Lemma binary32_neg_involutive (x : binary32) : fneg (fneg x) = x.
Proof. destruct x; cbn; now rewrite ?negb_involutive. Qed.

Lemma exact_neg_involutive (x : exact) : fneg (fneg x) = x.
Proof. cbn. apply Qcopp_involutive. Qed.

(** C4.  The accelerometer and gyro means and the magnetometer reading are
    taken in the order (y, x, -z) of the raw axes, and taking that order
    twice gives the raw order back, in single precision, in exact
    arithmetic and on the integer readings. *)
Theorem axis_remap_involution :
  (forall (F : Type) (ops : FloatOps F) (accum : vec3 Z) (samples : Z),
      mean_remap accum samples
      = vmap (fun a => fdiv a (of_int samples)) (remap fneg (vmap of_int accum)))
  /\ (forall (F : Type) (ops : FloatOps F) (s : state F) (values : vec3 Z),
      let raw := vmap of_int (remap Z.opp values) in
      mag_record s values
      = V3 (fsub (fmul (v0 raw) (v0 (mag_scale s))) (v0 (mag_bias s)))
           (fsub (fmul (v1 raw) (v1 (mag_scale s))) (v1 (mag_bias s)))
           (fsub (fmul (v2 raw) (v2 (mag_scale s))) (v2 (mag_bias s))))
  /\ (forall v : vec3 binary32, remap fneg (remap fneg v) = v)
  /\ (forall v : vec3 exact, remap fneg (remap fneg v) = v)
  /\ (forall v : vec3 Z, remap Z.opp (remap Z.opp v) = v).
Proof.
  repeat split.
  - apply remap_involutive, binary32_neg_involutive.
  - apply remap_involutive, exact_neg_involutive.
  - apply remap_involutive, Z.opp_involutive.
Qed.

(** ** Accelerometer calibration *)

(** C3.  Each axis of the published accelerometer record is
    mean * scale factor * accel_scale[i] - accel_bias[i], the mean being
    the remapped per-axis mean; with bias (1, 2, 3), scale (1, 1, 1), scale
    factor 1.0 and remapped mean (1, 2, 3) the published axes are (0, 0, 0). *)
Theorem accel_calibration :
  (forall (F : Type) (ops : FloatOps F) (wire : FloatWire F)
          (cfg : config) (e : cycle_env F) (s : state F) (r : readings),
      readings_of cfg e s = Some r ->
      let mean := mean_remap (r_accel_accum r) (r_accel_samples r) in
      let k := accel_scaling cfg e in
      exists d,
        accels_published (snd (loop_body cfg e s)) = [d] /\
        m_x d = fsub (fmul (fmul (v0 mean) k) (v0 (accel_scale s))) (v0 (accel_bias s)) /\
        m_y d = fsub (fmul (fmul (v1 mean) k) (v1 (accel_scale s))) (v1 (accel_bias s)) /\
        m_z d = fsub (fmul (fmul (v2 mean) k) (v2 (accel_scale s))) (v2 (accel_bias s)))
  /\ (let cfg := Boards.bma180_mpu6000 in
      let e := Bench.pass_ok in
      let s := Bench.calibrated true false false in
      accel_bias s = V3 (Bench.f32 1) (Bench.f32 2) (Bench.f32 3) /\
      accel_scale s = V3 (Bench.f32 1) (Bench.f32 1) (Bench.f32 1) /\
      accel_scaling cfg e = Bench.f32 1 /\
      option_map (fun r => mean_remap (r_accel_accum r) (r_accel_samples r))
                 (readings_of cfg e s)
        = Some (V3 (Bench.f32 1) (Bench.f32 2) (Bench.f32 3)) /\
      map (fun d => V3 (m_x d) (m_y d) (m_z d))
          (accels_published (snd (loop_body cfg e s)))
        = [V3 (Bench.f32 0) (Bench.f32 0) (Bench.f32 0)]).
Proof.
  split.
  - intros F ops wire cfg e s r Hr mean k.
    destruct (pass_publishes cfg e s Hr) as (Ha & _).
    exists (accels_record cfg e s r). split; [exact Ha |].
    unfold accels_record, calibrate_axis. cbn. auto.
  - cbv zeta. repeat split; vm_compute; reflexivity.
Qed.

Lemma accel_calibration_witness :
  let cfg := Boards.bma180_mpu6000 in
  let e := Bench.pass_ok in
  let s := Bench.calibrated true false false in
  exists r d,
    readings_of cfg e s = Some r /\
    accels_published (snd (loop_body cfg e s)) = [d] /\
    m_x d = fsub (fmul (fmul (v0 (mean_remap (r_accel_accum r) (r_accel_samples r)))
                             (accel_scaling cfg e))
                       (v0 (accel_scale s))) (v0 (accel_bias s)).
Proof.
  cbv zeta.
  destruct (proj1 accel_calibration binary32 _ _ Boards.bma180_mpu6000 Bench.pass_ok
              (Bench.calibrated true false false)
              Bench.pass_ok_readings eq_refl)
    as (d & Hd & Hx & _).
  eexists. exists d. split; [reflexivity |]. split; [exact Hd | exact Hx].
Defined.

(** ** Gyro bias feedback *)

Section BiasFeedback.

Context {F : Type} {ops : FloatOps F} {wire : FloatWire F}.

Lemma acquire_ignores_bias (cfg : config) (e : cycle_env F) (b : vec3 F) (last : Z)
  (err : bool) :
  acquire cfg (with_gyros_bias e b) last err = acquire cfg e last err.
Proof. reflexivity. Qed.

Lemma top_of_loop_ignores_bias (cfg : config) (e : cycle_env F) (b : vec3 F)
  (s : state F) :
  top_of_loop cfg (with_gyros_bias e b) s = top_of_loop cfg e s.
Proof. reflexivity. Qed.

Lemma process_ignores_bias (cfg : config) (e : cycle_env F) (b : vec3 F)
  (s : state F) (r : readings) :
  bias_correct_gyro s = false ->
  process cfg (with_gyros_bias e b) s r = process cfg e s r.
Proof.
  intros Hoff. unfold process, gyros_record, apply_gyro_bias.
  rewrite Hoff. reflexivity.
Qed.

Lemma loop_body_ignores_bias (cfg : config) (e : cycle_env F) (b : vec3 F)
  (s : state F) :
  bias_correct_gyro s = false ->
  loop_body cfg (with_gyros_bias e b) s = loop_body cfg e s.
Proof.
  intros Hoff. unfold loop_body.
  rewrite top_of_loop_ignores_bias.
  destruct (top_of_loop_keeps cfg e s) as (_ & _ & _ & Hc & _).
  destruct (top_of_loop cfg e s) as [s0 ev_top]. cbn [fst] in Hc.
  rewrite acquire_ignores_bias.
  destruct (acquire cfg e (lastSysTime s0) (error s0)) as [r | out]; [| reflexivity].
  rewrite process_ignores_bias by congruence. reflexivity.
Qed.

End BiasFeedback.

(** C5.  With [bias_correct_gyro] off, a pass does the same whatever the
    gyro bias estimate is, so the published gyro record does not depend on
    it; with the flag on, the estimate is added to each scaled axis. *)
Theorem gyro_bias_feedback :
  forall (F : Type) (ops : FloatOps F) (wire : FloatWire F)
         (cfg : config) (e : cycle_env F) (s : state F),
    (bias_correct_gyro s = false ->
     forall b1 b2 : vec3 F,
       loop_body cfg (with_gyros_bias e b1) s = loop_body cfg (with_gyros_bias e b2) s /\
       gyros_published (snd (loop_body cfg (with_gyros_bias e b1) s))
       = gyros_published (snd (loop_body cfg (with_gyros_bias e b2) s)))
    /\ (bias_correct_gyro s = true ->
        forall r, readings_of cfg e s = Some r ->
          gyros_published (snd (loop_body cfg e s))
          = [{| m_x := fadd (m_x (gyros_scaled cfg r)) (v0 (gyros_bias e));
                m_y := fadd (m_y (gyros_scaled cfg r)) (v1 (gyros_bias e));
                m_z := fadd (m_z (gyros_scaled cfg r)) (v2 (gyros_bias e));
                m_temperature := m_temperature (gyros_scaled cfg r) |}]).
Proof.
  intros F ops wire cfg e s. split.
  - intros Hoff b1 b2.
    assert (H : loop_body cfg (with_gyros_bias e b1) s
                = loop_body cfg (with_gyros_bias e b2) s)
      by now rewrite !loop_body_ignores_bias.
    split; [exact H | now rewrite H].
  - intros Hon r Hr.
    destruct (pass_publishes cfg e s Hr) as (_ & Hg & _).
    rewrite Hg. unfold gyros_record, apply_gyro_bias. now rewrite Hon.
Qed.

Lemma gyro_bias_feedback_witness :
  (let s := Bench.calibrated false false false in
   bias_correct_gyro s = false /\
   gyros_published
     (snd (loop_body Boards.bma180_mpu6000
             (with_gyros_bias Bench.pass_ok (V3 (Bench.f32 5) (Bench.f32 6) (Bench.f32 7))) s))
   = gyros_published
       (snd (loop_body Boards.bma180_mpu6000
               (with_gyros_bias Bench.pass_ok (V3 (Bench.f32 0) (Bench.f32 0) (Bench.f32 0))) s)))
  /\ (let s := Bench.calibrated true false false in
      bias_correct_gyro s = true /\
      map (fun d => V3 (m_x d) (m_y d) (m_z d))
          (gyros_published (snd (loop_body Boards.bma180_mpu6000 Bench.pass_ok s)))
      = [V3 (Bench.f32 7) (Bench.f32 10) (Bench.f32 13)]).
Proof.
  cbv zeta. split; (split; [reflexivity |]).
  - exact (proj2 (proj1 (@gyro_bias_feedback binary32 _ _ Boards.bma180_mpu6000 Bench.pass_ok
                           (Bench.calibrated false false false)) eq_refl
                        (V3 (Bench.f32 5) (Bench.f32 6) (Bench.f32 7))
                        (V3 (Bench.f32 0) (Bench.f32 0) (Bench.f32 0)))).
  - rewrite (proj2 (@gyro_bias_feedback binary32 _ _ Boards.bma180_mpu6000 Bench.pass_ok
                      (Bench.calibrated true false false)) eq_refl
                   Bench.pass_ok_readings eq_refl).
    vm_compute. reflexivity.
Defined.

(** ** The debug message *)

Lemma message_header_bytes (last : Z) :
  message_header last = [255; (last / 256) mod 256; last mod 256].
Proof.
  unfold message_header.
  assert (Hhi : Z.shiftr (Z.land last 65280) 8 = (last / 256) mod 256).
  { rewrite Z.shiftr_land. change (Z.shiftr 65280 8) with (Z.ones 8).
    rewrite Z.land_ones by lia. rewrite Z.shiftr_div_pow2 by lia. reflexivity. }
  assert (Hlo : Z.land last 255 = last mod 256).
  { change 255 with (Z.ones 8). now rewrite Z.land_ones by lia. }
  now rewrite Hhi, Hlo.
Qed.

(** The two timestamp bytes are the low 16 bits of the tick count, high
    byte first. *)
Lemma timestamp_bytes (last : Z) :
  ((last / 256) mod 256) * 256 + last mod 256 = last mod 65536.
Proof.
  change 65536 with (256 * 256).
  rewrite (Z.rem_mul_r last 256 256) by lia. ring.
Qed.

Lemma buffer_holds_bound (m : list Z * Z) (content : list Z) :
  buffer_holds m content -> sizeof content <= 200.
Proof.
  intros (Hlen & _ & Hfirst). unfold sizeof.
  apply (f_equal (@length Z)) in Hfirst. rewrite length_firstn in Hfirst. lia.
Qed.

Lemma append_block_holds (m : list Z * Z) (content src : list Z) :
  buffer_holds m content ->
  sizeof content + sizeof src <= 200 ->
  buffer_holds (append_block m src) (content ++ src).
Proof.
  intros (Hlen & Hsize & Hfirst) Hfit. unfold sizeof in *.
  unfold append_block, memcpy, buffer_holds. cbn [fst snd].
  rewrite Hsize, Nat2Z.id.
  repeat split.
  - rewrite !length_app, length_firstn, length_skipn. lia.
  - unfold sizeof. rewrite length_app, Nat2Z.inj_add.
    apply u32_small. change (2 ^ 32) with 4294967296. lia.
  - rewrite Hfirst. rewrite app_assoc.
    rewrite firstn_app, firstn_all.
    replace (length (content ++ src) - length (content ++ src))%nat with 0%nat by lia.
    now rewrite firstn_O, app_nil_r.
Qed.

Lemma append_tagged_holds (m : list Z * Z) (content : list Z) (tag : Z) (src : list Z) :
  buffer_holds m content ->
  sizeof content + 1 + sizeof src <= 200 ->
  buffer_holds (append_tagged m tag src) (content ++ tag :: src).
Proof.
  intros Hm Hfit. unfold append_tagged.
  change (content ++ tag :: src) with (content ++ [tag] ++ src).
  rewrite app_assoc.
  assert (H1 : buffer_holds (append_block m [tag]) (content ++ [tag])).
  { apply append_block_holds; [exact Hm |]. unfold sizeof in *. cbn [length]. lia. }
  apply (append_block_holds (m := append_block m [tag])); [exact H1 |].
  unfold sizeof in *. rewrite length_app. cbn [length]. lia.
Qed.

Lemma append_option_holds (m : list Z * Z) (content : list Z) (tag : Z)
  (payload : option (list Z)) :
  buffer_holds m content ->
  sizeof (content ++ tagged_block tag payload) <= 200 ->
  buffer_holds (match payload with
                | Some p => append_tagged m tag p
                | None => m
                end) (content ++ tagged_block tag payload).
Proof.
  intros Hm Hfit. destruct payload as [p |]; cbn [tagged_block] in *.
  - apply append_tagged_holds; [exact Hm |].
    unfold sizeof in *. rewrite length_app in Hfit. cbn [length] in Hfit. lia.
  - now rewrite app_nil_r.
Qed.

Lemma sizeof_app_le (a b : list Z) (n : Z) : sizeof (a ++ b) <= n -> sizeof a <= n.
Proof. unfold sizeof. rewrite length_app. lia. Qed.

Section Telemetry.

Context {F : Type} {ops : FloatOps F} {wire : FloatWire F}.

Lemma telemetry_frame (cfg : config) (e : cycle_env F) (s : state F)
  (a : AccelsData F) (g : GyrosData F) (mag : option (MagnetometerData F)) :
  pios_com_aux_id cfg <> 0 ->
  let frame := wire_frame (lastSysTime s) a g mag
                 (if gps_updated s then Some (gps_record e) else None)
                 (if baro_updated s then Some (baro_record e) else None) in
  sizeof frame <= 200 ->
  telemetry cfg e s a g mag
  = (with_updated s false false,
     [PIOS_COM_SendBufferNonBlocking (pios_com_aux_id cfg) frame]).
Proof.
  intros Hport frame Hfit. unfold telemetry.
  destruct (Z.eqb_spec (pios_com_aux_id cfg) 0) as [E | _]; [contradiction |].
  set (hdr := message_header (lastSysTime s)).
  set (acc := xyz_bytes (m_x a) (m_y a) (m_z a)).
  set (gyr := measurement_bytes g).
  set (tm := tagged_block 1 (option_map vec3_bytes mag)).
  set (tg := tagged_block 2 (if gps_updated s then Some (gps_record e) else None)).
  set (tb := tagged_block 3 (if baro_updated s then Some (baro_record e) else None)).
  assert (Hframe : frame = ((((hdr ++ acc) ++ gyr) ++ tm) ++ tg) ++ tb).
  { subst frame hdr acc gyr tm tg tb. unfold wire_frame.
    unfold measurement_bytes, vec3_bytes, xyz_bytes.
    rewrite <- message_header_bytes. rewrite <- !app_assoc. reflexivity. }
  rewrite Hframe in Hfit.
  pose proof (sizeof_app_le _ _ Hfit) as Hfit4.
  pose proof (sizeof_app_le _ _ Hfit4) as Hfit3.
  pose proof (sizeof_app_le _ _ Hfit3) as Hfit2.
  pose proof (sizeof_app_le _ _ Hfit2) as Hfit1.
  assert (H0 : buffer_holds (hdr ++ repeat 0 197, 3) hdr).
  { repeat split. }
  assert (H1 : buffer_holds (append_block (hdr ++ repeat 0 197, 3) acc) (hdr ++ acc)).
  { apply append_block_holds; [exact H0 |].
    unfold sizeof in *. rewrite length_app in Hfit1. lia. }
  set (m1 := append_block (hdr ++ repeat 0 197, 3) acc) in *.
  assert (H2 : buffer_holds (append_block m1 gyr) ((hdr ++ acc) ++ gyr)).
  { apply append_block_holds; [exact H1 |].
    unfold sizeof in *. rewrite length_app in Hfit2. lia. }
  set (m2 := append_block m1 gyr) in *.
  assert (H3 : buffer_holds (match mag with
                             | Some d => append_tagged m2 1 (vec3_bytes d)
                             | None => m2
                             end) (((hdr ++ acc) ++ gyr) ++ tm)).
  { pose proof (@append_option_holds m2 ((hdr ++ acc) ++ gyr) 1
                  (option_map vec3_bytes mag) H2 Hfit3) as H.
    destruct mag; exact H. }
  set (m3 := match mag with Some d => append_tagged m2 1 (vec3_bytes d) | None => m2 end) in *.
  assert (H4 : buffer_holds (if gps_updated s then append_tagged m3 2 (gps_record e) else m3)
                 ((((hdr ++ acc) ++ gyr) ++ tm) ++ tg)).
  { pose proof (@append_option_holds m3 (((hdr ++ acc) ++ gyr) ++ tm) 2
                  (if gps_updated s then Some (gps_record e) else None) H3 Hfit4) as H.
    destruct (gps_updated s); exact H. }
  set (m4 := if gps_updated s then append_tagged m3 2 (gps_record e) else m3) in *.
  assert (H5 : buffer_holds (if baro_updated s then append_tagged m4 3 (baro_record e) else m4)
                 (((((hdr ++ acc) ++ gyr) ++ tm) ++ tg) ++ tb)).
  { pose proof (@append_option_holds m4 ((((hdr ++ acc) ++ gyr) ++ tm) ++ tg) 3
                  (if baro_updated s then Some (baro_record e) else None) H4 Hfit) as H.
    destruct (baro_updated s); exact H. }
  set (m5 := if baro_updated s then append_tagged m4 3 (baro_record e) else m4) in *.
  destruct H5 as (_ & Hsize & Hfirst).
  rewrite Hsize. unfold sizeof. rewrite Nat2Z.id, Hfirst, <- Hframe.
  f_equal. now destruct (gps_updated s), (baro_updated s).
Qed.

(** The message of a pass that is not abandoned, on a board with a debug port. *)
Lemma pass_frame (cfg : config) (e : cycle_env F) (s : state F) (r : readings) :
  pios_com_aux_id cfg <> 0 ->
  readings_of cfg e s = Some r ->
  sizeof (frame_of cfg e s r) <= 200 ->
  frames_sent (snd (loop_body cfg e s)) = [frame_of cfg e s r] /\
  gps_updated (fst (loop_body cfg e s)) = false /\
  baro_updated (fst (loop_body cfg e s)) = false.
Proof.
  intros Hport Hr Hfit.
  rewrite (loop_body_processed _ _ _ Hr). cbn [fst snd].
  rewrite process_events. cbv zeta. cbn [fst snd].
  destruct (top_of_loop_keeps cfg e s) as (_ & Hgps & Hbaro & _).
  destruct (top_of_loop_events cfg e s) as (_ & _ & _ & Tf).
  set (s0 := fst (top_of_loop cfg e s)) in *.
  assert (Hsame : frame_of cfg e s r
                  = wire_frame (lastSysTime s0)
                      (fst (publish_accels e (accels_record cfg e s0 r)))
                      (gyros_record cfg e s0 r)
                      (option_map (mag_record s0) (mag_sample e))
                      (if gps_updated s0 then Some (gps_record e) else None)
                      (if baro_updated s0 then Some (baro_record e) else None)).
  { unfold frame_of. subst s0.
    rewrite Hgps, Hbaro, accels_record_top, gyros_record_top.
    destruct (mag_sample e) as [v |]; cbn [option_map];
      rewrite ?mag_record_top; reflexivity. }
  rewrite Hsame in Hfit.
  rewrite (@telemetry_frame cfg e s0 _ _ _ Hport Hfit). cbn [fst snd].
  destruct (end_of_loop_events cfg (with_updated s0 false false))
    as (_ & _ & _ & Ef & _ & _ & _ & _ & Eg & Eb).
  rewrite Eg, Eb. cbn [gps_updated baro_updated with_updated].
  split; [| auto].
  unfold frames_sent in *. rewrite !flat_map_app, Tf, Ef.
  rewrite Hsame.
  destruct (option_map (mag_record s0) (mag_sample e)); reflexivity.
Qed.

End Telemetry.

(** C6.  On a board with a debug port, a pass that is not abandoned sends
    one message: 0xFF, the high and the low byte of the tick count, the
    three floats of the published accelerometer record, the four floats of the
    published gyro record, and then the blocks tagged 0x01 (magnetometer),
    0x02 (GPS) and 0x03 (altitude), in that order, each only when its
    update is there.  With no update the message is the header and the two
    fixed blocks, 31 bytes. *)
Theorem telemetry_framing :
  forall (F : Type) (ops : FloatOps F) (wire : FloatWire F)
         (cfg : config) (e : cycle_env F) (s : state F) (r : readings),
    pios_com_aux_id cfg <> 0 ->
    readings_of cfg e s = Some r ->
    sizeof (frame_of cfg e s r) <= 200 ->
    let ts := lastSysTime (fst (top_of_loop cfg e s)) in
    let evs := snd (loop_body cfg e s) in
    exists a g,
      accels_published evs = [a] /\
      gyros_published evs = [g] /\
      frames_sent evs
      = [wire_frame ts a g (option_map (mag_record s) (mag_sample e))
           (if gps_updated s then Some (gps_record e) else None)
           (if baro_updated s then Some (baro_record e) else None)] /\
      ((ts / 256) mod 256) * 256 + ts mod 256 = ts mod 65536 /\
      (mag_sample e = None -> gps_updated s = false -> baro_updated s = false ->
       exists frame,
         frames_sent evs = [frame] /\
         frame = [255; (ts / 256) mod 256; ts mod 256]
                 ++ (float_bytes (m_x a) ++ float_bytes (m_y a) ++ float_bytes (m_z a))
                 ++ (float_bytes (m_x g) ++ float_bytes (m_y g) ++ float_bytes (m_z g))
                 ++ float_bytes (m_temperature g) /\
         length frame = 31%nat).
Proof.
  intros F ops wire cfg e s r Hport Hr Hfit ts evs.
  destruct (pass_publishes cfg e s Hr) as (Ha & Hg & _).
  destruct (@pass_frame F ops wire cfg e s r Hport Hr Hfit) as (Hf & _).
  exists (accels_record cfg e s r), (gyros_record cfg e s r).
  split; [exact Ha |]. split; [exact Hg |]. split; [exact Hf |].
  split; [apply timestamp_bytes |].
  intros Hmag Hgps Hbaro. eexists. split; [exact Hf |].
  unfold frame_of, wire_frame. rewrite Hmag, Hgps, Hbaro.
  cbn [option_map tagged_block]. rewrite !app_nil_r.
  split.
  - fold ts. now rewrite <- !app_assoc.
  - cbn [length app]. rewrite !length_app, !float_bytes_length. reflexivity.
Qed.

Lemma telemetry_framing_witness :
  let cfg := Boards.bma180_mpu6000 in
  let e := Bench.pass_ok in
  let s := Bench.calibrated true false false in
  let evs := snd (loop_body cfg e s) in
  pios_com_aux_id cfg <> 0 /\
  readings_of cfg e s = Some Bench.pass_ok_readings /\
  sizeof (frame_of cfg e s Bench.pass_ok_readings) <= 200 /\
  exists a g,
    accels_published evs = [a] /\
    gyros_published evs = [g] /\
    frames_sent evs = [wire_frame 0 a g None None None] /\
    length (wire_frame 0 a g None None None) = 31%nat.
Proof.
  cbv zeta. split; [discriminate |]. split; [reflexivity |].
  split; [vm_compute; discriminate |].
  destruct (@telemetry_framing binary32 _ _ Boards.bma180_mpu6000 Bench.pass_ok
              (Bench.calibrated true false false)
              Bench.pass_ok_readings)
    as (a & g & Ha & Hg & Hf & _ & Hquiet).
  - discriminate.
  - reflexivity.
  - vm_compute. discriminate.
  - exists a, g. split; [exact Ha |]. split; [exact Hg |]. split; [exact Hf |].
    destruct (Hquiet eq_refl eq_refl eq_refl) as (frame & Hframe & _ & Hlen).
    rewrite Hf in Hframe. injection Hframe as <-. exact Hlen.
Defined.

(** ** Start-up and the idle loop *)

Section Startup.

Context {F : Type} {ops : FloatOps F} {wire : FloatWire F}.

(** The test of line 175 fails exactly when one of the self tests that
    the configuration runs returned a negative value. *)
Lemma self_test_gate (cfg : config) (b : startup_env (F:=F)) :
  (let '(accel_test, gyro_test, mag_test) := self_tests cfg b in
   (accel_test <? 0) || (gyro_test <? 0) || (mag_test <? 0))
  = existsb (fun r => r <? 0) (attached_self_tests cfg b).
Proof.
  unfold self_tests, attached_self_tests.
  destruct (PIOS_INCLUDE_MPU6000 cfg), (PIOS_INCLUDE_L3GD20 cfg),
    (PIOS_INCLUDE_BMA180 cfg); cbn;
    destruct (PIOS_MPU6000_Test b <? 0), (PIOS_L3GD20_Test b <? 0),
      (PIOS_BMA180_Test b <? 0), (PIOS_HMC5883_Test b <? 0); reflexivity.
Qed.

Lemma failed_self_test (cfg : config) (b : startup_env (F:=F)) (s : state F) :
  Exists (fun r => r < 0) (attached_self_tests cfg b) ->
  SensorsTask_start cfg b s
  = (Halted (settingsUpdatedCb (revo_calibration b) s),
     [AlarmsClear; AlarmsSet SYSTEMALARMS_ALARM_CRITICAL]).
Proof.
  intros Hfault. unfold SensorsTask_start.
  pose proof (self_test_gate cfg b) as Hgate.
  destruct (self_tests cfg b) as [[a g] m].
  rewrite Hgate.
  replace (existsb (fun r => r <? 0) (attached_self_tests cfg b)) with true;
    [reflexivity |].
  symmetry. apply existsb_exists. apply Exists_exists in Hfault.
  destruct Hfault as (r & Hin & Hneg). exists r. split; [exact Hin |].
  now apply Z.ltb_lt.
Qed.

Lemma passed_self_test (cfg : config) (b : startup_env (F:=F)) (s : state F) :
  Forall (fun r => 0 <= r) (attached_self_tests cfg b) ->
  exists s', fst (SensorsTask_start cfg b s) = Running s' /\
             error s' = false /\ lastSysTime s' = start_tick b.
Proof.
  intros Hgood. unfold SensorsTask_start.
  pose proof (self_test_gate cfg b) as Hgate.
  destruct (self_tests cfg b) as [[a g] m].
  rewrite Hgate.
  replace (existsb (fun r => r <? 0) (attached_self_tests cfg b)) with false.
  - eexists. cbn [fst]. split; [reflexivity |]. split; reflexivity.
  - symmetry. apply not_true_is_false. intros H.
    apply existsb_exists in H. destruct H as (r & Hin & Hneg).
    rewrite Forall_forall in Hgood. specialize (Hgood r Hin).
    apply Z.ltb_lt in Hneg. lia.
Qed.

Lemma alarm_after_app (a : severity) (ev1 ev2 : list (event F)) :
  alarm_after a (ev1 ++ ev2) = alarm_after (alarm_after a ev1) ev2.
Proof. unfold alarm_after. apply fold_left_app. Qed.

Lemma alarm_clears_app (ev1 ev2 : list (event F)) :
  alarm_clears (ev1 ++ ev2) = (alarm_clears ev1 + alarm_clears ev2)%nat.
Proof. unfold alarm_clears. now rewrite filter_app, length_app. Qed.

Lemma watchdog_kicks_app (ev1 ev2 : list (event F)) :
  watchdog_kicks (ev1 ++ ev2) = (watchdog_kicks ev1 + watchdog_kicks ev2)%nat.
Proof. unfold watchdog_kicks. now rewrite filter_app, length_app. Qed.

(** Once in the idle loop, always in the idle loop, feeding the watchdog
    and doing nothing else. *)
Lemma halted_run (cfg : config) (inputs : list (input (F:=F))) :
  forall h : state F,
    (exists h', fst (run cfg (Halted h) inputs) = Halted h') /\
    let evs := snd (run cfg (Halted h) inputs) in
    accels_published evs = [] /\ gyros_published evs = [] /\
    mags_published evs = [] /\ frames_sent evs = [] /\
    alarm_clears evs = 0%nat /\ alarms_raised evs = [] /\
    (forall a, alarm_after a evs = a) /\
    watchdog_kicks evs = passes inputs.
Proof.
  induction inputs as [| i rest IH]; intros h.
  - cbn. split; [now exists h |]. auto 10.
  - cbn [run].
    assert (Hstep : exists h1 ev1,
               step cfg (Halted h) i = (Halted h1, ev1) /\
               (ev1 = [] /\ passes (i :: rest) = passes rest \/
                ev1 = [PIOS_WDG_UpdateFlag; vTaskDelay 10] /\
                passes (i :: rest) = S (passes rest))).
    { destruct i; cbn; eauto 8. }
    destruct Hstep as (h1 & ev1 & -> & Hev).
    destruct (IH h1) as ((h2 & Hh2) & Ha & Hg & Hm & Hf & Hc & Hr & Hal & Hw).
    destruct (run cfg (Halted h1) rest) as [t2 ev2]. cbn [fst snd] in *.
    split; [now exists h2 |].
    unfold accels_published, gyros_published, mags_published, frames_sent,
      alarms_raised in *.
    rewrite !flat_map_app, alarm_clears_app, watchdog_kicks_app, Ha, Hg, Hm, Hf, Hc, Hr, Hw.
    destruct Hev as [[-> ->] | [-> ->]]; cbn; repeat split; auto;
      intros a; rewrite alarm_after_app; apply Hal.
Qed.

End Startup.

(** C8.  When a self test of an attached sensor returns a negative value,
    the task raises the critical alarm before the main loop and stays in
    the idle loop whatever happens next: it feeds the watchdog once per
    pass, publishes nothing, sends nothing, and never touches the alarm
    again. *)
Theorem failed_self_test_halts :
  forall (F : Type) (ops : FloatOps F) (wire : FloatWire F)
         (cfg : config) (b : startup_env (F:=F)) (s : state F) (inputs : list (input (F:=F))),
    Exists (fun r => r < 0) (attached_self_tests cfg b) ->
    exists h,
      SensorsTask_start cfg b s
      = (Halted h, [AlarmsClear; AlarmsSet SYSTEMALARMS_ALARM_CRITICAL]) /\
      alarm_after SYSTEMALARMS_ALARM_OK (snd (SensorsTask_start cfg b s))
      = SYSTEMALARMS_ALARM_CRITICAL /\
      (exists h', fst (run cfg (Halted h) inputs) = Halted h') /\
      let evs := snd (run cfg (Halted h) inputs) in
      accels_published evs = [] /\ gyros_published evs = [] /\
      mags_published evs = [] /\ frames_sent evs = [] /\
      alarm_clears evs = 0%nat /\
      alarm_after SYSTEMALARMS_ALARM_CRITICAL evs = SYSTEMALARMS_ALARM_CRITICAL /\
      watchdog_kicks evs = passes inputs.
Proof.
  intros F ops wire cfg b s inputs Hfault.
  exists (settingsUpdatedCb (revo_calibration b) s).
  rewrite failed_self_test by exact Hfault.
  split; [reflexivity |]. split; [reflexivity |].
  destruct (halted_run cfg inputs (settingsUpdatedCb (revo_calibration b) s))
    as (Hh & Ha & Hg & Hm & Hf & Hc & _ & Hal & Hw).
  split; [exact Hh |]. cbv zeta. auto 10.
Qed.

Lemma failed_self_test_halts_witness :
  let cfg := Boards.bma180_mpu6000 in
  let inputs := [Pass Bench.pass_ok; SensorsUpdated GPSPositionHandle; Pass Bench.pass_ok] in
  Exists (fun r => r < 0) (attached_self_tests cfg Bench.startup_faulty) /\
  exists h,
    SensorsTask_start cfg Bench.startup_faulty initial_state
    = (Halted h, [AlarmsClear; AlarmsSet SYSTEMALARMS_ALARM_CRITICAL]) /\
    accels_published (snd (run cfg (Halted h) inputs)) = [] /\
    watchdog_kicks (snd (run cfg (Halted h) inputs)) = 2%nat.
Proof.
  cbv zeta.
  assert (Hfault : Exists (fun r => r < 0)
                     (attached_self_tests Boards.bma180_mpu6000 Bench.startup_faulty)).
  { apply Exists_cons_tl, Exists_cons_hd. reflexivity. }
  split; [exact Hfault |].
  destruct (@failed_self_test_halts binary32 _ _ Boards.bma180_mpu6000
              Bench.startup_faulty initial_state
              [Pass Bench.pass_ok; SensorsUpdated GPSPositionHandle; Pass Bench.pass_ok]
              Hfault)
    as (h & Hstart & _ & _ & Ha & _ & _ & _ & _ & _ & Hw).
  exists h. split; [exact Hstart |]. split; [exact Ha | exact Hw].
Defined.

(** ** Time-outs and the alarm *)

Section Recovery.

Context {F : Type} {ops : FloatOps F} {wire : FloatWire F}.

(** After the top of the loop a pass leaves the alarm alone, and it ends
    with [error] set exactly when it was abandoned. *)
Lemma loop_body_events (cfg : config) (e : cycle_env F) (s : state F) :
  exists rest,
    snd (loop_body cfg e s) = snd (top_of_loop cfg e s) ++ rest /\
    alarms_raised rest = [] /\ alarm_clears rest = 0%nat /\
    (forall a, alarm_after a rest = a) /\
    error (fst (loop_body cfg e s)) = abandoned cfg e s.
Proof.
  destruct (abandoned cfg e s) eqn:Hab.
  - destruct (loop_body_abandoned cfg e s Hab) as (out & Hout & ->).
    exists out. cbn [fst snd]. split; [reflexivity |].
    destruct Hout as [-> | ->]; cbn; auto.
  - apply readings_of_abandoned in Hab. destruct Hab as (r & Hr).
    rewrite (loop_body_processed _ _ _ Hr). cbn [fst snd].
    eexists. split; [reflexivity |].
    rewrite process_events. cbv zeta. cbn [fst snd].
    set (s0 := fst (top_of_loop cfg e s)).
    set (tele := telemetry cfg e s0 _ _ _).
    destruct (end_of_loop_events cfg (fst tele))
      as (_ & _ & _ & _ & Er & Ec & Ea & Ee & _).
    destruct (top_of_loop_keeps cfg e s) as (He0 & _).
    assert (Htele : alarms_raised (snd tele) = [] /\ alarm_clears (snd tele) = 0%nat
                    /\ (forall a, alarm_after a (snd tele) = a)
                    /\ error (fst tele) = false).
    { subst tele.
      destruct (telemetry_events cfg e s0
                  (fst (publish_accels e (accels_record cfg e s0 r)))
                  (gyros_record cfg e s0 r)
                  (option_map (mag_record s0) (mag_sample e)))
        as [[_ ->] | [_ (m & -> & ->)]]; cbn; auto. }
    destruct Htele as (Tr & Tc & Ta & Te).
    rewrite Ee, Te.
    unfold alarms_raised in *.
    rewrite !flat_map_app, !alarm_clears_app, Er, Ec, Tr, Tc.
    unfold alarm_after in *.
    destruct (option_map (mag_record s0) (mag_sample e)); cbn;
      repeat split; auto; intros a; rewrite fold_left_app, Ta, Ea; reflexivity.
Qed.

(** An abandoned pass publishes nothing, sends nothing and keeps the
    update flags. *)
Lemma abandoned_pass (cfg : config) (e : cycle_env F) (s : state F) :
  abandoned cfg e s = true ->
  let evs := snd (loop_body cfg e s) in
  accels_published evs = [] /\ gyros_published evs = [] /\
  mags_published evs = [] /\ frames_sent evs = [] /\
  gps_updated (fst (loop_body cfg e s)) = gps_updated s /\
  baro_updated (fst (loop_body cfg e s)) = baro_updated s.
Proof.
  intros Hab. destruct (loop_body_abandoned cfg e s Hab) as (out & Hout & ->).
  cbn [fst snd].
  destruct (top_of_loop_events cfg e s) as (Ta & Tg & Tm & Tf).
  destruct (top_of_loop_keeps cfg e s) as (_ & Hgps & Hbaro & _).
  unfold accels_published, gyros_published, mags_published, frames_sent in *.
  rewrite !flat_map_app, Ta, Tg, Tm, Tf.
  destruct Hout as [-> | ->]; cbn; auto 10.
Qed.

(** A pass that starts with [error] set raises the alarm once, first
    thing after the watchdog and the delay, and does not clear it. *)
Lemma recovery_pass (cfg : config) (e : cycle_env F) (s : state F) :
  error s = true ->
  let evs := snd (loop_body cfg e s) in
  (exists rest,
      evs = [PIOS_WDG_UpdateFlag;
             vTaskDelayUntil (u32 (recovery_tick e + period_ticks cfg));
             AlarmsSet SYSTEMALARMS_ALARM_CRITICAL] ++ rest /\
      alarms_raised rest = [] /\ alarm_clears rest = 0%nat) /\
  alarms_raised evs = [SYSTEMALARMS_ALARM_CRITICAL] /\
  alarm_clears evs = 0%nat /\
  (forall a, alarm_after a evs = SYSTEMALARMS_ALARM_CRITICAL).
Proof.
  intros Herr. destruct (loop_body_events cfg e s) as (rest & -> & Hr & Hc & Ha & _).
  unfold top_of_loop. rewrite Herr. cbn [snd].
  split; [exists rest; auto |].
  unfold alarms_raised in *. rewrite flat_map_app, alarm_clears_app, Hr, Hc.
  repeat split. intros a. rewrite alarm_after_app. apply Ha.
Qed.

(** A pass that starts with [error] clear clears the alarm first thing and
    does not raise it. *)
Lemma normal_pass (cfg : config) (e : cycle_env F) (s : state F) :
  error s = false ->
  let evs := snd (loop_body cfg e s) in
  (exists rest, evs = AlarmsClear :: rest) /\
  alarms_raised evs = [] /\
  (forall a, alarm_after a evs = SYSTEMALARMS_ALARM_OK).
Proof.
  intros Herr. destruct (loop_body_events cfg e s) as (rest & -> & Hr & Hc & Ha & _).
  unfold top_of_loop. rewrite Herr. cbn [snd].
  split; [now exists rest |].
  unfold alarms_raised in *. rewrite flat_map_app, Hr.
  split; [reflexivity |]. intros a. rewrite alarm_after_app. apply Ha.
Qed.

End Recovery.

(** C2, as the code has it.  A pass in which a read runs out of time
    publishes nothing and sends nothing, and does not itself raise the alarm
    unless it started as a recovery.  The pass after it raises the alarm to
    critical exactly once, first thing after feeding the watchdog and waiting
    out the period, and does not clear it.  When the reads of that pass
    succeed it publishes one accelerometer and one gyro record while the
    alarm is still critical, and the pass after that one clears the alarm
    first thing. *)
Theorem timeout_recovery :
  forall (F : Type) (ops : FloatOps F) (wire : FloatWire F)
         (cfg : config) (e1 e2 e3 : cycle_env F) (s : state F),
    abandoned cfg e1 s = true ->
    let s1 := fst (loop_body cfg e1 s) in
    let evs1 := snd (loop_body cfg e1 s) in
    let s2 := fst (loop_body cfg e2 s1) in
    let evs2 := snd (loop_body cfg e2 s1) in
    let evs3 := snd (loop_body cfg e3 s2) in
    (accels_published evs1 = [] /\ gyros_published evs1 = [] /\
     mags_published evs1 = [] /\ frames_sent evs1 = [] /\
     (error s = false -> alarms_raised evs1 = [])) /\
    ((exists rest,
         evs2 = [PIOS_WDG_UpdateFlag;
                 vTaskDelayUntil (u32 (recovery_tick e2 + period_ticks cfg));
                 AlarmsSet SYSTEMALARMS_ALARM_CRITICAL] ++ rest /\
         alarms_raised rest = [] /\ alarm_clears rest = 0%nat) /\
     alarms_raised evs2 = [SYSTEMALARMS_ALARM_CRITICAL] /\
     alarm_clears evs2 = 0%nat /\
     (forall a, alarm_after a evs2 = SYSTEMALARMS_ALARM_CRITICAL)) /\
    (abandoned cfg e2 s1 = false ->
     length (accels_published evs2) = 1%nat /\
     length (gyros_published evs2) = 1%nat /\
     (exists rest, evs3 = AlarmsClear :: rest) /\
     alarms_raised evs3 = [] /\
     (forall a, alarm_after a evs3 = SYSTEMALARMS_ALARM_OK)).
Proof.
  intros F ops wire cfg e1 e2 e3 s Hab s1 evs1 s2 evs2 evs3.
  destruct (abandoned_pass cfg e1 s Hab) as (Ha & Hg & Hm & Hf & _).
  assert (Herr1 : error s1 = true).
  { subst s1. destruct (loop_body_events cfg e1 s) as (rest & _ & _ & _ & _ & ->).
    exact Hab. }
  split; [| split].
  - repeat split; auto. intros Hs. now apply normal_pass.
  - exact (recovery_pass cfg e2 s1 Herr1).
  - intros Hok.
    assert (Herr2 : error s2 = false).
    { subst s2. destruct (loop_body_events cfg e2 s1) as (rest & _ & _ & _ & _ & ->).
      exact Hok. }
    apply readings_of_abandoned in Hok. destruct Hok as (r & Hr).
    destruct (pass_publishes cfg e2 s1 Hr) as (Pa & Pg & _).
    subst evs2. rewrite Pa, Pg.
    split; [reflexivity |]. split; [reflexivity |].
    exact (normal_pass cfg e3 s2 Herr2).
Qed.

Lemma timeout_recovery_witness :
  let cfg := Boards.bma180_mpu6000 in
  let s := Bench.calibrated true false false in
  let s1 := fst (loop_body cfg Bench.pass_timeout s) in
  abandoned cfg Bench.pass_timeout s = true /\
  abandoned cfg Bench.pass_ok s1 = false /\
  accels_published (snd (loop_body cfg Bench.pass_timeout s)) = [] /\
  alarms_raised (snd (loop_body cfg Bench.pass_ok s1)) = [SYSTEMALARMS_ALARM_CRITICAL] /\
  length (gyros_published (snd (loop_body cfg Bench.pass_ok s1))) = 1%nat.
Proof.
  cbv zeta.
  destruct (@timeout_recovery binary32 _ _ Boards.bma180_mpu6000
              Bench.pass_timeout Bench.pass_ok Bench.pass_ok
              (Bench.calibrated true false false) eq_refl)
    as ((Ha & _) & (_ & Hr & _) & Hnext).
  destruct (Hnext eq_refl) as (_ & Hg & _).
  repeat split; assumption.
Defined.

(** C2, as the specification words it, fails: on the BMA180 + MPU6000 board a pass
    times out (without the alarm being raised in it), and the next pass,
    whose reads succeed, publishes again but leaves the alarm critical
    instead of clearing it. *)
Lemma timeout_recovery_counterexample :
  let cfg := Boards.bma180_mpu6000 in
  let s := Bench.calibrated true false false in
  let s1 := fst (loop_body cfg Bench.pass_timeout s) in
  let evs1 := snd (loop_body cfg Bench.pass_timeout s) in
  let evs2 := snd (loop_body cfg Bench.pass_ok s1) in
  abandoned cfg Bench.pass_timeout s = true /\
  alarm_after SYSTEMALARMS_ALARM_OK evs1 = SYSTEMALARMS_ALARM_OK /\
  abandoned cfg Bench.pass_ok s1 = false /\
  length (accels_published evs2) = 1%nat /\
  length (gyros_published evs2) = 1%nat /\
  alarm_clears evs2 = 0%nat /\
  alarm_after SYSTEMALARMS_ALARM_OK evs2 = SYSTEMALARMS_ALARM_CRITICAL.
Proof. cbv zeta. repeat split; vm_compute; reflexivity. Qed.

(** ** The update flags *)

Section Flags.

Context {F : Type} {ops : FloatOps F} {wire : FloatWire F}.

Lemma run_app (cfg : config) (l1 l2 : list (input (F:=F))) :
  forall t,
    run cfg t (l1 ++ l2)
    = (fst (run cfg (fst (run cfg t l1)) l2),
       snd (run cfg t l1) ++ snd (run cfg (fst (run cfg t l1)) l2)).
Proof.
  induction l1 as [| i l1 IH]; intros t; cbn [app run].
  - cbn. now destruct (run cfg t l2).
  - destruct (step cfg t i) as [t1 ev1]. rewrite IH.
    destruct (run cfg t1 l1) as [t2 ev2]. cbn [fst snd].
    now rewrite app_assoc.
Qed.

Lemma all_abandoned_app (cfg : config) (l1 l2 : list (input (F:=F))) :
  forall t,
    all_abandoned cfg t (l1 ++ l2)
    = all_abandoned cfg t l1 && all_abandoned cfg (fst (run cfg t l1)) l2.
Proof.
  induction l1 as [| i l1 IH]; intros t; cbn [app all_abandoned run].
  - reflexivity.
  - rewrite IH. destruct (step cfg t i) as [t1 ev1]. cbn [fst].
    destruct (run cfg t1 l1) as [t2 ev2]. cbn [fst].
    now rewrite andb_assoc.
Qed.

Lemma sensorsUpdatedCb_flags (obj : handle) (s : state F) :
  (gps_updated s = true \/ obj = GPSPositionHandle ->
   gps_updated (sensorsUpdatedCb obj s) = true) /\
  (baro_updated s = true \/ obj = BaroAltitudeHandle ->
   baro_updated (sensorsUpdatedCb obj s) = true).
Proof.
  unfold sensorsUpdatedCb. destruct obj; cbn; split; intros [H | H];
    auto; discriminate.
Qed.

(** While every pass is abandoned, nothing is published or sent and a flag
    that is set stays set. *)
Lemma quiet_run (cfg : config) (inputs : list (input (F:=F))) :
  forall s,
    all_abandoned cfg (Running s) inputs = true ->
    exists s',
      fst (run cfg (Running s) inputs) = Running s' /\
      (gps_updated s = true -> gps_updated s' = true) /\
      (baro_updated s = true -> baro_updated s' = true) /\
      let evs := snd (run cfg (Running s) inputs) in
      accels_published evs = [] /\ gyros_published evs = [] /\ frames_sent evs = [].
Proof.
  induction inputs as [| i rest IH]; intros s Hall.
  - exists s. cbn. auto 10.
  - cbn [all_abandoned] in Hall. apply andb_prop in Hall. destruct Hall as [Hi Hrest].
    cbn [run].
    assert (Hstep : exists s1 ev1,
               step cfg (Running s) i = (Running s1, ev1) /\
               (gps_updated s = true -> gps_updated s1 = true) /\
               (baro_updated s = true -> baro_updated s1 = true) /\
               accels_published ev1 = [] /\ gyros_published ev1 = [] /\
               frames_sent ev1 = []).
    { destruct i as [e | obj | cal].
      - destruct (abandoned_pass cfg e s Hi) as (Ha & Hg & _ & Hf & Hgps & Hbaro).
        cbn [step]. destruct (loop_body cfg e s) as [s1 ev1]. cbn [fst snd] in *.
        exists s1, ev1. rewrite Hgps, Hbaro. auto 10.
      - cbn [step]. destruct (sensorsUpdatedCb_flags obj s) as (Hg & Hb).
        destruct (pios_com_aux_id cfg =? 0); eexists; eexists;
          (split; [reflexivity | cbn; auto 10]).
      - cbn [step]. eexists; eexists. split; [reflexivity |]. cbn. auto. }
    destruct Hstep as (s1 & ev1 & Hs & Hgps & Hbaro & Ha & Hg & Hf).
    rewrite Hs in *. cbn [fst] in Hrest.
    destruct (IH s1 Hrest) as (s' & Hrun & Hgps' & Hbaro' & Ha' & Hg' & Hf').
    destruct (run cfg (Running s1) rest) as [t2 ev2]. cbn [fst snd] in *.
    exists s'. split; [exact Hrun |].
    unfold accels_published, gyros_published, frames_sent in *.
    rewrite !flat_map_app, Ha, Hg, Hf, Ha', Hg', Hf'. auto 10.
Qed.

(** Without a debug port no pass sends a message or touches the flags. *)
Lemma no_port_pass (cfg : config) (e : cycle_env F) (s : state F) :
  pios_com_aux_id cfg = 0 ->
  gps_updated (fst (loop_body cfg e s)) = gps_updated s /\
  baro_updated (fst (loop_body cfg e s)) = baro_updated s /\
  frames_sent (snd (loop_body cfg e s)) = [].
Proof.
  intros Hport. destruct (abandoned cfg e s) eqn:Hab.
  - destruct (abandoned_pass cfg e s Hab) as (_ & _ & _ & Hf & Hgps & Hbaro). auto.
  - apply readings_of_abandoned in Hab. destruct Hab as (r & Hr).
    rewrite (loop_body_processed _ _ _ Hr). cbn [fst snd].
    rewrite process_events. cbv zeta. cbn [fst snd].
    destruct (top_of_loop_keeps cfg e s) as (_ & Hgps & Hbaro & _).
    destruct (top_of_loop_events cfg e s) as (_ & _ & _ & Tf).
    set (s0 := fst (top_of_loop cfg e s)) in *.
    destruct (telemetry_events cfg e s0
                (fst (publish_accels e (accels_record cfg e s0 r)))
                (gyros_record cfg e s0 r)
                (option_map (mag_record s0) (mag_sample e)))
      as [[_ ->] | [Hne _]]; [| contradiction].
    cbn [fst snd].
    destruct (end_of_loop_events cfg s0) as (_ & _ & _ & Ef & _ & _ & _ & _ & Eg & Eb).
    rewrite Eg, Eb, Hgps, Hbaro. split; [reflexivity |]. split; [reflexivity |].
    unfold frames_sent in *. rewrite !flat_map_app, Tf, Ef.
    now destruct (option_map (mag_record s0) (mag_sample e)).
Qed.

(** A flag that a pass clears was set on a board with a debug port, and
    the pass was not abandoned. *)
Lemma cleared_flag_pass (cfg : config) (e : cycle_env F) (s : state F) :
  (gps_updated s = true /\ gps_updated (fst (loop_body cfg e s)) = false) \/
  (baro_updated s = true /\ baro_updated (fst (loop_body cfg e s)) = false) ->
  pios_com_aux_id cfg <> 0 /\ exists r, readings_of cfg e s = Some r.
Proof.
  intros Hcleared. split.
  - intros Hport. destruct (no_port_pass cfg e s Hport) as (Hgps & Hbaro & _).
    destruct Hcleared as [[H1 H2] | [H1 H2]]; congruence.
  - apply readings_of_abandoned. destruct (abandoned cfg e s) eqn:Hab; [| reflexivity].
    destruct (abandoned_pass cfg e s Hab) as (_ & _ & _ & _ & Hgps & Hbaro).
    destruct Hcleared as [[H1 H2] | [H1 H2]]; congruence.
Qed.

(** The message of a pass carries the record of each flag that was set. *)
Lemma frame_of_blocks (cfg : config) (e : cycle_env F) (s : state F) (r : readings) :
  (gps_updated s = true ->
   exists pre post, frame_of cfg e s r = pre ++ 2 :: gps_record e ++ post) /\
  (baro_updated s = true ->
   exists pre, frame_of cfg e s r = pre ++ 3 :: baro_record e).
Proof.
  unfold frame_of, wire_frame. split; intros Hset; rewrite Hset.
  - eexists. eexists. cbn [tagged_block].
    rewrite 3 app_assoc. reflexivity.
  - eexists. cbn [tagged_block].
    rewrite 4 app_assoc. reflexivity.
Qed.

End Flags.

(** C10.  [gps_updated] and [baro_updated] are cleared only by a pass that
    puts their record into a message: an abandoned pass and a pass on a
    board without debug port leave both flags as they are and send nothing;
    a pass that clears a flag is a pass that was not abandoned, on a board
    with a debug port, and its message carries the record.  So a GPS or
    altitude notification that arrives among abandoned passes is reported
    by the message of the next pass that is not abandoned. *)
Theorem updated_flags_kept_until_sent :
  forall (F : Type) (ops : FloatOps F) (wire : FloatWire F) (cfg : config),
    (forall (e : cycle_env F) (s : state F),
        abandoned cfg e s = true ->
        gps_updated (fst (loop_body cfg e s)) = gps_updated s /\
        baro_updated (fst (loop_body cfg e s)) = baro_updated s /\
        frames_sent (snd (loop_body cfg e s)) = [])
    /\ (forall (e : cycle_env F) (s : state F),
        pios_com_aux_id cfg = 0 ->
        gps_updated (fst (loop_body cfg e s)) = gps_updated s /\
        baro_updated (fst (loop_body cfg e s)) = baro_updated s /\
        frames_sent (snd (loop_body cfg e s)) = [])
    /\ (forall (e : cycle_env F) (s : state F),
        (gps_updated s = true /\ gps_updated (fst (loop_body cfg e s)) = false) \/
        (baro_updated s = true /\ baro_updated (fst (loop_body cfg e s)) = false) ->
        pios_com_aux_id cfg <> 0 /\
        exists r,
          readings_of cfg e s = Some r /\
          (sizeof (frame_of cfg e s r) <= 200 ->
           frames_sent (snd (loop_body cfg e s)) = [frame_of cfg e s r]) /\
          (gps_updated s = true ->
           exists pre post, frame_of cfg e s r = pre ++ 2 :: gps_record e ++ post) /\
          (baro_updated s = true ->
           exists pre, frame_of cfg e s r = pre ++ 3 :: baro_record e))
    /\ (forall (s : state F) (before after : list input) (obj : handle)
               (e : cycle_env F) (r : readings),
        pios_com_aux_id cfg <> 0 ->
        all_abandoned cfg (Running s) (before ++ SensorsUpdated obj :: after) = true ->
        exists s',
          fst (run cfg (Running s) (before ++ SensorsUpdated obj :: after)) = Running s' /\
          frames_sent (snd (run cfg (Running s) (before ++ SensorsUpdated obj :: after))) = [] /\
          (obj = GPSPositionHandle -> gps_updated s' = true) /\
          (obj = BaroAltitudeHandle -> baro_updated s' = true) /\
          (readings_of cfg e s' = Some r ->
           sizeof (frame_of cfg e s' r) <= 200 ->
           frames_sent
             (snd (run cfg (Running s)
                     ((before ++ SensorsUpdated obj :: after) ++ [Pass e])))
           = [frame_of cfg e s' r] /\
           (obj = GPSPositionHandle ->
            exists pre post, frame_of cfg e s' r = pre ++ 2 :: gps_record e ++ post) /\
           (obj = BaroAltitudeHandle ->
            exists pre, frame_of cfg e s' r = pre ++ 3 :: baro_record e))).
Proof.
  intros F ops wire cfg. split; [| split; [| split]].
  - intros e s Hab.
    destruct (abandoned_pass cfg e s Hab) as (_ & _ & _ & Hf & Hgps & Hbaro). auto.
  - intros e s Hport. now apply no_port_pass.
  - intros e s Hcleared.
    destruct (cleared_flag_pass cfg e s Hcleared) as (Hport & r & Hr).
    split; [exact Hport |]. exists r. split; [exact Hr |].
    split; [| exact (frame_of_blocks cfg e s r)].
    intros Hfit. now destruct (@pass_frame F ops wire cfg e s r Hport Hr Hfit).
  - intros s before after obj e r Hport Hall.
    assert (Hall' := Hall).
    rewrite all_abandoned_app in Hall'. apply andb_prop in Hall'.
    destruct Hall' as [Hbefore Hafter].
    destruct (quiet_run cfg before s Hbefore) as (sa & Hsa & _).
    rewrite Hsa in Hafter. cbn [all_abandoned step] in Hafter.
    destruct (Z.eqb_spec (pios_com_aux_id cfg) 0) as [E | _]; [contradiction |].
    cbn [fst andb] in Hafter.
    destruct (quiet_run cfg after (sensorsUpdatedCb obj sa) Hafter)
      as (sb & Hsb & Hgps & Hbaro & _).
    destruct (quiet_run cfg _ s Hall) as (s' & Hs' & _ & _ & _ & _ & Hquiet).
    assert (Hsame : s' = sb).
    { rewrite run_app in Hs'. cbn [fst] in Hs'. rewrite Hsa in Hs'.
      cbn [run step] in Hs'.
      destruct (Z.eqb_spec (pios_com_aux_id cfg) 0) as [E | _]; [contradiction |].
      destruct (run cfg (Running (sensorsUpdatedCb obj sa)) after) as [t2 ev2].
      cbn [fst] in *. congruence. }
    subst sb. exists s'.
    destruct (sensorsUpdatedCb_flags obj sa) as (Cg & Cb).
    split; [exact Hs' |]. split; [exact Hquiet |].
    split; [intros ->; apply Hgps, Cg; now right |].
    split; [intros ->; apply Hbaro, Cb; now right |].
    intros Hr Hfit.
    split.
    + rewrite run_app. cbn [snd]. rewrite Hs'. cbn [run step].
      destruct (@pass_frame F ops wire cfg e s' r Hport Hr Hfit) as (Hf & _).
      destruct (loop_body cfg e s') as [s2 ev2]. cbn [fst snd] in *.
      unfold frames_sent in *. rewrite flat_map_app, Hquiet, app_nil_r. exact Hf.
    + destruct (frame_of_blocks cfg e s' r) as (Bg & Bb).
      split; [intros ->; apply Bg, Hgps, Cg; now right
             | intros ->; apply Bb, Hbaro, Cb; now right].
Qed.

Lemma updated_flags_kept_until_sent_witness :
  let cfg := Boards.bma180_mpu6000 in
  let s := Bench.calibrated true false false in
  let inputs := [Pass Bench.pass_timeout] ++
                SensorsUpdated GPSPositionHandle :: [Pass Bench.pass_timeout] in
  pios_com_aux_id cfg <> 0 /\
  all_abandoned cfg (Running s) inputs = true /\
  exists s',
    fst (run cfg (Running s) inputs) = Running s' /\
    gps_updated s' = true /\
    readings_of cfg Bench.pass_ok s' = Some Bench.pass_ok_readings /\
    sizeof (frame_of cfg Bench.pass_ok s' Bench.pass_ok_readings) <= 200 /\
    frames_sent (snd (run cfg (Running s) (inputs ++ [Pass Bench.pass_ok])))
    = [frame_of cfg Bench.pass_ok s' Bench.pass_ok_readings] /\
    exists pre post,
      frame_of cfg Bench.pass_ok s' Bench.pass_ok_readings = pre ++ 2 :: [71; 80; 83] ++ post.
Proof.
  cbv zeta.
  assert (Hport : pios_com_aux_id Boards.bma180_mpu6000 <> 0) by discriminate.
  split; [exact Hport |]. split; [reflexivity |].
  destruct (proj2 (proj2 (proj2
              (@updated_flags_kept_until_sent binary32 _ _ Boards.bma180_mpu6000)))
              (Bench.calibrated true false false)
              [Pass Bench.pass_timeout] [Pass Bench.pass_timeout]
              GPSPositionHandle Bench.pass_ok Bench.pass_ok_readings Hport eq_refl)
    as (s' & Hs' & _ & Hgps & _ & Hsent).
  exists s'. split; [exact Hs' |]. split; [exact (Hgps eq_refl) |].
  assert (Hval : s' = fst (loop_body Boards.bma180_mpu6000 Bench.pass_timeout
                             (sensorsUpdatedCb GPSPositionHandle
                                (fst (loop_body Boards.bma180_mpu6000 Bench.pass_timeout
                                        (Bench.calibrated true false false)))))).
  { vm_compute in Hs'. injection Hs' as <-. vm_compute. reflexivity. }
  assert (Hr : readings_of Boards.bma180_mpu6000 Bench.pass_ok s'
               = Some Bench.pass_ok_readings).
  { rewrite Hval. vm_compute. reflexivity. }
  assert (Hfit : sizeof (frame_of Boards.bma180_mpu6000 Bench.pass_ok s'
                           Bench.pass_ok_readings) <= 200).
  { rewrite Hval. vm_compute. discriminate. }
  split; [exact Hr |]. split; [exact Hfit |].
  destruct (Hsent Hr Hfit) as (Hf & Hblock & _).
  split; [exact Hf | exact (Hblock eq_refl)].
Defined.

(** ** Averaging *)

(** *** Polling *)

Lemma wait_fifo_result {A : Type} (misses : list Z) (hit : A) (last : Z) :
  forall err o b,
    wait_fifo misses hit last err = (o, b) ->
    o = Some hit \/ (o = None /\ b = true).
Proof.
  induction misses as [| now rest IH]; intros err o b; cbn [wait_fifo].
  - intros [= <- <-]. now left.
  - destruct err.
    + intros [= <- <-]. now right.
    + apply IH.
Qed.

(** *** Draining *)



Lemma iter_count_s32 (k : nat) :
  Z.of_nat k < 2 ^ 31 -> Nat.iter k (fun c => s32 (c + 1)) 0 = Z.of_nat k.
Proof.
  induction k as [| k IH]; intros Hk; [reflexivity |].
  rewrite Nat.iter_succ, IH by lia. rewrite s32_small; lia.
Qed.

Lemma iter_count_u32 (k : nat) :
  Z.of_nat k < 2 ^ 32 -> Nat.iter k (fun c => u32 (c + 1)) 0 = Z.of_nat k.
Proof.
  induction k as [| k IH]; intros Hk; [reflexivity |].
  rewrite Nat.iter_succ, IH by lia. rewrite u32_small; lia.
Qed.






Section Averaging.

Context {F : Type} {ops : FloatOps F}.





(** The ways in which the acquisition of a pass succeeds. *)
Lemma acquire_inl (cfg : config) (e : cycle_env F) (last : Z) (err : bool) (r : readings) :
  acquire cfg e last err = inl r ->
  exists n0 a0 t0,
    (if PIOS_MPU6000_ACCEL cfg then Some (0, zero3, stale_bma_temperature e)
     else read_bma180 e last err) = Some (n0, a0, t0) /\
    ((PIOS_INCLUDE_MPU6000 cfg = true /\
      exists c g a t,
        read_mpu6000 cfg e last err a0 = Some (c, (g, a), t) /\
        r_accel_accum r = a /\
        r_accel_samples r = (if PIOS_MPU6000_ACCEL cfg then c else n0) /\
        r_gyro_accum r = g /\ r_gyro_samples r = c)
     \/ (PIOS_INCLUDE_MPU6000 cfg = false /\ PIOS_INCLUDE_L3GD20 cfg = true /\
         r_accel_accum r = a0 /\ r_accel_samples r = n0 /\
         r_gyro_accum r = snd (fst (drain_queue (l3g_queue e) 0 zero3 None)) /\
         r_gyro_samples r = fst (fst (drain_queue (l3g_queue e) 0 zero3 None)))
     \/ (PIOS_INCLUDE_MPU6000 cfg = false /\ PIOS_INCLUDE_L3GD20 cfg = false /\
         r_accel_accum r = a0 /\ r_accel_samples r = n0 /\
         r_gyro_accum r = zero3 /\ r_gyro_samples r = 1)).
Proof.
  unfold acquire. intros Hacq.
  destruct (if PIOS_MPU6000_ACCEL cfg then _ else _) as [[[n0 a0] t0] |];
    [| discriminate].
  exists n0, a0, t0. split; [reflexivity |].
  destruct (PIOS_INCLUDE_MPU6000 cfg).
  - left. split; [reflexivity |].
    destruct (read_mpu6000 cfg e last err a0) as [[[c [g a]] t] |]; [| discriminate].
    exists c, g, a, t. injection Hacq as <-. cbn. auto.
  - right. destruct (PIOS_INCLUDE_L3GD20 cfg).
    + left. destruct (drain_queue (l3g_queue e) 0 zero3 None) as [[c g] b].
      injection Hacq as <-. cbn. auto 10.
    + right. injection Hacq as <-. cbn. auto 10.
Qed.

End Averaging.

(** ** Integers in single precision *)

Lemma digits2_pos_bounds (p : positive) :
  2 ^ (Zpos (digits2_pos p) - 1) <= Zpos p < 2 ^ Zpos (digits2_pos p).
Proof.
  induction p as [p IH | p IH |]; cbn [digits2_pos].
  - rewrite Pos2Z.inj_succ. replace (Z.succ (Zpos (digits2_pos p)) - 1)
      with (Z.succ (Zpos (digits2_pos p) - 1)) by lia.
    rewrite !Z.pow_succ_r by lia. lia.
  - rewrite Pos2Z.inj_succ. replace (Z.succ (Zpos (digits2_pos p)) - 1)
      with (Z.succ (Zpos (digits2_pos p) - 1)) by lia.
    rewrite !Z.pow_succ_r by lia. lia.
  - cbn. lia.
Qed.

(** A mantissa between 2^23 and 2^24 has 24 digits. *)
Lemma digits2_pos_24 (m : positive) :
  2 ^ 23 <= Zpos m < 2 ^ 24 -> Zpos (digits2_pos m) = 24.
Proof.
  intros Hm. pose proof (digits2_pos_bounds m) as Hd.
  set (d := Zpos (digits2_pos m)) in *.
  assert (0 < d) by (subst d; lia).
  destruct (Z.lt_trichotomy d 24) as [Hlt | [-> | Hgt]]; [| reflexivity |].
  - pose proof (Z.pow_le_mono_r 2 d 23 ltac:(lia) ltac:(lia)). lia.
  - pose proof (Z.pow_le_mono_r 2 24 (d - 1) ltac:(lia) ltac:(lia)). lia.
Qed.

Lemma iter_xO (p d : positive) : Zpos (Pos.iter xO p d) = Zpos p * 2 ^ Zpos d.
Proof.
  revert p. induction d as [d IH | d IH |]; intros p; cbn [Pos.iter].
  - rewrite Pos2Z.inj_xO, !IH. rewrite (Pos2Z.inj_xI d).
    replace (2 * Zpos d + 1) with (Zpos d + Zpos d + 1) by lia.
    rewrite !Z.pow_add_r by lia. change (2 ^ 1) with 2. ring.
  - rewrite !IH. rewrite (Pos2Z.inj_xO d).
    replace (2 * Zpos d) with (Zpos d + Zpos d) by lia.
    rewrite !Z.pow_add_r by lia. ring.
  - rewrite Pos2Z.inj_xO. change (2 ^ 1) with 2. ring.
Qed.

Lemma fexp32 (e : Z) : fexp 24 128 e = Z.max (e - 24) (-149).
Proof. reflexivity. Qed.

Lemma scaled_below (a k : Z) (m : positive) :
  a <> 0 -> 0 <= k -> Zpos m = Z.abs a * 2 ^ k -> Zpos m < 2 ^ 24 -> k < 24.
Proof.
  intros Ha Hk Hm Hlt.
  destruct (Z.lt_ge_cases k 24) as [H | H]; [exact H |].
  pose proof (Z.pow_le_mono_r 2 24 k ltac:(lia) H) as Hp.
  assert (0 < Z.abs a) by lia. nia.
Qed.

(** Rounding leaves a mantissa of 24 digits alone. *)
Lemma round_normal (sx : bool) (m : positive) (e : Z) :
  2 ^ 23 <= Zpos m < 2 ^ 24 -> -149 <= e <= 104 ->
  binary_round_aux 24 128 sx (Zpos m) e loc_Exact = S754_finite sx m e.
Proof.
  intros Hm He. unfold binary_round_aux, shr_fexp.
  cbn [Zdigits2 shr_record_of_loc]. rewrite (digits2_pos_24 Hm), fexp32.
  replace (Z.max (24 + e - 24) (-149) - e) with 0 by lia.
  cbn [shr shr_m loc_of_shr_record round_nearest_even Zdigits2 shr_record_of_loc].
  rewrite (digits2_pos_24 Hm), fexp32.
  replace (Z.max (24 + e - 24) (-149) - e) with 0 by lia.
  cbn [shr shr_m].
  replace (e <=? 128 - 24) with true by (symmetry; apply Z.leb_le; lia).
  reflexivity.
Qed.

(** Rounding an even mantissa of 25 digits halves it, exactly. *)
Lemma round_normal_even (sx : bool) (m : positive) (e : Z) :
  2 ^ 23 <= Zpos m < 2 ^ 24 -> -149 <= e <= 103 ->
  binary_round_aux 24 128 sx (Zpos (xO m)) e loc_Exact = S754_finite sx m (e + 1).
Proof.
  intros Hm He. unfold binary_round_aux, shr_fexp.
  cbn [Zdigits2 shr_record_of_loc digits2_pos]. rewrite Pos2Z.inj_succ.
  rewrite (digits2_pos_24 Hm), fexp32.
  replace (Z.max (Z.succ 24 + e - 24) (-149) - e) with 1 by lia.
  cbn [shr iter_pos shr_1 orb shr_m loc_of_shr_record round_nearest_even Zdigits2
       shr_record_of_loc].
  rewrite (digits2_pos_24 Hm), fexp32.
  replace (Z.max (24 + (e + 1) - 24) (-149) - (e + 1)) with 0 by lia.
  cbn [shr shr_m].
  replace (e + 1 <=? 128 - 24) with true by (symmetry; apply Z.leb_le; lia).
  reflexivity.
Qed.

(** [(float) a] for an integer of at most 2^24 in magnitude. *)
Lemma of_int_normal32 (a : Z) :
  a <> 0 -> float_integer a -> normal32 a (of_int a).
Proof.
  unfold float_integer. intros Ha Hle.
  assert (H : forall (sx : bool) (p : positive), Zpos p < 2 ^ 24 ->
            exists m k, binary_round 24 128 sx p 0 = S754_finite sx m (- k) /\ 0 <= k /\
                        Zpos m = Zpos p * 2 ^ k /\ 2 ^ 23 <= Zpos m < 2 ^ 24).
  { intros sx p Hp. unfold binary_round, shl_align. rewrite fexp32.
    pose proof (digits2_pos_bounds p) as Hd.
    set (d := Zpos (digits2_pos p)) in *.
    assert (0 < d) by (subst d; lia).
    assert (d <= 24).
    { destruct (Z.le_gt_cases d 24) as [Hle' | Hgt]; [exact Hle' |].
      pose proof (Z.pow_le_mono_r 2 24 (d - 1) ltac:(lia) ltac:(lia)). lia. }
    assert (Hf : Z.max (d + 0 - 24) (-149) = d - 24) by lia.
    rewrite Hf, Z.sub_0_r.
    destruct (d - 24) as [| q | q] eqn:E; [| lia |].
    - assert (Hm : 2 ^ 23 <= Zpos p < 2 ^ 24).
      { replace 23 with (d - 1) by lia. replace 24 with d by lia. exact Hd. }
      exists p, 0. rewrite (round_normal sx Hm) by lia.
      split; [reflexivity |]. split; [lia |]. split; [cbn; lia | exact Hm].
    - assert (Hq : Zpos q = 24 - d) by lia.
      assert (Hm : 2 ^ 23 <= Zpos (Pos.iter xO p q) < 2 ^ 24).
      { rewrite iter_xO, Hq.
        assert (E23 : 2 ^ 23 = 2 ^ (d - 1) * 2 ^ (24 - d)).
        { rewrite <- Z.pow_add_r by lia. f_equal. lia. }
        assert (E24 : 2 ^ 24 = 2 ^ d * 2 ^ (24 - d)).
        { rewrite <- Z.pow_add_r by lia. f_equal. lia. }
        rewrite E23, E24.
        assert (0 < 2 ^ (24 - d)) by (apply Z.pow_pos_nonneg; lia). nia. }
      exists (Pos.iter xO p q), (Zpos q).
      rewrite (round_normal sx Hm) by lia.
      split; [reflexivity |]. split; [lia |]. split; [apply iter_xO | exact Hm]. }
  destruct (Z.eq_dec (Z.abs a) (2 ^ 24)) as [Htop | Hbelow].
  - exists 8388608%positive, 1.
    assert (Hcases : a = 16777216 \/ a = -16777216) by (change (2 ^ 24) with 16777216 in Htop; lia).
    destruct Hcases as [-> | ->]; (split; [reflexivity |]); (split; [cbn; lia |]);
      right; split; reflexivity.
  - unfold normal32. cbn [of_int binary32_ops].
    destruct a as [| p | p]; [contradiction | |]; cbn [binary_normalize].
    + destruct (H false p ltac:(lia)) as (m & k & -> & Hk & Hm & Hr).
      exists m, (- k). cbn [Z.abs Z.ltb Z.compare]. split; [reflexivity |].
      split; [exact Hr |]. left. rewrite Z.opp_involutive. split; [lia | exact Hm].
    + destruct (H true p ltac:(lia)) as (m & k & -> & Hk & Hm & Hr).
      exists m, (- k). cbn [Z.abs Z.ltb Z.compare]. split; [reflexivity |].
      split; [exact Hr |]. left. rewrite Z.opp_involutive. split; [lia | exact Hm].
Qed.

(** An integer has one normal single precision number. *)
Lemma normal32_unique (a : Z) (x y : binary32) :
  a <> 0 -> normal32 a x -> normal32 a y -> x = y.
Proof.
  intros Ha (m & e & -> & Hr & Hv) (m' & e' & -> & Hr' & Hv').
  assert (Hpos : 0 < Z.abs a) by lia.
  assert (H23 : 2 ^ 24 = 2 * 2 ^ 23) by reflexivity.
  assert (Hstep : forall (j k : Z) (n n' : positive),
             0 <= j < k -> Zpos n = Z.abs a * 2 ^ j -> Zpos n' = Z.abs a * 2 ^ k ->
             2 ^ 23 <= Zpos n -> Zpos n' < 2 ^ 24 -> False).
  { intros j k n n' Hjk Hn Hn' Hlow Hhigh.
    replace k with (j + (k - j)) in Hn' by lia.
    rewrite Z.pow_add_r in Hn' by lia.
    pose proof (Z.pow_le_mono_r 2 1 (k - j) ltac:(lia) ltac:(lia)) as Hp.
    change (2 ^ 1) with 2 in Hp. nia. }
  assert (Hone : forall (k : Z) (n : positive),
             0 <= k -> Zpos n = Z.abs a * 2 ^ k -> 2 ^ 24 <= Z.abs a -> Zpos n < 2 ^ 24 ->
             False).
  { intros k n Hk Hn Hbig Hhigh.
    pose proof (Z.pow_le_mono_r 2 0 k ltac:(lia) Hk) as Hp.
    change (2 ^ 0) with 1 in Hp. nia. }
  destruct Hv as [(He & Hm) | (-> & Hm)], Hv' as [(He' & Hm') | (-> & Hm')].
  - assert (e = e').
    { destruct (Z.lt_trichotomy e e') as [Hlt | [Heq | Hgt]]; [| exact Heq |]; exfalso.
      + apply (@Hstep (- e') (- e) m' m); lia.
      + apply (@Hstep (- e) (- e') m m'); lia. }
    subst e'. assert (m = m') by lia. now subst m'.
  - exfalso. apply (@Hone (- e) m); lia.
  - exfalso. apply (@Hone (- e') m'); lia.
  - assert (m = m') by lia. now subst m'.
Qed.

(** The integer division that [SFdiv] makes on two mantissas of 24 digits. *)
Lemma div_core_normal (m1 m2 : positive) (e1 e2 : Z) :
  2 ^ 23 <= Zpos m1 < 2 ^ 24 -> 2 ^ 23 <= Zpos m2 < 2 ^ 24 -> -125 <= e1 - e2 ->
  SFdiv_core_binary 24 128 (Zpos m1) e1 (Zpos m2) e2
  = (Zpos m1 * 2 ^ 24 / Zpos m2, e1 - e2 - 24,
     new_location (Zpos m2) (Zpos m1 * 2 ^ 24 mod Zpos m2)).
Proof.
  intros H1 H2 He. unfold SFdiv_core_binary. cbn [Zdigits2].
  rewrite (digits2_pos_24 H1), (digits2_pos_24 H2), fexp32.
  replace (Z.min (Z.max (24 + e1 - (24 + e2) - 24) (-149)) (e1 - e2))
    with (e1 - e2 - 24) by lia.
  replace (e1 - e2 - (e1 - e2 - 24)) with 24 by lia.
  cbv iota beta. rewrite Z.shiftl_mul_pow2 by lia.
  unfold Z.div, Z.modulo.
  now destruct (Z.div_eucl (Zpos m1 * 2 ^ 24) (Zpos m2)).
Qed.

Lemma new_location_exact (n : Z) : new_location n 0 = loc_Exact.
Proof. unfold new_location. now destruct (Z.even n). Qed.

(** A division of mantissas that leaves no remainder gives the normal
    number of the quotient. *)
Lemma div_without_remainder (q : Z) (s1 s2 : bool) (m1 m2 : positive) (e1 e2 j : Z) :
  q <> 0 -> float_integer q ->
  2 ^ 23 <= Zpos m1 < 2 ^ 24 -> 2 ^ 23 <= Zpos m2 < 2 ^ 24 ->
  0 <= j <= 48 -> e1 - e2 - 24 = - j ->
  Zpos m1 * 2 ^ 24 = (Z.abs q * 2 ^ j) * Zpos m2 ->
  xorb s1 s2 = (q <? 0) ->
  normal32 q (SFdiv 24 128 (S754_finite s1 m1 e1) (S754_finite s2 m2 e2)).
Proof.
  unfold float_integer. intros Hq Hle Hr1 Hr2 Hj He Hquot Hsign.
  assert (H24 : 2 ^ 24 = 2 * 2 ^ 23) by reflexivity.
  assert (H25 : 2 ^ 25 = 2 * 2 ^ 24) by reflexivity.
  assert (H23 : 0 < 2 ^ 23) by (cbn; lia).
  unfold SFdiv. rewrite (@div_core_normal m1 m2 e1 e2 Hr1 Hr2) by lia.
  rewrite Hquot, Z.div_mul, Z.mod_mul, new_location_exact, Hsign, He by lia.
  assert (Hrange : 2 ^ 23 < Z.abs q * 2 ^ j < 2 ^ 25) by nia.
  destruct (Z.lt_ge_cases (Z.abs q * 2 ^ j) (2 ^ 24)) as [Hlow | Hhigh].
  - destruct (Z.abs q * 2 ^ j) as [| m |] eqn:Em; try lia.
    exists m, (- j). rewrite round_normal by lia.
    split; [reflexivity |]. split; [lia |]. left.
    rewrite Z.opp_involutive, Em. split; [lia | reflexivity].
  - destruct (Z.eq_dec j 0) as [-> | Hj0].
    + change (2 ^ 0) with 1 in *. rewrite Z.mul_1_r in *.
      assert (Htop : Z.abs q = 2 * 8388608) by (change (2 ^ 24) with 16777216 in *; lia).
      rewrite Htop. change (2 * 8388608) with (Zpos (xO 8388608)).
      exists 8388608%positive, 1. rewrite round_normal_even by (cbn; lia).
      split; [reflexivity |]. split; [cbn; lia |]. right. split; [reflexivity | exact Htop].
    + assert (Heven : Z.abs q * 2 ^ j = 2 * (Z.abs q * 2 ^ (j - 1))).
      { replace j with (1 + (j - 1)) at 1 by lia. rewrite Z.pow_add_r by lia.
        change (2 ^ 1) with 2. ring. }
      rewrite Heven in *.
      destruct (Z.abs q * 2 ^ (j - 1)) as [| m |] eqn:Em; try lia.
      change (2 * Zpos m) with (Zpos (xO m)).
      exists m, (- j + 1). rewrite round_normal_even by lia.
      split; [reflexivity |]. split; [lia |]. left.
      replace (- (- j + 1)) with (j - 1) by lia. rewrite Em. split; [lia | reflexivity].
Qed.

(** Line 295 and 315 on a sum that the count divides: the single
    precision quotient of [(float) (n * q)] by [(float) n] is [(float) q],
    as long as the sum is at most 2^24 in magnitude. *)
Lemma binary32_quotient (n q : Z) :
  0 < n < 2 ^ 24 -> float_integer (n * q) ->
  fdiv (of_int (n * q)) (of_int n) = (of_int q : binary32).
Proof.
  intros Hn Hle. pose proof Hle as Hle'. unfold float_integer in Hle'.
  destruct (@of_int_normal32 n ltac:(lia) ltac:(unfold float_integer; lia))
    as (m2 & e2 & Hy & Hr2 & Hv2).
  destruct Hv2 as [(He2 & Hm2) | (_ & Hm2)]; [| lia].
  rewrite (Z.abs_eq n) in Hm2 by lia.
  assert (Hsn : (n <? 0) = false) by (apply Z.ltb_ge; lia).
  rewrite Hsn in Hy.
  destruct (Z.eq_dec q 0) as [-> | Hq0].
  - rewrite Z.mul_0_r, Hy. reflexivity.
  - assert (Hq : Z.abs q <= Z.abs (n * q)) by (rewrite Z.abs_mul; nia).
    assert (Hk2 : - e2 < 24).
    { apply (@scaled_below n (- e2) m2); rewrite ?Z.abs_eq by lia; lia. }
    destruct (@of_int_normal32 (n * q) ltac:(nia) Hle) as (m1 & e1 & Hx & Hr1 & Hv1).
    apply (@normal32_unique q); [exact Hq0 | | apply of_int_normal32; [exact Hq0 |]].
    2: { unfold float_integer. lia. }
    rewrite Hx, Hy. cbn [fdiv binary32_ops].
    assert (Hsign : xorb (n * q <? 0) false = (q <? 0)).
    { rewrite xorb_false_r. destruct (Z.ltb_spec q 0), (Z.ltb_spec (n * q) 0);
        try reflexivity; nia. }
    rewrite Z.abs_mul, (Z.abs_eq n) in Hv1 by lia.
    destruct Hv1 as [(He1 & Hm1) | (-> & Hm1)].
    + assert (Hk1 : - e1 < 24).
      { apply (@scaled_below (n * q) (- e1) m1);
          rewrite ?Z.abs_mul, ?(Z.abs_eq n) by lia; try lia; nia. }
      refine (@div_without_remainder q _ _ m1 m2 e1 e2 (24 - e1 + e2)
                Hq0 _ Hr1 Hr2 _ _ _ Hsign); [unfold float_integer; lia | lia | lia |].
      rewrite Hm1, Hm2.
      replace (24 - e1 + e2) with ((24 + e2) + - e1) by lia.
      rewrite Z.pow_add_r by lia.
      replace (2 ^ 24) with (2 ^ (24 + e2) * 2 ^ (- e2)).
      * ring.
      * rewrite <- Z.pow_add_r by lia. f_equal. lia.
    + refine (@div_without_remainder q _ _ m1 m2 1 e2 (23 + e2)
                Hq0 _ Hr1 Hr2 _ _ _ Hsign); [unfold float_integer; lia | lia | lia |].
      rewrite Hm2.
      assert (E : 2 ^ 23 = 2 ^ (23 + e2) * 2 ^ (- e2)).
      { rewrite <- Z.pow_add_r by lia. f_equal. lia. }
      change (2 ^ 24) with (2 * 2 ^ 23). rewrite E.
      transitivity (2 * Zpos m1 * (2 ^ (23 + e2) * 2 ^ (- e2))); [ring |].
      rewrite <- Hm1. ring.
Qed.

Lemma SFopp_round_aux (sx : bool) (m e : Z) (l : location) :
  SFopp (binary_round_aux 24 128 sx m e l) = binary_round_aux 24 128 (negb sx) m e l.
Proof.
  unfold binary_round_aux.
  destruct (shr_fexp 24 128 m e l) as [mrs e'].
  destruct (shr_fexp 24 128 _ e' loc_Exact) as [mrs' e''].
  destruct (shr_m mrs') as [| p | p]; try reflexivity.
  now destruct (e'' <=? 128 - 24).
Qed.

(** Negating the dividend negates the single precision quotient. *)
Lemma binary32_quotient_opp (x y : binary32) : fdiv (fneg x) y = fneg (fdiv x y).
Proof.
  cbn [fdiv fneg binary32_ops].
  destruct x as [sx | sx | | sx mx ex], y as [sy | sy | | sy my ey]; cbn [SFdiv SFopp];
    try reflexivity; try (now destruct sx, sy).
  destruct (SFdiv_core_binary 24 128 (Zpos mx) ex (Zpos my) ey) as [[mz ez] lz].
  rewrite SFopp_round_aux. now destruct sx, sy.
Qed.

(** The value fed into scaling, for sums that the count divides. *)
Lemma binary32_mean_of_multiple (n : Z) (q : vec3 Z) :
  0 < n < 2 ^ 24 -> float_integers (scaled_axes n q) ->
  mean_remap (F:=binary32) (scaled_axes n q) n = remap fneg (vmap of_int q).
Proof.
  intros Hn (H0 & H1 & H2). destruct q as [x y z].
  unfold mean_remap, scaled_axes, remap, vmap in *. cbn [v0 v1 v2] in *.
  now rewrite binary32_quotient_opp, !binary32_quotient.
Qed.





(** The value that the code computes there: 16776705 * 2^-9, one unit in
    the last place above 32767. *)
Lemma binary32_mean_of_copies_rounds :
  let e := Bench.copies_pass (F:=binary32) (Bench.bma_sample 32767 32767 32767 0) 512 in
  option_map (fun r => v0 (mean_remap (F:=binary32) (r_accel_accum r) (r_accel_samples r)))
             (readings_of Boards.bma180_mpu6000 e initial_state)
  = Some (S754_finite false 16776705 (-9)) /\
  Bench.f32 32767 = S754_finite false 16776704 (-9).
Proof. cbv zeta. split; vm_compute; reflexivity. Qed.

(** Past 65536 samples the sums themselves wrap: 65537 copies of the
    accelerometer sample (-32768, -32768, -32768) leave 2147450880 in the
    32 bit sums, and the mean is not the sample. *)
Lemma binary32_mean_of_wrapped_sums :
  let cfg := Boards.bma180_mpu6000 in
  let e := Bench.copies_pass (F:=binary32) Bench.full_scale 65536 in
  exists r,
    readings_of cfg e initial_state = Some r /\
    r_accel_samples r = 65537 /\
    r_accel_accum r = V3 2147450880 2147450880 2147450880 /\
    v0 (mean_remap (F:=binary32) (r_accel_accum r) (r_accel_samples r))
    <> of_int (bma_y (bma_first e)).
Proof.
  cbv zeta. eexists. split; [vm_compute; reflexivity |].
  split; [reflexivity |]. split; [reflexivity |].
  intros H. vm_compute in H. discriminate.
Qed.

(** ** Sample counts *)

Section SampleCounts.

Context {F : Type} {ops : FloatOps F} {wire : FloatWire F}.

Lemma drain_fifo_count {A Acc : Type} (accumulate : Acc -> A -> Acc) (fifo : list A) :
  forall buf count acc,
    fst (fst (drain_fifo accumulate buf fifo count acc))
    = Nat.iter (S (length fifo)) (fun c => s32 (c + 1)) count.
Proof.
  induction fifo as [| d rest IH]; intros buf count acc.
  - reflexivity.
  - cbn [drain_fifo length]. rewrite IH.
    rewrite (Nat.iter_succ_r (S (length rest)) _ (fun c => s32 (c + 1))). reflexivity.
Qed.

(** The FIFO paths wait for one sample ("Make sure we get one sample"), so
    a pass that is not abandoned has counted at least one. *)
Lemma read_bma180_count (e : cycle_env F) (last : Z) (err : bool)
  (n : Z) (acc : vec3 Z) (t : Z) :
  read_bma180 e last err = Some (n, acc, t) ->
  Z.of_nat (length (bma_more e)) < 2 ^ 31 - 1 ->
  n = 1 + Z.of_nat (length (bma_more e)).
Proof.
  unfold read_bma180. intros Hread Hlen.
  destruct (wait_fifo (bma_misses e) (bma_first e) last err) as [o b] eqn:W.
  apply wait_fifo_result in W. destruct b; [destruct o; discriminate |].
  destruct W as [-> | [_ Hb]]; [| discriminate Hb].
  pose proof (drain_fifo_count add_bma (bma_more e) (bma_first e) 0 zero3) as Hc.
  destruct (drain_fifo add_bma (bma_first e) (bma_more e) 0 zero3) as [[c a] buf].
  cbn [fst] in Hc. injection Hread as <- _ _. rewrite Hc.
  change (2 ^ 31) with 2147483648 in Hlen.
  rewrite iter_count_s32 by (change (2 ^ 31) with 2147483648; lia).
  rewrite u32_small by (change (2 ^ 32) with 4294967296; lia). lia.
Qed.

Lemma read_mpu6000_count (cfg : config) (e : cycle_env F) (last : Z) (err : bool)
  (a0 : vec3 Z) (n : Z) (acc : vec3 Z * vec3 Z) (t : F) :
  read_mpu6000 cfg e last err a0 = Some (n, acc, t) ->
  Z.of_nat (length (mpu_more e)) < 2 ^ 31 - 1 ->
  n = 1 + Z.of_nat (length (mpu_more e)).
Proof.
  unfold read_mpu6000. intros Hread Hlen.
  destruct (wait_fifo (mpu_misses e) (mpu_first e) last err) as [o b] eqn:W.
  apply wait_fifo_result in W. destruct b; [destruct o; discriminate |].
  destruct W as [-> | [_ Hb]]; [| discriminate Hb].
  pose proof (drain_fifo_count (add_mpu cfg) (mpu_more e) (mpu_first e) 0 (zero3, a0))
    as Hc.
  destruct (drain_fifo (add_mpu cfg) (mpu_first e) (mpu_more e) 0 (zero3, a0))
    as [[c a] buf].
  cbn [fst] in Hc. injection Hread as <- _ _. rewrite Hc.
  change (2 ^ 31) with 2147483648 in Hlen.
  rewrite iter_count_s32 by (change (2 ^ 31) with 2147483648; lia).
  rewrite u32_small by (change (2 ^ 32) with 4294967296; lia). lia.
Qed.

Lemma fifo_sample_counts (cfg : config) (e : cycle_env F) (s : state F) (r : readings) :
  readings_of cfg e s = Some r ->
  (PIOS_MPU6000_ACCEL cfg = false ->
   Z.of_nat (length (bma_more e)) < 2 ^ 31 - 1 ->
   r_accel_samples r = 1 + Z.of_nat (length (bma_more e))) /\
  (PIOS_INCLUDE_MPU6000 cfg = true ->
   Z.of_nat (length (mpu_more e)) < 2 ^ 31 - 1 ->
   r_gyro_samples r = 1 + Z.of_nat (length (mpu_more e))).
Proof.
  intros Hr. unfold readings_of in Hr.
  destruct (acquire cfg e _ _) as [r' | out] eqn:Hacq; [| discriminate].
  injection Hr as ->. apply acquire_inl in Hacq.
  destruct Hacq as (n0 & a0 & t0 & Haccel & Hgyro). split.
  - intros Hoff Hlen. rewrite Hoff in *.
    apply read_bma180_count in Haccel; [| exact Hlen].
    destruct Hgyro as [(_ & c & g & a & t & _ & _ & -> & _)
                      | [(_ & _ & _ & -> & _) | (_ & _ & _ & -> & _)]]; exact Haccel.
  - intros Hon Hlen.
    destruct Hgyro as [(_ & c & g & a & t & Hread & _ & _ & _ & ->)
                      | [(H & _) | (H & _)]]; try congruence.
    apply read_mpu6000_count in Hread; [exact Hread | exact Hlen].
Qed.

(** The L3GD20 path does not wait: with an empty queue the count is zero,
    and the pass goes on to divide by it and to publish. *)
Lemma empty_queue_pass (cfg : config) (e : cycle_env F) (s : state F) (r : readings) :
  PIOS_INCLUDE_MPU6000 cfg = false ->
  PIOS_INCLUDE_L3GD20 cfg = true ->
  l3g_queue e = [] ->
  readings_of cfg e s = Some r ->
  r_gyro_samples r = 0 /\
  mean_remap (r_gyro_accum r) (r_gyro_samples r)
  = V3 (fdiv (of_int 0) (of_int 0)) (fdiv (of_int 0) (of_int 0))
       (fdiv (fneg (of_int 0)) (of_int 0)) /\
  gyros_published (snd (loop_body cfg e s)) = [gyros_record cfg e s r].
Proof.
  intros Hoff Hl3g Hempty Hr.
  destruct (pass_publishes cfg e s Hr) as (_ & Hg & _).
  unfold readings_of in Hr.
  destruct (acquire cfg e _ _) as [r' | out] eqn:Hacq; [| discriminate].
  injection Hr as ->. apply acquire_inl in Hacq.
  destruct Hacq as (n0 & a0 & t0 & _ & Hgyro).
  destruct Hgyro as [(H & _) | [(_ & _ & _ & _ & Ha & Hn) | (_ & H & _)]];
    try congruence.
  rewrite Hempty in Ha, Hn. cbn in Ha, Hn. rewrite Ha, Hn.
  split; [reflexivity |]. split; [reflexivity | exact Hg].
Qed.

(** The temperature of the published accelerometer record. *)
Lemma accel_temperature_published (cfg : config) (e : cycle_env F) (s : state F)
  (r : readings) :
  readings_of cfg e s = Some r ->
  map (@m_temperature F) (accels_published (snd (loop_body cfg e s)))
  = [accel_temperature cfg e r] /\
  (BMA180 cfg = true ->
   accel_temperature cfg e r
   = fadd (of_int 25) (fdiv (fsub (of_int (r_bma_temperature r)) (of_int 2)) (of_int 2))) /\
  (BMA180 cfg = false -> PIOS_MPU6000_ACCEL cfg = true ->
   accel_temperature cfg e r
   = fadd (of_int 35) (fdiv (fadd (r_gyro_temperature r) (of_int 512)) (of_int 340))) /\
  (BMA180 cfg = false -> PIOS_MPU6000_ACCEL cfg = false ->
   accel_temperature cfg e r = stale_accel_temperature e).
Proof.
  intros Hr. destruct (pass_publishes cfg e s Hr) as (Ha & _).
  rewrite Ha. unfold accel_temperature. split; [reflexivity |].
  repeat split; intros; repeat match goal with H : _ = _ |- _ => rewrite H end;
    reflexivity.
Qed.

End SampleCounts.

(** C1 at the input where the code departs from it: on the BMA180 + L3GD20
    board, with a sample in the BMA180 FIFO and nothing in the gyro queue,
    the pass is not abandoned, the gyro count is zero, the alarm is not
    raised, and the pass divides 0 by 0 and publishes a gyro record whose
    axes are NaN. *)
Theorem empty_gyro_queue_is_published :
  let cfg := Boards.bma180_l3gd20 in
  let e := Bench.pass_ok in
  let s := Bench.calibrated true false false in
  l3g_queue e = [] /\
  abandoned cfg e s = false /\
  option_map (fun r => r_gyro_samples r) (readings_of cfg e s) = Some 0 /\
  alarms_raised (snd (loop_body cfg e s)) = [] /\
  fdiv (Bench.f32 0) (Bench.f32 0) = S754_nan /\
  gyros_published (snd (loop_body cfg e s))
  = [{| m_x := S754_nan; m_y := S754_nan; m_z := S754_nan;
        m_temperature := Bench.f32 0 |}].
Proof. cbv zeta. repeat split; vm_compute; reflexivity. Qed.

(** C9 at the input where the code departs from it: on the BMA180 + MPU6000
    board, where neither [BMA180] nor [PIOS_MPU6000_ACCEL] is defined, the
    temperature of the published accelerometer record is whatever the local
    held before: here 0, while the BMA180 formula gives 29 for the raw
    temperature 10 of the sample. *)
Theorem accel_temperature_is_not_computed :
  let cfg := Boards.bma180_mpu6000 in
  let e := Bench.pass_ok in
  let s := Bench.calibrated true false false in
  PIOS_INCLUDE_BMA180 cfg = true /\ BMA180 cfg = false /\
  option_map (fun r => r_bma_temperature r) (readings_of cfg e s) = Some 10 /\
  fadd (Bench.f32 25) (fdiv (fsub (Bench.f32 10) (Bench.f32 2)) (Bench.f32 2))
  = Bench.f32 29 /\
  map (@m_temperature binary32) (accels_published (snd (loop_body cfg e s)))
  = [stale_accel_temperature e] /\
  stale_accel_temperature e = Bench.f32 0 /\
  Bench.f32 0 <> Bench.f32 29.
Proof. cbv zeta. repeat split; try (vm_compute; reflexivity). discriminate. Qed.

(** * Further properties *)

(** ** When a wait runs out of time *)

Lemma wait_fifo_error {A : Type} (misses : list Z) (hit : A) (last : Z) :
  forall err,
    snd (wait_fifo misses hit last err) = err || existsb (exceeded last) misses.
Proof.
  induction misses as [| now rest IH]; intros err; cbn [wait_fifo existsb].
  - now rewrite orb_false_r.
  - destruct err; [reflexivity |]. rewrite IH. cbn [orb]. unfold exceeded.
    now destruct (u32 (now - last) >? SENSOR_PERIOD).
Qed.

Lemma wait_fifo_hit {A : Type} (misses : list Z) (hit : A) (last : Z) :
  forall err,
    err || existsb (exceeded last) misses = false ->
    wait_fifo misses hit last err = (Some hit, false).
Proof.
  induction misses as [| now rest IH]; intros err; cbn [wait_fifo existsb].
  - rewrite orb_false_r. now intros ->.
  - destruct err; [discriminate |]. cbn [orb]. intros H.
    apply orb_false_elim in H. destruct H as [Hnow Hrest].
    unfold exceeded in Hnow. rewrite Hnow. apply IH. exact Hrest.
Qed.

(** X1.  A wait ends with [error] set exactly when one of the tick counts
    read during the wait is more than SENSOR_PERIOD past [lastSysTime];
    when none is, the wait delivers the sample of the first poll that
    succeeds. *)
Theorem wait_times_out_iff_tick_exceeded :
  forall (A : Type) (misses : list Z) (hit : A) (last : Z),
    snd (wait_fifo misses hit last false) = existsb (exceeded last) misses /\
    (existsb (exceeded last) misses = false ->
     wait_fifo misses hit last false = (Some hit, false)).
Proof.
  intros A misses hit last. split.
  - apply wait_fifo_error.
  - intros H. now apply wait_fifo_hit.
Qed.

Lemma wait_times_out_iff_tick_exceeded_witness :
  existsb (exceeded 10) [11; 12] = false /\
  wait_fifo [11; 12] Bench.full_scale 10 false = (Some Bench.full_scale, false).
Proof.
  split; [reflexivity |].
  exact (proj2 (wait_times_out_iff_tick_exceeded [11; 12] Bench.full_scale 10) eq_refl).
Defined.

Lemma exceeded_elapsed (last d : Z) :
  0 <= d < 2 ^ 32 ->
  exceeded last (u32 (last + d)) = (d >? SENSOR_PERIOD).
Proof.
  intros Hd. unfold exceeded, u32, wrap_unsigned.
  rewrite Zminus_mod_idemp_l.
  replace (last + d - last) with d by ring.
  now rewrite Z.mod_small.
Qed.

(** X2.  The time-out test counts elapsed ticks modulo 2^32: when the tick
    counts read during a wait are [lastSysTime + d] wrapped to 32 bits, the
    wait runs out of time exactly when one of the elapsed times [d] is more
    than SENSOR_PERIOD, also when the tick counter rolls over in between. *)
Theorem timeout_survives_tick_rollover :
  forall (A : Type) (elapsed : list Z) (hit : A) (last : Z),
    Forall (fun d => 0 <= d < 2 ^ 32) elapsed ->
    snd (wait_fifo (map (fun d => u32 (last + d)) elapsed) hit last false)
    = existsb (fun d => d >? SENSOR_PERIOD) elapsed.
Proof.
  intros A elapsed hit last Hall. rewrite wait_fifo_error. cbn [orb].
  induction Hall as [| d rest Hd _ IH]; [reflexivity |].
  cbn [map existsb]. now rewrite exceeded_elapsed, IH.
Qed.

Lemma timeout_survives_tick_rollover_witness :
  wait_fifo (map (fun d => u32 (4294967295 + d)) [1; 2]) Bench.full_scale 4294967295 false
  = (Some Bench.full_scale, false) /\
  snd (wait_fifo (map (fun d => u32 (4294967295 + d)) [1; 3]) Bench.full_scale
         4294967295 false) = true.
Proof.
  split; [reflexivity |].
  refine (@timeout_survives_tick_rollover _ [1; 3] Bench.full_scale 4294967295 _).
  repeat constructor; lia.
Defined.

Section PassOutcome.

Context {F : Type} {ops : FloatOps F} {wire : FloatWire F}.

Lemma read_bma180_none (e : cycle_env F) (last : Z) :
  (read_bma180 e last false = None) <-> existsb (exceeded last) (bma_misses e) = true.
Proof.
  unfold read_bma180.
  pose proof (wait_fifo_error (bma_misses e) (bma_first e) last false) as Herr.
  cbn [orb] in Herr.
  destruct (wait_fifo (bma_misses e) (bma_first e) last false) as [o b].
  cbn [snd] in Herr. rewrite <- Herr.
  destruct o as [d |], b; try (split; [reflexivity | reflexivity]);
    try (split; discriminate).
  destruct (drain_fifo add_bma d (bma_more e) 0 zero3) as [[c a] buf].
  split; discriminate.
Qed.

Lemma read_mpu6000_none (cfg : config) (e : cycle_env F) (last : Z) (a0 : vec3 Z) :
  (read_mpu6000 cfg e last false a0 = None)
  <-> existsb (exceeded last) (mpu_misses e) = true.
Proof.
  unfold read_mpu6000.
  pose proof (wait_fifo_error (mpu_misses e) (mpu_first e) last false) as Herr.
  cbn [orb] in Herr.
  destruct (wait_fifo (mpu_misses e) (mpu_first e) last false) as [o b].
  cbn [snd] in Herr. rewrite <- Herr.
  destruct o as [d |], b; try (split; [reflexivity | reflexivity]);
    try (split; discriminate).
  destruct (drain_fifo (add_mpu cfg) d (mpu_more e) 0 (zero3, a0)) as [[c a] buf].
  split; discriminate.
Qed.

(** The two ways in which the acquisition of a pass is abandoned. *)
Lemma acquire_outcome (cfg : config) (e : cycle_env F) (last : Z) :
  let bma_late := negb (PIOS_MPU6000_ACCEL cfg) && existsb (exceeded last) (bma_misses e) in
  let mpu_late := PIOS_INCLUDE_MPU6000 cfg && existsb (exceeded last) (mpu_misses e) in
  match acquire cfg e last false with
  | inl _ => bma_late = false /\ mpu_late = false
  | inr out =>
      (bma_late = true /\ out = [PIOS_BMA180_ReadAccels]) \/
      (bma_late = false /\ mpu_late = true /\ out = [])
  end.
Proof.
  cbv zeta. unfold acquire.
  destruct (PIOS_MPU6000_ACCEL cfg) eqn:Haccel; cbn [negb andb].
  - destruct (PIOS_INCLUDE_MPU6000 cfg); cbn [andb].
    + destruct (read_mpu6000 cfg e last false zero3) as [[[c [g a]] t] |] eqn:R.
      * split; [reflexivity |]. apply not_true_is_false. intros H.
        apply (proj2 (read_mpu6000_none cfg e last zero3)) in H. congruence.
      * right. split; [reflexivity |]. split; [| reflexivity].
        now apply read_mpu6000_none in R.
    + destruct (PIOS_INCLUDE_L3GD20 cfg); [| auto].
      destruct (drain_queue (l3g_queue e) 0 zero3 None) as [[c g] b]. auto.
  - destruct (read_bma180 e last false) as [[[n acc] t] |] eqn:B.
    + assert (Hb : existsb (exceeded last) (bma_misses e) = false).
      { apply not_true_is_false. intros H.
        apply (proj2 (read_bma180_none e last)) in H. congruence. }
      rewrite Hb.
      destruct (PIOS_INCLUDE_MPU6000 cfg); cbn [andb].
      * destruct (read_mpu6000 cfg e last false acc) as [[[c [g a]] t'] |] eqn:R.
        -- split; [reflexivity |]. apply not_true_is_false. intros H.
           apply (proj2 (read_mpu6000_none cfg e last acc)) in H. congruence.
        -- right. split; [reflexivity |]. split; [| reflexivity].
           now apply read_mpu6000_none in R.
      * destruct (PIOS_INCLUDE_L3GD20 cfg); [| auto].
        destruct (drain_queue (l3g_queue e) 0 zero3 None) as [[c g] b]. auto.
    + left. split; [| reflexivity]. now apply read_bma180_none in B.
Qed.

End PassOutcome.

Lemma abandoned_outcome {F : Type} {ops : FloatOps F} {wire : FloatWire F}
  (cfg : config) (e : cycle_env F) (s : state F) :
  abandoned cfg e s
  = (negb (PIOS_MPU6000_ACCEL cfg)
     && existsb (exceeded (lastSysTime (fst (top_of_loop cfg e s)))) (bma_misses e))
    || (PIOS_INCLUDE_MPU6000 cfg
        && existsb (exceeded (lastSysTime (fst (top_of_loop cfg e s)))) (mpu_misses e)).
Proof.
  unfold abandoned.
  destruct (top_of_loop_keeps cfg e s) as (He & _). rewrite He.
  set (last := lastSysTime (fst (top_of_loop cfg e s))).
  pose proof (acquire_outcome cfg e last) as H. cbv zeta in H.
  destruct (acquire cfg e last false) as [r | out].
  - destruct H as [-> ->]. reflexivity.
  - destruct H as [[-> _] | [-> [-> _]]]; reflexivity.
Qed.

(** X3.  A pass is abandoned exactly when the BMA180 wait (compiled unless
    PIOS_MPU6000_ACCEL) or the MPU6000 wait (compiled under
    PIOS_INCLUDE_MPU6000) read a tick count more than SENSOR_PERIOD past
    [lastSysTime]; the L3GD20 queue, which is not waited for, never makes a
    pass time out. *)
Theorem pass_abandoned_iff_wait_timed_out :
  forall (F : Type) (ops : FloatOps F) (wire : FloatWire F)
         (cfg : config) (e : cycle_env F) (s : state F),
    let last := lastSysTime (fst (top_of_loop cfg e s)) in
    abandoned cfg e s
    = (negb (PIOS_MPU6000_ACCEL cfg) && existsb (exceeded last) (bma_misses e))
      || (PIOS_INCLUDE_MPU6000 cfg && existsb (exceeded last) (mpu_misses e)).
Proof. intros F ops wire cfg e s last. apply abandoned_outcome. Qed.

Section PassCounts.

Context {F : Type} {ops : FloatOps F} {wire : FloatWire F}.

Lemma forced_reads_app (ev1 ev2 : list (event F)) :
  forced_reads (ev1 ++ ev2) = (forced_reads ev1 + forced_reads ev2)%nat.
Proof. unfold forced_reads. now rewrite filter_app, length_app. Qed.

(** What a pass that is not abandoned does after the top of the loop, as
    far as the watchdog and the forced read go. *)
Lemma process_counts (cfg : config) (e : cycle_env F) (s : state F) (r : readings) :
  watchdog_kicks (snd (process cfg e s r)) = 1%nat /\
  forced_reads (snd (process cfg e s r)) = 0%nat.
Proof.
  rewrite process_events. cbv zeta. cbn [snd].
  set (tele := telemetry cfg e s _ _ _).
  assert (Htele : watchdog_kicks (snd tele) = 0%nat /\ forced_reads (snd tele) = 0%nat).
  { subst tele.
    destruct (telemetry_events cfg e s
                (fst (publish_accels e (accels_record cfg e s r)))
                (gyros_record cfg e s r)
                (option_map (mag_record s) (mag_sample e)))
      as [[_ ->] | [_ (m & -> & _)]]; cbn; auto. }
  destruct Htele as (Tw & Tf).
  assert (Hend : watchdog_kicks (snd (end_of_loop cfg (fst tele))) = 1%nat /\
                 forced_reads (snd (end_of_loop cfg (fst tele))) = 0%nat).
  { unfold end_of_loop.
    destruct (PIOS_INCLUDE_MPU6000 cfg && negb (PIOS_INCLUDE_L3GD20 cfg)); cbn; auto. }
  destruct Hend as (Ew & Ef).
  rewrite !watchdog_kicks_app, !forced_reads_app, Tw, Tf, Ew, Ef.
  destruct (option_map (mag_record s) (mag_sample e)); cbn; auto.
Qed.

Lemma pass_forced_reads (cfg : config) (e : cycle_env F) (s : state F) :
  forced_reads (snd (loop_body cfg e s))
  = if negb (PIOS_MPU6000_ACCEL cfg)
       && existsb (exceeded (lastSysTime (fst (top_of_loop cfg e s)))) (bma_misses e)
    then 1%nat else 0%nat.
Proof.
  unfold loop_body.
  destruct (top_of_loop_keeps cfg e s) as (He & _).
  assert (Htop : forced_reads (snd (top_of_loop cfg e s)) = 0%nat).
  { unfold top_of_loop. now destruct (error s). }
  destruct (top_of_loop cfg e s) as [s0 ev_top]. cbn [fst snd] in *. rewrite He.
  pose proof (acquire_outcome cfg e (lastSysTime s0)) as H. cbv zeta in H.
  destruct (acquire cfg e (lastSysTime s0) false) as [r | out].
  - destruct H as [-> _].
    destruct (process_counts cfg e s0 r) as (_ & Hf).
    destruct (process cfg e s0 r) as [s1 evs]. cbn [snd] in *.
    now rewrite forced_reads_app, Htop, Hf.
  - cbn [snd]. rewrite forced_reads_app, Htop.
    destruct H as [[-> ->] | [-> [_ ->]]]; reflexivity.
Qed.

Lemma pass_watchdog_kicks (cfg : config) (e : cycle_env F) (s : state F) :
  watchdog_kicks (snd (loop_body cfg e s))
  = ((if error s then 1 else 0) + (if abandoned cfg e s then 0 else 1))%nat.
Proof.
  assert (Htop : watchdog_kicks (snd (top_of_loop cfg e s))
                 = if error s then 1%nat else 0%nat).
  { unfold top_of_loop. now destruct (error s). }
  destruct (abandoned cfg e s) eqn:Hab.
  - destruct (loop_body_abandoned cfg e s Hab) as (out & Hout & ->).
    cbn [snd]. rewrite watchdog_kicks_app, Htop.
    destruct Hout as [-> | ->]; reflexivity.
  - apply readings_of_abandoned in Hab. destruct Hab as (r & Hr).
    rewrite (loop_body_processed _ _ _ Hr). cbn [snd].
    destruct (process_counts cfg e (fst (top_of_loop cfg e s)) r) as (Hw & _).
    now rewrite watchdog_kicks_app, Htop, Hw.
Qed.

End PassCounts.

(** X4.  The forced read [PIOS_BMA180_ReadAccels] is issued once in a pass
    whose BMA180 wait ran out of time and in no other pass: not in a pass
    that is not abandoned, and not in a pass abandoned for the MPU6000. *)
Theorem forced_read_iff_bma180_timed_out :
  forall (F : Type) (ops : FloatOps F) (wire : FloatWire F)
         (cfg : config) (e : cycle_env F) (s : state F),
    let last := lastSysTime (fst (top_of_loop cfg e s)) in
    forced_reads (snd (loop_body cfg e s))
    = if negb (PIOS_MPU6000_ACCEL cfg) && existsb (exceeded last) (bma_misses e)
      then 1%nat else 0%nat.
Proof. intros F ops wire cfg e s last. apply pass_forced_reads. Qed.

(** X5.  A pass feeds the watchdog once if it starts as a recovery and once
    more if it is not abandoned, so an abandoned pass that did not start as
    a recovery does not feed it; but of any two passes in a row at least
    one does. *)
Theorem watchdog_fed_every_other_pass :
  forall (F : Type) (ops : FloatOps F) (wire : FloatWire F)
         (cfg : config) (e1 e2 : cycle_env F) (s : state F),
    watchdog_kicks (snd (loop_body cfg e1 s))
    = ((if error s then 1 else 0) + (if abandoned cfg e1 s then 0 else 1))%nat /\
    (1 <= watchdog_kicks (snd (loop_body cfg e1 s))
          + watchdog_kicks (snd (loop_body cfg e2 (fst (loop_body cfg e1 s)))))%nat.
Proof.
  intros F ops wire cfg e1 e2 s.
  split; [apply pass_watchdog_kicks |].
  rewrite !pass_watchdog_kicks.
  destruct (loop_body_events cfg e1 s) as (rest & _ & _ & _ & _ & ->).
  destruct (abandoned cfg e1 s); destruct (error s);
    destruct (abandoned cfg e2 _); cbn; lia.
Qed.

(** X6.  Every pass makes exactly one call on the sensors alarm, and after
    a pass the alarm is critical exactly when the pass before it was
    abandoned. *)
Theorem alarm_follows_previous_pass :
  forall (F : Type) (ops : FloatOps F) (wire : FloatWire F)
         (cfg : config) (e1 e2 : cycle_env F) (s : state F) (a : severity),
    let s1 := fst (loop_body cfg e1 s) in
    let evs2 := snd (loop_body cfg e2 s1) in
    (length (alarms_raised evs2) + alarm_clears evs2 = 1)%nat /\
    alarm_after a evs2
    = if abandoned cfg e1 s then SYSTEMALARMS_ALARM_CRITICAL else SYSTEMALARMS_ALARM_OK.
Proof.
  intros F ops wire cfg e1 e2 s a s1 evs2.
  assert (Herr : error s1 = abandoned cfg e1 s).
  { subst s1. now destruct (loop_body_events cfg e1 s) as (rest & _ & _ & _ & _ & ->). }
  subst evs2.
  destruct (loop_body_events cfg e2 s1) as (rest & -> & Hr & Hc & Ha & _).
  unfold top_of_loop. rewrite Herr.
  unfold alarms_raised in *.
  destruct (abandoned cfg e1 s); cbn [snd];
    rewrite flat_map_app, alarm_clears_app, alarm_after_app, Hr, Hc, Ha;
    split; reflexivity.
Qed.

(** ** What a pass keeps and what it counts *)

Section PassState.

Context {F : Type} {ops : FloatOps F} {wire : FloatWire F}.

Lemma process_state (cfg : config) (e : cycle_env F) (s : state F) (r : readings) :
  let s' := fst (process cfg e s r) in
  error s' = error s /\
  lastSysTime s' = next_wake cfg (lastSysTime s) /\
  bias_correct_gyro s' = bias_correct_gyro s /\
  calibration s' = calibration s.
Proof.
  cbv zeta. rewrite process_events. cbv zeta. cbn [fst].
  set (tele := telemetry cfg e s _ _ _).
  assert (Htele : error (fst tele) = error s /\
                  lastSysTime (fst tele) = lastSysTime s /\
                  bias_correct_gyro (fst tele) = bias_correct_gyro s /\
                  calibration (fst tele) = calibration s).
  { subst tele.
    destruct (telemetry_events cfg e s
                (fst (publish_accels e (accels_record cfg e s r)))
                (gyros_record cfg e s r)
                (option_map (mag_record s) (mag_sample e)))
      as [[_ ->] | [_ (m & _ & ->)]]; cbn; auto. }
  destruct Htele as (Te & Tl & Tb & Tc).
  unfold end_of_loop, next_wake.
  destruct (PIOS_INCLUDE_MPU6000 cfg && negb (PIOS_INCLUDE_L3GD20 cfg));
    cbn [fst]; rewrite <- ?Te, <- ?Tl, <- ?Tb, <- ?Tc; auto.
Qed.

Lemma top_of_loop_calibration (cfg : config) (e : cycle_env F) (s : state F) :
  calibration (fst (top_of_loop cfg e s)) = calibration s.
Proof.
  destruct (top_of_loop_keeps cfg e s) as (_ & _ & _ & _ & H1 & H2 & H3 & H4).
  unfold calibration. now rewrite H1, H2, H3, H4.
Qed.

(** No pass writes the calibration arrays or [bias_correct_gyro]. *)
Lemma loop_body_keeps (cfg : config) (e : cycle_env F) (s : state F) :
  calibration (fst (loop_body cfg e s)) = calibration s /\
  bias_correct_gyro (fst (loop_body cfg e s)) = bias_correct_gyro s.
Proof.
  destruct (top_of_loop_keeps cfg e s) as (_ & _ & _ & Hb & _).
  pose proof (top_of_loop_calibration cfg e s) as Hc.
  destruct (abandoned cfg e s) eqn:Hab.
  - destruct (loop_body_abandoned cfg e s Hab) as (out & _ & ->). cbn [fst].
    split; [exact Hc | exact Hb].
  - apply readings_of_abandoned in Hab. destruct Hab as (r & Hr).
    rewrite (loop_body_processed _ _ _ Hr). cbn [fst].
    destruct (process_state cfg e (fst (top_of_loop cfg e s)) r) as (_ & _ & Pb & Pc).
    split; congruence.
Qed.

(** The wake time after a pass. *)
Lemma loop_body_wake (cfg : config) (e : cycle_env F) (s : state F) :
  lastSysTime (fst (loop_body cfg e s))
  = if abandoned cfg e s then lastSysTime (fst (top_of_loop cfg e s))
    else next_wake cfg (lastSysTime (fst (top_of_loop cfg e s))).
Proof.
  destruct (abandoned cfg e s) eqn:Hab.
  - destruct (loop_body_abandoned cfg e s Hab) as (out & _ & ->). reflexivity.
  - apply readings_of_abandoned in Hab. destruct Hab as (r & Hr).
    rewrite (loop_body_processed _ _ _ Hr). cbn [fst].
    now destruct (process_state cfg e (fst (top_of_loop cfg e s)) r) as (_ & -> & _).
Qed.

(** How many records and messages a pass gives. *)
Lemma pass_counts (cfg : config) (e : cycle_env F) (s : state F) :
  let evs := snd (loop_body cfg e s) in
  let n := if abandoned cfg e s then 0%nat else 1%nat in
  length (accels_published evs) = n /\
  length (gyros_published evs) = n /\
  (length (mags_published evs) <= n)%nat /\
  length (frames_sent evs)
  = if pios_com_aux_id cfg =? 0 then 0%nat else n.
Proof.
  cbv zeta. destruct (abandoned cfg e s) eqn:Hab.
  - destruct (abandoned_pass cfg e s Hab) as (-> & -> & -> & -> & _).
    cbn. destruct (pios_com_aux_id cfg =? 0); auto.
  - apply readings_of_abandoned in Hab. destruct Hab as (r & Hr).
    destruct (pass_publishes cfg e s Hr) as (-> & -> & ->).
    split; [reflexivity |]. split; [reflexivity |].
    split; [destruct (mag_sample e); cbn; lia |].
    rewrite (loop_body_processed _ _ _ Hr). cbn [snd].
    rewrite process_events. cbv zeta. cbn [snd].
    destruct (top_of_loop_events cfg e s) as (_ & _ & _ & Tf).
    set (s0 := fst (top_of_loop cfg e s)) in *.
    set (tele := telemetry cfg e s0 _ _ _).
    destruct (end_of_loop_events cfg (fst tele)) as (_ & _ & _ & Ef & _).
    assert (Htele : length (frames_sent (snd tele))
                    = if pios_com_aux_id cfg =? 0 then 0%nat else 1%nat).
    { subst tele.
      destruct (telemetry_events cfg e s0
                  (fst (publish_accels e (accels_record cfg e s0 r)))
                  (gyros_record cfg e s0 r)
                  (option_map (mag_record s0) (mag_sample e)))
        as [[Hp ->] | [Hp (m & -> & _)]].
      - rewrite Hp. reflexivity.
      - destruct (Z.eqb_spec (pios_com_aux_id cfg) 0); [contradiction | reflexivity]. }
    unfold frames_sent in *. rewrite !flat_map_app, !length_app, Tf, Ef, Htele.
    destruct (option_map (mag_record s0) (mag_sample e)); cbn;
      destruct (pios_com_aux_id cfg =? 0); reflexivity.
Qed.

End PassState.

(** ** Runs of the task *)

Section Runs.

Context {F : Type} {ops : FloatOps F} {wire : FloatWire F}.

Lemma run_cons (cfg : config) (t : task) (i : input) (rest : list (input (F:=F))) :
  run cfg t (i :: rest)
  = (fst (run cfg (fst (step cfg t i)) rest),
     snd (step cfg t i) ++ snd (run cfg (fst (step cfg t i)) rest)).
Proof.
  cbn [run]. destruct (step cfg t i) as [t1 ev1]. cbn [fst snd].
  now destruct (run cfg t1 rest) as [t2 ev2].
Qed.

(** What one step gives, whatever the task and the input. *)
Lemma step_counts (cfg : config) (t : task) (i : input (F:=F)) :
  let evs := snd (step cfg t i) in
  length (accels_published evs) = length (gyros_published evs) /\
  (length (mags_published evs) <= length (accels_published evs))%nat /\
  (length (frames_sent evs) <= length (accels_published evs))%nat /\
  (pios_com_aux_id cfg = 0 -> frames_sent evs = []).
Proof.
  cbv zeta. destruct t as [s | s], i as [e | obj | cal]; cbn [step];
    try (cbn; repeat split; auto; lia).
  - destruct (pass_counts cfg e s) as (Ha & Hg & Hm & Hf).
    destruct (loop_body cfg e s) as [s' evs]. cbn [fst snd] in *.
    rewrite Ha, Hg. split; [reflexivity |]. split; [exact Hm |].
    rewrite Hf. split.
    + destruct (pios_com_aux_id cfg =? 0); lia.
    + intros Hp. rewrite Hp in Hf. cbn in Hf. now apply length_zero_iff_nil.
  - destruct (pios_com_aux_id cfg =? 0); cbn; repeat split; auto; lia.
Qed.

Lemma step_keeps (cfg : config) (t : task) (i : input (F:=F)) :
  bias_correct_gyro (state_of (fst (step cfg t i))) = bias_correct_gyro (state_of t) /\
  calibration (state_of (fst (step cfg t i)))
  = match i with
    | SettingsUpdated cal => cal
    | _ => calibration (state_of t)
    end.
Proof.
  destruct t as [s | s], i as [e | obj | cal]; cbn [step state_of fst];
    try (split; reflexivity).
  - destruct (loop_body_keeps cfg e s) as (Hc & Hb).
    destruct (loop_body cfg e s) as [s' evs]. cbn [fst state_of] in *. auto.
  - destruct (pios_com_aux_id cfg =? 0); cbn [fst state_of]; [split; reflexivity |].
    unfold sensorsUpdatedCb. destruct obj; cbn; split; reflexivity.
  - destruct cal; split; reflexivity.
  - destruct cal; split; reflexivity.
Qed.

End Runs.

(** X7.  Whatever happens to the task, it has published as many
    accelerometer records as gyro records: the two are published together
    or not at all.  Magnetometer records and debug messages are never more
    than these. *)
Theorem accel_and_gyro_published_in_pairs :
  forall (F : Type) (ops : FloatOps F) (wire : FloatWire F)
         (cfg : config) (inputs : list input) (t : task),
    let evs := snd (run cfg t inputs) in
    length (accels_published evs) = length (gyros_published evs) /\
    (length (mags_published evs) <= length (accels_published evs))%nat /\
    (length (frames_sent evs) <= length (accels_published evs))%nat.
Proof.
  intros F ops wire cfg inputs. cbv zeta.
  induction inputs as [| i rest IH]; intros t.
  - cbn. auto.
  - rewrite run_cons. cbn [snd].
    destruct (step_counts cfg t i) as (Sa & Sm & Sf & _).
    destruct (IH (fst (step cfg t i))) as (Ra & Rm & Rf).
    unfold accels_published, gyros_published, mags_published, frames_sent in *.
    rewrite !flat_map_app, !length_app. lia.
Qed.

(** X8.  After any run the calibration arrays hold the calibration of the
    last settings notification of the run, or what they held before when
    there was none; passes and GPS or altitude notifications do not write
    them. *)
Theorem calibration_is_latest_settings :
  forall (F : Type) (ops : FloatOps F) (wire : FloatWire F)
         (cfg : config) (inputs : list input) (t : task),
    calibration (state_of (fst (run cfg t inputs)))
    = latest_settings inputs (calibration (state_of t)).
Proof.
  intros F ops wire cfg inputs.
  induction inputs as [| i rest IH]; intros t.
  - reflexivity.
  - rewrite run_cons. cbn [fst]. rewrite IH.
    destruct (step_keeps cfg t i) as (_ & ->).
    unfold latest_settings. cbn [fold_left]. now destruct i.
Qed.

(** X9.  [bias_correct_gyro] is never written: after any run it is what it
    was, and from the start of the task on the static initialisers it is
    set, so every gyro record that the task publishes has the bias estimate
    added. *)
Theorem bias_correction_is_always_on :
  forall (F : Type) (ops : FloatOps F) (wire : FloatWire F)
         (cfg : config) (b : startup_env) (inputs : list input) (t : task),
    bias_correct_gyro (state_of (fst (run cfg t inputs))) = bias_correct_gyro (state_of t) /\
    bias_correct_gyro
      (state_of (fst (run cfg (fst (SensorsTask_start cfg b initial_state)) inputs)))
    = true.
Proof.
  intros F ops wire cfg b inputs.
  assert (Hkeep : forall t : task,
             bias_correct_gyro (state_of (fst (run cfg t inputs)))
             = bias_correct_gyro (state_of t)).
  { induction inputs as [| i rest IH]; intros t; [reflexivity |].
    rewrite run_cons. cbn [fst]. rewrite IH.
    now destruct (step_keeps cfg t i) as (-> & _). }
  intros t. split; [apply Hkeep |]. rewrite Hkeep.
  unfold SensorsTask_start.
  destruct (self_tests cfg b) as [[a g] m].
  now destruct ((a <? 0) || (g <? 0) || (m <? 0)).
Qed.

(** X10.  On a board without debug port the task never sends a message,
    and from its start on the static initialisers both update flags stay
    clear whatever notifications arrive. *)
Theorem no_port_no_message :
  forall (F : Type) (ops : FloatOps F) (wire : FloatWire F)
         (cfg : config) (b : startup_env) (inputs : list input) (t : task),
    pios_com_aux_id cfg = 0 ->
    frames_sent (snd (run cfg t inputs)) = [] /\
    let t' := fst (run cfg (fst (SensorsTask_start cfg b initial_state)) inputs) in
    gps_updated (state_of t') = false /\ baro_updated (state_of t') = false.
Proof.
  intros F ops wire cfg b inputs t Hport. split.
  - revert t. induction inputs as [| i rest IH]; intros t; [reflexivity |].
    rewrite run_cons. cbn [snd].
    destruct (step_counts cfg t i) as (_ & _ & _ & Hf).
    unfold frames_sent in *. now rewrite flat_map_app, (Hf Hport), IH.
  - cbv zeta.
    assert (Hkeep : forall t0 : task,
               gps_updated (state_of (fst (run cfg t0 inputs))) = gps_updated (state_of t0) /\
               baro_updated (state_of (fst (run cfg t0 inputs)))
               = baro_updated (state_of t0)).
    { induction inputs as [| i rest IH]; intros t0; [split; reflexivity |].
      rewrite run_cons. cbn [fst]. destruct (IH (fst (step cfg t0 i))) as (-> & ->).
      destruct t0 as [s | s], i as [e | obj | cal]; cbn [step state_of fst];
        try (split; reflexivity).
      - destruct (no_port_pass cfg e s Hport) as (Hg & Hb & _).
        destruct (loop_body cfg e s) as [s' evs]. cbn [fst state_of] in *. auto.
      - rewrite Hport. cbn. split; reflexivity. }
    destruct (Hkeep (fst (SensorsTask_start cfg b initial_state))) as (-> & ->).
    unfold SensorsTask_start.
    destruct (self_tests cfg b) as [[a g] m].
    now destruct ((a <? 0) || (g <? 0) || (m <? 0)).
Qed.

Lemma no_port_no_message_witness :
  let cfg := Boards.bma180_l3gd20 in
  let inputs := [SensorsUpdated GPSPositionHandle; Pass Bench.pass_ok] in
  pios_com_aux_id cfg = 0 /\
  frames_sent (snd (run cfg (Running (Bench.calibrated true false false)) inputs)) = [].
Proof.
  cbv zeta. split; [reflexivity |].
  exact (proj1 (@no_port_no_message binary32 _ _ Boards.bma180_l3gd20 Bench.startup_faulty
                  [SensorsUpdated GPSPositionHandle; Pass Bench.pass_ok]
                  (Running (Bench.calibrated true false false)) eq_refl)).
Defined.

(** X11.  The update flags record only whether a notification has arrived,
    not how many or in which order: after any notifications a flag is set
    exactly when it was set before or its object was among them, and
    nothing else in the state has changed. *)
Theorem notifications_only_set_flags :
  forall (F : Type) (objs : list handle) (s : state F),
    let s' := notify objs s in
    gps_updated s' = gps_updated s || existsb (handle_eqb GPSPositionHandle) objs /\
    baro_updated s' = baro_updated s || existsb (handle_eqb BaroAltitudeHandle) objs /\
    error s' = error s /\ lastSysTime s' = lastSysTime s /\
    bias_correct_gyro s' = bias_correct_gyro s /\ calibration s' = calibration s.
Proof.
  intros F objs. cbv zeta. unfold notify.
  induction objs as [| obj rest IH]; intros s.
  - cbn. rewrite !orb_false_r. auto 10.
  - cbn [fold_left existsb].
    destruct (IH (sensorsUpdatedCb obj s)) as (-> & -> & -> & -> & -> & ->).
    unfold sensorsUpdatedCb.
    destruct obj; cbn; destruct (gps_updated s), (baro_updated s); cbn; auto 10.
Qed.

(** ** The debug port, the settings and the wake time *)

Section Independence.

Context {F : Type} {ops : FloatOps F} {wire : FloatWire F}.

Lemma abandoned_any_port (cfg : config) (port : Z) (e : cycle_env F) (s : state F) :
  abandoned (with_aux_id cfg port) e s = abandoned cfg e s.
Proof. reflexivity. Qed.

Lemma readings_of_any_port (cfg : config) (port : Z) (e : cycle_env F) (s : state F) :
  readings_of (with_aux_id cfg port) e s = readings_of cfg e s.
Proof. reflexivity. Qed.

Lemma published_any_port (cfg : config) (port : Z) (e : cycle_env F) (s : state F) :
  accels_published (snd (loop_body (with_aux_id cfg port) e s))
  = accels_published (snd (loop_body cfg e s)) /\
  gyros_published (snd (loop_body (with_aux_id cfg port) e s))
  = gyros_published (snd (loop_body cfg e s)) /\
  mags_published (snd (loop_body (with_aux_id cfg port) e s))
  = mags_published (snd (loop_body cfg e s)).
Proof.
  destruct (abandoned cfg e s) eqn:Hab.
  - pose proof Hab as Hab'. rewrite <- (abandoned_any_port cfg port) in Hab'.
    destruct (abandoned_pass cfg e s Hab) as (-> & -> & -> & _).
    destruct (abandoned_pass (with_aux_id cfg port) e s Hab') as (-> & -> & -> & _).
    auto.
  - apply readings_of_abandoned in Hab. destruct Hab as (r & Hr).
    pose proof Hr as Hr'. rewrite <- (readings_of_any_port cfg port) in Hr'.
    destruct (pass_publishes cfg e s Hr) as (-> & -> & ->).
    destruct (pass_publishes (with_aux_id cfg port) e s Hr') as (-> & -> & ->).
    auto.
Qed.

Lemma alarm_calls_of_pass (cfg : config) (e : cycle_env F) (s : state F) :
  alarms_raised (snd (loop_body cfg e s))
  = (if error s then [SYSTEMALARMS_ALARM_CRITICAL] else []) /\
  alarm_clears (snd (loop_body cfg e s)) = (if error s then 0%nat else 1%nat).
Proof.
  destruct (loop_body_events cfg e s) as (rest & -> & Hr & Hc & _).
  unfold alarms_raised in *. rewrite flat_map_app, alarm_clears_app, Hr, Hc.
  unfold top_of_loop. destruct (error s); split; reflexivity.
Qed.

Lemma readings_of_any_calibration (cfg : config) (cal : RevoCalibrationData F)
  (e : cycle_env F) (s : state F) :
  readings_of cfg e (settingsUpdatedCb cal s) = readings_of cfg e s.
Proof.
  unfold readings_of, top_of_loop. cbn [error settingsUpdatedCb].
  destruct (error s); reflexivity.
Qed.

End Independence.

(** X12.  The debug port is an observer: with any other port number, or
    none, a pass publishes the same accelerometer, gyro and magnetometer
    records, makes the same alarm, watchdog and forced-read calls, is
    abandoned or not alike, and leaves the same wake time and calibration. *)
Theorem debug_port_only_observes :
  forall (F : Type) (ops : FloatOps F) (wire : FloatWire F)
         (cfg : config) (port : Z) (e : cycle_env F) (s : state F),
    let r1 := loop_body cfg e s in
    let r2 := loop_body (with_aux_id cfg port) e s in
    accels_published (snd r2) = accels_published (snd r1) /\
    gyros_published (snd r2) = gyros_published (snd r1) /\
    mags_published (snd r2) = mags_published (snd r1) /\
    alarms_raised (snd r2) = alarms_raised (snd r1) /\
    alarm_clears (snd r2) = alarm_clears (snd r1) /\
    watchdog_kicks (snd r2) = watchdog_kicks (snd r1) /\
    forced_reads (snd r2) = forced_reads (snd r1) /\
    error (fst r2) = error (fst r1) /\
    lastSysTime (fst r2) = lastSysTime (fst r1) /\
    calibration (fst r2) = calibration (fst r1).
Proof.
  intros F ops wire cfg port e s r1 r2. subst r1 r2.
  destruct (published_any_port cfg port e s) as (-> & -> & ->).
  destruct (alarm_calls_of_pass cfg e s) as (-> & ->).
  destruct (alarm_calls_of_pass (with_aux_id cfg port) e s) as (-> & ->).
  rewrite !pass_watchdog_kicks, !pass_forced_reads, !loop_body_wake.
  destruct (loop_body_events cfg e s) as (rest1 & _ & _ & _ & _ & ->).
  destruct (loop_body_events (with_aux_id cfg port) e s) as (rest2 & _ & _ & _ & _ & ->).
  destruct (loop_body_keeps cfg e s) as (-> & _).
  destruct (loop_body_keeps (with_aux_id cfg port) e s) as (-> & _).
  rewrite abandoned_any_port. repeat split; reflexivity.
Qed.

(** X13.  A settings notification takes effect at the next pass and only
    on the calibrated records: the pass acquires the same readings, its
    accelerometer record is computed with the new accel scale and bias,
    its magnetometer record with the new mag scale and bias, and its gyro
    record is the same as without the notification. *)
Theorem settings_take_effect_at_next_pass :
  forall (F : Type) (ops : FloatOps F) (wire : FloatWire F)
         (cfg : config) (cal : RevoCalibrationData F)
         (e : cycle_env F) (s : state F) (r : readings),
    readings_of cfg e s = Some r ->
    let evs := snd (loop_body cfg e (settingsUpdatedCb cal s)) in
    let mean := mean_remap (r_accel_accum r) (r_accel_samples r) in
    let k := accel_scaling cfg e in
    readings_of cfg e (settingsUpdatedCb cal s) = Some r /\
    accels_published evs
    = [{| m_x := fsub (fmul (fmul (v0 mean) k) (v0 (cal_accel_scale cal)))
                      (v0 (cal_accel_bias cal));
          m_y := fsub (fmul (fmul (v1 mean) k) (v1 (cal_accel_scale cal)))
                      (v1 (cal_accel_bias cal));
          m_z := fsub (fmul (fmul (v2 mean) k) (v2 (cal_accel_scale cal)))
                      (v2 (cal_accel_bias cal));
          m_temperature := accel_temperature cfg e r |}] /\
    mags_published evs
    = match mag_sample e with
      | Some v =>
          [V3 (fsub (fmul (of_int (v1 v)) (v0 (cal_mag_scale cal))) (v0 (cal_mag_bias cal)))
              (fsub (fmul (of_int (v0 v)) (v1 (cal_mag_scale cal))) (v1 (cal_mag_bias cal)))
              (fsub (fmul (of_int (- v2 v)) (v2 (cal_mag_scale cal)))
                    (v2 (cal_mag_bias cal)))]
      | None => []
      end /\
    gyros_published evs = gyros_published (snd (loop_body cfg e s)).
Proof.
  intros F ops wire cfg cal e s r Hr evs mean k. subst evs.
  pose proof Hr as Hr'. rewrite <- (readings_of_any_calibration cfg cal) in Hr'.
  destruct (pass_publishes cfg e s Hr) as (_ & -> & _).
  destruct (pass_publishes cfg e (settingsUpdatedCb cal s) Hr') as (-> & -> & ->).
  split; [exact Hr' |]. repeat split.
Qed.

Lemma settings_take_effect_at_next_pass_witness :
  let cfg := Boards.bma180_mpu6000 in
  let s := Bench.calibrated true false false in
  readings_of cfg Bench.pass_ok s = Some Bench.pass_ok_readings /\
  gyros_published
    (snd (loop_body cfg Bench.pass_ok
            (settingsUpdatedCb (revo_calibration Bench.startup_faulty) s)))
  = gyros_published (snd (loop_body cfg Bench.pass_ok s)).
Proof.
  cbv zeta. split; [reflexivity |].
  exact (proj2 (proj2 (proj2
           (@settings_take_effect_at_next_pass binary32 _ _ Boards.bma180_mpu6000
              (revo_calibration Bench.startup_faulty) Bench.pass_ok
              (Bench.calibrated true false false) Bench.pass_ok_readings eq_refl)))).
Defined.

Section WakeTime.

Context {F : Type} {ops : FloatOps F} {wire : FloatWire F}.

Lemma u32_add_l (a p : Z) : u32 (u32 a + p) = u32 (a + p).
Proof. unfold u32, wrap_unsigned. now rewrite Zplus_mod_idemp_l. Qed.

(** The state after passes none of which is abandoned, started with
    [error] clear. *)
Lemma completed_passes_state (cfg : config) (es : list (cycle_env F)) :
  forall s,
    error s = false ->
    completed_passes cfg s es = true ->
    error (after_passes cfg s es) = false /\
    lastSysTime (after_passes cfg s es)
    = if PIOS_INCLUDE_MPU6000 cfg && negb (PIOS_INCLUDE_L3GD20 cfg)
      then match es with
           | [] => lastSysTime s
           | _ => u32 (lastSysTime s + Z.of_nat (length es) * period_ticks cfg)
           end
      else lastSysTime s.
Proof.
  induction es as [| e rest IH]; intros s Herr Hall.
  - cbn [after_passes fold_left]. split; [exact Herr |].
    now destruct (PIOS_INCLUDE_MPU6000 cfg && negb (PIOS_INCLUDE_L3GD20 cfg)).
  - cbn [completed_passes] in Hall. apply andb_prop in Hall.
    destruct Hall as [Hok Hrest]. apply negb_true_iff in Hok.
    assert (Herr1 : error (fst (loop_body cfg e s)) = false).
    { destruct (loop_body_events cfg e s) as (r & _ & _ & _ & _ & ->). exact Hok. }
    assert (Hwake : lastSysTime (fst (loop_body cfg e s)) = next_wake cfg (lastSysTime s)).
    { rewrite loop_body_wake, Hok. unfold top_of_loop. now rewrite Herr. }
    change (after_passes cfg s (e :: rest))
      with (after_passes cfg (fst (loop_body cfg e s)) rest).
    destruct (IH _ Herr1 Hrest) as (-> & ->). split; [reflexivity |].
    rewrite Hwake. unfold next_wake.
    destruct (PIOS_INCLUDE_MPU6000 cfg && negb (PIOS_INCLUDE_L3GD20 cfg));
      [| reflexivity].
    destruct rest as [| e' rest'].
    + cbn [length]. f_equal. lia.
    + rewrite u32_add_l. f_equal. cbn [length]. lia.
Qed.

End WakeTime.

(** X14.  The loop wakes at a fixed period, not after a fixed delay: where
    line 400 is compiled (MPU6000 without L3GD20), n passes in a row that
    are not abandoned move [lastSysTime] by n periods, modulo 2^32, however
    long their reads took, and [error] stays clear.  On the other boards
    such passes leave [lastSysTime] where it was. *)
Theorem wake_time_advances_by_period :
  forall (F : Type) (ops : FloatOps F) (wire : FloatWire F)
         (cfg : config) (es : list (cycle_env F)) (s : state F),
    error s = false ->
    0 <= lastSysTime s < 2 ^ 32 ->
    completed_passes cfg s es = true ->
    error (after_passes cfg s es) = false /\
    lastSysTime (after_passes cfg s es)
    = if PIOS_INCLUDE_MPU6000 cfg && negb (PIOS_INCLUDE_L3GD20 cfg)
      then u32 (lastSysTime s + Z.of_nat (length es) * period_ticks cfg)
      else lastSysTime s.
Proof.
  intros F ops wire cfg es s Herr Hrange Hall.
  destruct (completed_passes_state cfg es s Herr Hall) as (He & Hl).
  split; [exact He |]. rewrite Hl.
  destruct (PIOS_INCLUDE_MPU6000 cfg && negb (PIOS_INCLUDE_L3GD20 cfg)); [| reflexivity].
  destruct es; [| reflexivity].
  cbn [length]. rewrite Z.mul_0_l, Z.add_0_r. symmetry. now apply u32_small.
Qed.

Lemma wake_time_advances_by_period_witness :
  let cfg := Boards.bma180_mpu6000 in
  let s := Bench.calibrated true false false in
  completed_passes cfg s [Bench.pass_ok; Bench.pass_ok] = true /\
  lastSysTime (after_passes cfg s [Bench.pass_ok; Bench.pass_ok]) = 4.
Proof.
  cbv zeta. split; [reflexivity |].
  refine (proj2 (@wake_time_advances_by_period binary32 _ _ Boards.bma180_mpu6000
                   [Bench.pass_ok; Bench.pass_ok] (Bench.calibrated true false false)
                   eq_refl _ eq_refl)).
  cbn. lia.
Defined.

(** X15.  Where line 400 is not compiled (no MPU6000, or an L3GD20) the
    deadline of the BMA180 wait is not renewed by the passes that succeed:
    however many of them there were, a pass whose first poll of the BMA180
    finds the FIFO empty at a tick count more than SENSOR_PERIOD past the
    old [lastSysTime] is abandoned. *)
Theorem deadline_is_not_renewed :
  forall (F : Type) (ops : FloatOps F) (wire : FloatWire F)
         (cfg : config) (es : list (cycle_env F)) (s : state F)
         (e : cycle_env F) (now : Z) (rest : list Z),
    PIOS_INCLUDE_MPU6000 cfg && negb (PIOS_INCLUDE_L3GD20 cfg) = false ->
    PIOS_MPU6000_ACCEL cfg = false ->
    error s = false ->
    completed_passes cfg s es = true ->
    bma_misses e = now :: rest ->
    exceeded (lastSysTime s) now = true ->
    abandoned cfg e (after_passes cfg s es) = true.
Proof.
  intros F ops wire cfg es s e now rest Hboard Haccel Herr Hall Hmiss Hlate.
  destruct (completed_passes_state cfg es s Herr Hall) as (He & Hl).
  rewrite Hboard in Hl.
  rewrite abandoned_outcome, Haccel, Hmiss.
  unfold top_of_loop. rewrite He. cbn [fst negb andb existsb].
  now rewrite Hl, Hlate.
Qed.

Lemma deadline_is_not_renewed_witness :
  let cfg := Boards.bma180_l3gd20 in
  let s := Bench.calibrated true false false in
  completed_passes cfg s [Bench.pass_ok; Bench.pass_ok; Bench.pass_ok] = true /\
  abandoned cfg Trials.late_pass
    (after_passes cfg s [Bench.pass_ok; Bench.pass_ok; Bench.pass_ok]) = true.
Proof.
  cbv zeta. split; [reflexivity |].
  exact (@deadline_is_not_renewed binary32 _ _ Boards.bma180_l3gd20
           [Bench.pass_ok; Bench.pass_ok; Bench.pass_ok]
           (Bench.calibrated true false false)
           Trials.late_pass 3 [] eq_refl eq_refl eq_refl eq_refl eq_refl eq_refl).
Defined.

(** ** Start of the task *)

(** X16.  When no self test of an attached sensor returns a negative value
    the task enters the main loop: it has cleared the alarm, loaded the
    calibration, set [lastSysTime] to the current tick count and cleared
    [error], and it has connected [sensorsUpdatedCb] to the altitude and GPS
    objects exactly when there is a debug port. *)
Theorem passed_self_tests_start_the_loop :
  forall (F : Type) (ops : FloatOps F) (wire : FloatWire F)
         (cfg : config) (b : startup_env) (s : state F),
    Forall (fun r => 0 <= r) (attached_self_tests cfg b) ->
    exists s',
      SensorsTask_start cfg b s
      = (Running s',
         AlarmsClear :: (if pios_com_aux_id cfg =? 0 then []
                         else [BaroAltitudeConnectCallback; GPSPositionConnectCallback])) /\
      error s' = false /\ lastSysTime s' = start_tick b /\
      calibration s' = revo_calibration b /\
      gps_updated s' = gps_updated s /\ baro_updated s' = baro_updated s /\
      bias_correct_gyro s' = bias_correct_gyro s.
Proof.
  intros F ops wire cfg b s Hgood. unfold SensorsTask_start.
  pose proof (self_test_gate cfg b) as Hgate.
  destruct (self_tests cfg b) as [[a g] m].
  rewrite Hgate.
  replace (existsb (fun r => r <? 0) (attached_self_tests cfg b)) with false.
  - eexists. split; [reflexivity |]. cbn.
    destruct (revo_calibration b). auto 10.
  - symmetry. apply not_true_is_false. intros H.
    apply existsb_exists in H. destruct H as (r & Hin & Hneg).
    rewrite Forall_forall in Hgood. specialize (Hgood r Hin).
    apply Z.ltb_lt in Hneg. lia.
Qed.

Lemma passed_self_tests_start_the_loop_witness :
  let b := {| revo_calibration := revo_calibration Bench.startup_faulty;
              PIOS_MPU6000_Test := 0; PIOS_L3GD20_Test := -1;
              PIOS_BMA180_Test := 0; PIOS_HMC5883_Test := 0;
              start_tick := 7 |} in
  Forall (fun r => 0 <= r) (attached_self_tests Boards.bma180_mpu6000 b) /\
  exists s',
    fst (SensorsTask_start Boards.bma180_mpu6000 b (initial_state (F:=binary32)))
    = Running s' /\ lastSysTime s' = 7.
Proof.
  cbv zeta.
  assert (Hgood : Forall (fun r => 0 <= r)
                    (attached_self_tests Boards.bma180_mpu6000
                       {| revo_calibration := revo_calibration Bench.startup_faulty;
                          PIOS_MPU6000_Test := 0; PIOS_L3GD20_Test := -1;
                          PIOS_BMA180_Test := 0; PIOS_HMC5883_Test := 0;
                          start_tick := 7 |})).
  { repeat constructor; cbn; lia. }
  split; [exact Hgood |].
  destruct (@passed_self_tests_start_the_loop binary32 _ _ Boards.bma180_mpu6000 _
              initial_state Hgood) as (s' & Hs & _ & Hl & _).
  exists s'. rewrite Hs. split; [reflexivity | exact Hl].
Defined.

(** ** Reading a message back *)

Lemma app_inv_length {A : Type} (l1 l1' l2 l2' : list A) :
  length l1 = length l1' -> l1 ++ l2 = l1' ++ l2' -> l1 = l1' /\ l2 = l2'.
Proof.
  revert l1'. induction l1 as [| a l1 IH]; intros [| a' l1'] Hlen Heq;
    try discriminate.
  - auto.
  - cbn in Hlen, Heq. injection Heq as -> Heq. injection Hlen as Hlen.
    destruct (IH l1' Hlen Heq) as (-> & ->). auto.
Qed.

Section Decoding.

Context {F : Type} {wire : FloatWire F}.

Lemma xyz_length (x y z : F) :
  length (float_bytes x ++ float_bytes y ++ float_bytes z) = 12%nat.
Proof. now rewrite !length_app, !float_bytes_length. Qed.

(** The tagged part of two equal messages. *)
Lemma tagged_blocks_inv (mag mag' : option (list Z)) (gps gps' baro baro' : option (list Z)) :
  match mag, mag' with Some p, Some p' => length p = length p' | _, _ => True end ->
  match gps, gps' with Some p, Some p' => length p = length p' | _, _ => True end ->
  tagged_block 1 mag ++ tagged_block 2 gps ++ tagged_block 3 baro
  = tagged_block 1 mag' ++ tagged_block 2 gps' ++ tagged_block 3 baro' ->
  mag = mag' /\ gps = gps' /\ baro = baro'.
Proof.
  intros Hmag Hgps Heq.
  destruct mag as [m |], mag' as [m' |], gps as [p |], gps' as [p' |],
    baro as [q |], baro' as [q' |];
    cbn [tagged_block app] in Heq; try discriminate Heq;
    try (injection Heq as Heq);
    repeat match goal with
      | H : ?a ++ _ = ?b ++ _ |- _ =>
          apply app_inv_length in H; [destruct H as [? H] | assumption]; subst
      | H : _ :: _ = _ :: _ |- _ => injection H as H; subst
      | H : ?a ++ [] = _ |- _ => rewrite app_nil_r in H
      | H : _ = ?a ++ [] |- _ => rewrite app_nil_r in H
      end;
    subst; try discriminate; auto.
Qed.

Lemma wire_frame_inv (ts ts' : Z) (a a' : AccelsData F) (g g' : GyrosData F)
  (mag mag' : option (MagnetometerData F)) (gps gps' baro baro' : option (list Z)) :
  match gps, gps' with Some p, Some p' => length p = length p' | _, _ => True end ->
  wire_frame ts a g mag gps baro = wire_frame ts' a' g' mag' gps' baro' ->
  match mag, mag' with Some _, Some _ | None, None => True | _, _ => False end /\
  gps = gps' /\ baro = baro'.
Proof.
  intros Hgps Heq. unfold wire_frame in Heq.
  cbn [app] in Heq. injection Heq as _ _ Heq.
  apply app_inv_length in Heq; [| now rewrite !xyz_length].
  destruct Heq as [_ Heq].
  apply app_inv_length in Heq;
    [| now rewrite !length_app, !float_bytes_length].
  destruct Heq as [_ Heq].
  apply tagged_blocks_inv in Heq; [| | exact Hgps].
  - destruct Heq as (Hm & -> & ->). split; [| auto].
    destruct mag, mag'; try discriminate; exact I.
  - destruct mag, mag'; cbn [option_map]; try exact I. now rewrite !xyz_length.
Qed.

End Decoding.

(** X17.  A debug message can be read back without ambiguity: when two
    passes with GPS records of one size send the same message, the same
    update flags were set in both, both or neither carried a magnetometer
    block, and the GPS and altitude records that were sent are equal. *)
Theorem frames_are_uniquely_decodable :
  forall (F : Type) (ops : FloatOps F) (wire : FloatWire F) (cfg : config)
         (e1 e2 : cycle_env F) (s1 s2 : state F) (r1 r2 : readings),
    pios_com_aux_id cfg <> 0 ->
    readings_of cfg e1 s1 = Some r1 ->
    readings_of cfg e2 s2 = Some r2 ->
    sizeof (frame_of cfg e1 s1 r1) <= 200 ->
    sizeof (frame_of cfg e2 s2 r2) <= 200 ->
    length (gps_record e1) = length (gps_record e2) ->
    frames_sent (snd (loop_body cfg e1 s1)) = frames_sent (snd (loop_body cfg e2 s2)) ->
    gps_updated s1 = gps_updated s2 /\
    baro_updated s1 = baro_updated s2 /\
    match mag_sample e1, mag_sample e2 with
    | Some _, Some _ | None, None => True
    | _, _ => False
    end /\
    (gps_updated s1 = true -> gps_record e1 = gps_record e2) /\
    (baro_updated s1 = true -> baro_record e1 = baro_record e2).
Proof.
  intros F ops wire cfg e1 e2 s1 s2 r1 r2 Hport Hr1 Hr2 Hfit1 Hfit2 Hlen Hsame.
  destruct (@pass_frame F ops wire cfg e1 s1 r1 Hport Hr1 Hfit1) as (Hf1 & _).
  destruct (@pass_frame F ops wire cfg e2 s2 r2 Hport Hr2 Hfit2) as (Hf2 & _).
  rewrite Hf1, Hf2 in Hsame.
  apply (f_equal (hd [])) in Hsame. cbn [hd] in Hsame.
  unfold frame_of in Hsame. apply wire_frame_inv in Hsame.
  - destruct Hsame as (Hmag & Hgps & Hbaro).
    destruct (gps_updated s1), (gps_updated s2), (baro_updated s1), (baro_updated s2);
      try discriminate;
      (split; [reflexivity |]); (split; [reflexivity |]);
      (split; [destruct (mag_sample e1), (mag_sample e2); exact Hmag |]);
      split; intros; try discriminate; congruence.
  - destruct (gps_updated s1), (gps_updated s2); try exact I. exact Hlen.
Qed.

Lemma frames_are_uniquely_decodable_witness :
  let cfg := Boards.bma180_mpu6000 in
  let s := Bench.calibrated true true false in
  readings_of cfg Bench.pass_ok s = Some Bench.pass_ok_readings /\
  sizeof (frame_of cfg Bench.pass_ok s Bench.pass_ok_readings) <= 200 /\
  (gps_updated s = true -> gps_record Bench.pass_ok = gps_record Bench.pass_ok).
Proof.
  cbv zeta. split; [reflexivity |].
  assert (Hfit : sizeof (frame_of Boards.bma180_mpu6000 Bench.pass_ok
                           (Bench.calibrated true true false) Bench.pass_ok_readings)
                 <= 200) by (vm_compute; discriminate).
  split; [exact Hfit |].
  refine (proj1 (proj2 (proj2 (proj2
            (@frames_are_uniquely_decodable binary32 _ _ Boards.bma180_mpu6000
               Bench.pass_ok Bench.pass_ok
               (Bench.calibrated true true false) (Bench.calibrated true true false)
               Bench.pass_ok_readings Bench.pass_ok_readings
               _ eq_refl eq_refl Hfit Hfit eq_refl eq_refl))))).
  discriminate.
Defined.

(** ** What the accumulators hold *)

Lemma last_cons_default {A : Type} (rest : list A) :
  forall d buf : A, last (d :: rest) buf = last rest d.
Proof.
  induction rest as [| a rest IH]; intros d buf; [reflexivity |].
  change (last (d :: a :: rest) buf) with (last (a :: rest) buf).
  change (last (a :: rest) d) with (last (a :: rest) d).
  rewrite (IH a buf), (IH a d). reflexivity.
Qed.

(** The drain loop is a fold over the sample in the buffer and the samples
    in the FIFO, and leaves the last of them in the buffer. *)
Lemma drain_fifo_fold {A Acc : Type} (accumulate : Acc -> A -> Acc) (fifo : list A) :
  forall buf count acc,
    drain_fifo accumulate buf fifo count acc
    = (Nat.iter (S (length fifo)) (fun c => s32 (c + 1)) count,
       fold_left accumulate (buf :: fifo) acc,
       last fifo buf).
Proof.
  induction fifo as [| d rest IH]; intros buf count acc.
  - reflexivity.
  - cbn [drain_fifo]. rewrite IH. cbn [length fold_left].
    rewrite (Nat.iter_succ_r (S (length rest)) _ (fun c => s32 (c + 1))).
    now rewrite last_cons_default.
Qed.

Lemma drain_queue_fold (queue : list pios_l3gd20_data) :
  forall samples acc buf,
    drain_queue queue samples acc buf
    = (Nat.iter (length queue) (fun c => u32 (c + 1)) samples,
       fold_left add_l3g queue acc,
       match queue with [] => buf | d :: rest => Some (last rest d) end).
Proof.
  induction queue as [| d rest IH]; intros samples acc buf.
  - reflexivity.
  - cbn [drain_queue]. rewrite IH. cbn [length fold_left].
    rewrite (Nat.iter_succ_r (length rest) _ (fun c => u32 (c + 1))).
    destruct rest as [| d' rest']; [reflexivity |].
    now rewrite last_cons_default.
Qed.

Lemma vadd_assoc (a b c : vec3 Z) : vadd (vadd a b) c = vadd a (vadd b c).
Proof.
  destruct a as [a0 a1 a2], b as [b0 b1 b2], c as [c0 c1 c2].
  unfold vadd. cbn [v0 v1 v2]. now rewrite !Z.add_assoc.
Qed.

Lemma fold_accum3 (samples : list (vec3 Z)) :
  forall t : vec3 Z,
    fold_left (fun a v => accum3 a (v0 v) (v1 v) (v2 v)) samples (vmap s32 t)
    = vmap s32 (vadd t (sum_axes samples)).
Proof.
  induction samples as [| v rest IH]; intros t.
  - cbn. unfold vadd, vmap. cbn. now rewrite !Z.add_0_r.
  - cbn [fold_left sum_axes fold_right].
    replace (accum3 (vmap s32 t) (v0 v) (v1 v) (v2 v)) with (vmap s32 (vadd t v)).
    + rewrite IH. fold (sum_axes rest). now rewrite vadd_assoc.
    + unfold accum3, vmap, vadd. cbn [v0 v1 v2]. now rewrite !s32_add_l.
Qed.

Lemma fold_left_axes {A : Type} (axes : A -> vec3 Z) (samples : list A) :
  forall acc,
    fold_left (fun a d => accum3 a (v0 (axes d)) (v1 (axes d)) (v2 (axes d))) samples acc
    = fold_left (fun a v => accum3 a (v0 v) (v1 v) (v2 v)) (map axes samples) acc.
Proof.
  induction samples as [| d rest IH]; intros acc; [reflexivity |].
  cbn [fold_left map]. apply IH.
Qed.

Lemma sum_axes_bound (samples : list (vec3 Z)) :
  Forall int16_vec samples ->
  let n := Z.of_nat (length samples) in
  let t := sum_axes samples in
  (- 32768 * n <= v0 t <= 32767 * n) /\
  (- 32768 * n <= v1 t <= 32767 * n) /\
  (- 32768 * n <= v2 t <= 32767 * n).
Proof.
  induction 1 as [| v rest (H0 & H1 & H2) _ IH]; cbv zeta in *.
  - cbn. lia.
  - cbn [sum_axes fold_right length]. fold (sum_axes rest).
    unfold vadd, int16 in *. cbn [v0 v1 v2]. rewrite Nat2Z.inj_succ. lia.
Qed.

(** The sums of at most 65536 samples of 16 bits do not wrap. *)
Lemma accumulated_sum (samples : list (vec3 Z)) :
  Forall int16_vec samples ->
  Z.of_nat (length samples) <= 65536 ->
  fold_left (fun a v => accum3 a (v0 v) (v1 v) (v2 v)) samples zero3
  = sum_axes samples.
Proof.
  intros Hfit Hlen.
  change zero3 with (vmap s32 zero3). rewrite fold_accum3.
  destruct (sum_axes_bound Hfit) as (B0 & B1 & B2).
  replace (vadd zero3 (sum_axes samples)) with (sum_axes samples)
    by (unfold vadd; now destruct (sum_axes samples)).
  destruct (sum_axes samples) as [x y z]. unfold vmap. cbn [v0 v1 v2] in *.
  rewrite !s32_small; [reflexivity | | |]; change (2 ^ 31) with 2147483648; lia.
Qed.

Lemma fold_add_mpu (cfg : config) (samples : list pios_mpu6000_data) :
  forall g0 a0,
    fold_left (add_mpu cfg) samples (g0, a0)
    = (fold_left add_mpu_gyro samples g0,
       if PIOS_MPU6000_ACCEL cfg then fold_left add_mpu_accel samples a0 else a0).
Proof.
  induction samples as [| d rest IH]; intros g0 a0.
  - cbn. now destruct (PIOS_MPU6000_ACCEL cfg).
  - cbn [fold_left].
    change (add_mpu cfg (g0, a0) d)
      with (add_mpu_gyro g0 d,
            if PIOS_MPU6000_ACCEL cfg then add_mpu_accel a0 d else a0).
    rewrite IH. now destruct (PIOS_MPU6000_ACCEL cfg).
Qed.

Section Sums.

Context {F : Type} {ops : FloatOps F}.

Lemma read_bma180_fold (e : cycle_env F) (last_tick : Z) (err : bool)
  (n : Z) (acc : vec3 Z) (t : Z) :
  read_bma180 e last_tick err = Some (n, acc, t) ->
  n = u32 (Nat.iter (S (length (bma_more e))) (fun c => s32 (c + 1)) 0) /\
  acc = fold_left add_bma (bma_first e :: bma_more e) zero3 /\
  t = bma_temperature (last (bma_more e) (bma_first e)).
Proof.
  unfold read_bma180. intros Hread.
  destruct (wait_fifo (bma_misses e) (bma_first e) last_tick err) as [o b] eqn:W.
  apply wait_fifo_result in W. destruct b; [destruct o; discriminate |].
  destruct W as [-> | [_ Hb]]; [| discriminate Hb].
  rewrite drain_fifo_fold in Hread. injection Hread as <- <- <-. auto.
Qed.

Lemma read_mpu6000_fold (cfg : config) (e : cycle_env F) (last_tick : Z) (err : bool)
  (a0 : vec3 Z) (n : Z) (g a : vec3 Z) (t : F) :
  read_mpu6000 cfg e last_tick err a0 = Some (n, (g, a), t) ->
  n = u32 (Nat.iter (S (length (mpu_more e))) (fun c => s32 (c + 1)) 0) /\
  g = fold_left add_mpu_gyro (mpu_first e :: mpu_more e) zero3 /\
  a = (if PIOS_MPU6000_ACCEL cfg
       then fold_left add_mpu_accel (mpu_first e :: mpu_more e) a0 else a0) /\
  t = of_int (mpu_temperature (last (mpu_more e) (mpu_first e))).
Proof.
  unfold read_mpu6000. intros Hread.
  destruct (wait_fifo (mpu_misses e) (mpu_first e) last_tick err) as [o b] eqn:W.
  apply wait_fifo_result in W. destruct b; [destruct o; discriminate |].
  destruct W as [-> | [_ Hb]]; [| discriminate Hb].
  rewrite drain_fifo_fold, fold_add_mpu in Hread.
  injection Hread as <- <- <- <-. auto.
Qed.

(** All the locals that the acquisition of a pass leaves, read off the
    FIFOs and the queue. *)
Lemma acquire_readings (cfg : config) (e : cycle_env F) (last_tick : Z) (err : bool)
  (r : readings) :
  acquire cfg e last_tick err = inl r ->
  (PIOS_MPU6000_ACCEL cfg = false ->
   r_accel_samples r = u32 (Nat.iter (S (length (bma_more e))) (fun c => s32 (c + 1)) 0) /\
   r_accel_accum r = fold_left add_bma (bma_first e :: bma_more e) zero3 /\
   r_bma_temperature r = bma_temperature (last (bma_more e) (bma_first e))) /\
  (PIOS_INCLUDE_MPU6000 cfg = true ->
   r_gyro_samples r = u32 (Nat.iter (S (length (mpu_more e))) (fun c => s32 (c + 1)) 0) /\
   r_gyro_accum r = fold_left add_mpu_gyro (mpu_first e :: mpu_more e) zero3 /\
   r_gyro_temperature r = of_int (mpu_temperature (last (mpu_more e) (mpu_first e))) /\
   (PIOS_MPU6000_ACCEL cfg = true ->
    r_accel_samples r = r_gyro_samples r /\
    r_accel_accum r = fold_left add_mpu_accel (mpu_first e :: mpu_more e) zero3)) /\
  (PIOS_INCLUDE_MPU6000 cfg = false -> PIOS_INCLUDE_L3GD20 cfg = true ->
   r_gyro_samples r = Nat.iter (length (l3g_queue e)) (fun c => u32 (c + 1)) 0 /\
   r_gyro_accum r = fold_left add_l3g (l3g_queue e) zero3).
Proof.
  unfold acquire. intros Hacq.
  destruct (PIOS_MPU6000_ACCEL cfg) eqn:Haccel.
  - split; [discriminate |].
    destruct (PIOS_INCLUDE_MPU6000 cfg) eqn:Hmpu.
    + destruct (read_mpu6000 cfg e last_tick err zero3) as [[[c [g a]] t] |] eqn:R;
        [| discriminate].
      apply read_mpu6000_fold in R. rewrite Haccel in R.
      destruct R as (-> & -> & -> & ->). injection Hacq as <-. cbn.
      split; [auto 10 | discriminate].
    + split; [discriminate |]. intros _ Hl3g. rewrite Hl3g in Hacq.
      rewrite drain_queue_fold in Hacq. injection Hacq as <-. cbn. auto.
  - destruct (read_bma180 e last_tick err) as [[[n acc] t] |] eqn:B; [| discriminate].
    apply read_bma180_fold in B. destruct B as (-> & -> & ->).
    destruct (PIOS_INCLUDE_MPU6000 cfg) eqn:Hmpu.
    + destruct (read_mpu6000 cfg e last_tick err _) as [[[c [g a]] t'] |] eqn:R;
        [| discriminate].
      apply read_mpu6000_fold in R. rewrite Haccel in R.
      destruct R as (-> & -> & -> & ->). injection Hacq as <-. cbn.
      split; [auto |]. split; [| discriminate]. intros _. split; [reflexivity |].
      split; [reflexivity |]. split; [reflexivity | discriminate].
    + split.
      * intros _. destruct (PIOS_INCLUDE_L3GD20 cfg).
        -- rewrite drain_queue_fold in Hacq. injection Hacq as <-. cbn. auto.
        -- injection Hacq as <-. cbn. auto.
      * split; [discriminate |]. intros _ Hl3g. rewrite Hl3g in Hacq.
        rewrite drain_queue_fold in Hacq. injection Hacq as <-. cbn. auto.
Qed.

Lemma counted (k : nat) :
  Z.of_nat k <= 65536 ->
  u32 (Nat.iter k (fun c => s32 (c + 1)) 0) = Z.of_nat k /\
  Nat.iter k (fun c => u32 (c + 1)) 0 = Z.of_nat k.
Proof.
  intros Hk. split.
  - rewrite iter_count_s32 by (change (2 ^ 31) with 2147483648; lia).
    apply u32_small. change (2 ^ 32) with 4294967296. lia.
  - apply iter_count_u32. change (2 ^ 32) with 4294967296. lia.
Qed.

End Sums.

(** The sums and counts of a pass whose FIFOs and queue deliver at most
    65536 samples of 16 bits. *)
Lemma readings_hold_sums :
  forall (F : Type) (ops : FloatOps F)
         (cfg : config) (e : cycle_env F) (s : state F) (r : readings),
    readings_of cfg e s = Some r ->
    (PIOS_MPU6000_ACCEL cfg = false ->
     let samples := map bma_axes (bma_first e :: bma_more e) in
     Forall int16_vec samples -> Z.of_nat (length samples) <= 65536 ->
     r_accel_samples r = Z.of_nat (length samples) /\
     r_accel_accum r = sum_axes samples) /\
    (PIOS_INCLUDE_MPU6000 cfg = true ->
     let samples := map mpu_gyro_axes (mpu_first e :: mpu_more e) in
     Forall int16_vec samples -> Z.of_nat (length samples) <= 65536 ->
     r_gyro_samples r = Z.of_nat (length samples) /\
     r_gyro_accum r = sum_axes samples) /\
    (PIOS_INCLUDE_MPU6000 cfg = true -> PIOS_MPU6000_ACCEL cfg = true ->
     let samples := map mpu_accel_axes (mpu_first e :: mpu_more e) in
     Forall int16_vec samples -> Z.of_nat (length samples) <= 65536 ->
     r_accel_samples r = Z.of_nat (length samples) /\
     r_accel_accum r = sum_axes samples) /\
    (PIOS_INCLUDE_MPU6000 cfg = false -> PIOS_INCLUDE_L3GD20 cfg = true ->
     let samples := map l3g_axes (l3g_queue e) in
     Forall int16_vec samples -> Z.of_nat (length samples) <= 65536 ->
     r_gyro_samples r = Z.of_nat (length samples) /\
     r_gyro_accum r = sum_axes samples).
Proof.
  intros F ops cfg e s r Hr. unfold readings_of in Hr.
  destruct (acquire cfg e _ _) as [r' | out] eqn:Hacq; [| discriminate].
  injection Hr as ->. apply acquire_readings in Hacq.
  destruct Hacq as (Hbma & Hmpu & Hl3g).
  split; [| split; [| split]].
  - intros Hoff samples Hfit Hlen. subst samples.
    destruct (Hbma Hoff) as (-> & -> & _).
    rewrite length_map in Hlen. cbn [length] in Hlen.
    rewrite (proj1 (counted _ Hlen)), length_map. split; [reflexivity |].
    unfold add_bma. rewrite (fold_left_axes bma_axes).
    apply accumulated_sum; [exact Hfit | now rewrite length_map].
  - intros Hon samples Hfit Hlen. subst samples.
    destruct (Hmpu Hon) as (-> & -> & _).
    rewrite length_map in Hlen. cbn [length] in Hlen.
    rewrite (proj1 (counted _ Hlen)), length_map. split; [reflexivity |].
    unfold add_mpu_gyro. rewrite (fold_left_axes mpu_gyro_axes).
    apply accumulated_sum; [exact Hfit | now rewrite length_map].
  - intros Hon Haccel samples Hfit Hlen. subst samples.
    destruct (Hmpu Hon) as (Hn & _ & _ & Ha). destruct (Ha Haccel) as (-> & ->).
    rewrite Hn.
    rewrite length_map in Hlen. cbn [length] in Hlen.
    rewrite (proj1 (counted _ Hlen)), length_map. split; [reflexivity |].
    unfold add_mpu_accel. rewrite (fold_left_axes mpu_accel_axes).
    apply accumulated_sum; [exact Hfit | now rewrite length_map].
  - intros Hoff Hon samples Hfit Hlen. subst samples.
    destruct (Hl3g Hoff Hon) as (-> & ->).
    rewrite length_map in Hlen.
    rewrite (proj2 (counted _ Hlen)), length_map. split; [reflexivity |].
    unfold add_l3g. rewrite (fold_left_axes l3g_axes).
    apply accumulated_sum; [exact Hfit | now rewrite length_map].
Qed.

(** X18.  As long as a FIFO or the queue delivers at most 65536 samples of
    16 bits in a pass, the accumulators of that pass hold the true integer
    sums of the raw axes, without wrap-around, and the count is the number
    of samples: for the BMA180, for the gyro and the accelerometer of the
    MPU6000, and for the L3GD20. *)
Theorem accumulators_hold_the_sums :
  forall (F : Type) (ops : FloatOps F)
         (cfg : config) (e : cycle_env F) (s : state F) (r : readings),
    readings_of cfg e s = Some r ->
    (PIOS_MPU6000_ACCEL cfg = false ->
     let samples := map bma_axes (bma_first e :: bma_more e) in
     Forall int16_vec samples -> Z.of_nat (length samples) <= 65536 ->
     r_accel_samples r = Z.of_nat (length samples) /\
     r_accel_accum r = sum_axes samples) /\
    (PIOS_INCLUDE_MPU6000 cfg = true ->
     let samples := map mpu_gyro_axes (mpu_first e :: mpu_more e) in
     Forall int16_vec samples -> Z.of_nat (length samples) <= 65536 ->
     r_gyro_samples r = Z.of_nat (length samples) /\
     r_gyro_accum r = sum_axes samples) /\
    (PIOS_INCLUDE_MPU6000 cfg = true -> PIOS_MPU6000_ACCEL cfg = true ->
     let samples := map mpu_accel_axes (mpu_first e :: mpu_more e) in
     Forall int16_vec samples -> Z.of_nat (length samples) <= 65536 ->
     r_accel_samples r = Z.of_nat (length samples) /\
     r_accel_accum r = sum_axes samples) /\
    (PIOS_INCLUDE_MPU6000 cfg = false -> PIOS_INCLUDE_L3GD20 cfg = true ->
     let samples := map l3g_axes (l3g_queue e) in
     Forall int16_vec samples -> Z.of_nat (length samples) <= 65536 ->
     r_gyro_samples r = Z.of_nat (length samples) /\
     r_gyro_accum r = sum_axes samples).
Proof. exact readings_hold_sums. Qed.

Lemma accumulators_hold_the_sums_witness :
  let cfg := Boards.bma180_mpu6000 in
  let s := Bench.calibrated true false false in
  readings_of cfg Bench.pass_ok s = Some Bench.pass_ok_readings /\
  r_accel_samples Bench.pass_ok_readings = 1 /\
  r_accel_accum Bench.pass_ok_readings = V3 2 1 (-3) /\
  r_gyro_accum Bench.pass_ok_readings = V3 4 2 (-6).
Proof.
  cbv zeta. split; [reflexivity |].
  destruct (@accumulators_hold_the_sums binary32 _ Boards.bma180_mpu6000 Bench.pass_ok
              (Bench.calibrated true false false) Bench.pass_ok_readings eq_refl)
    as (Hbma & Hmpu & _).
  assert (Hfit : forall x y z : Z, int16 x -> int16 y -> int16 z ->
                                   Forall int16_vec [V3 x y z]).
  { intros x y z Hx Hy Hz. constructor; [| constructor].
    unfold int16_vec. cbn [v0 v1 v2]. auto. }
  destruct (Hbma eq_refl) as (Hn & Ha).
  { apply Hfit; unfold int16; cbn; lia. }
  { cbn. lia. }
  destruct (Hmpu eq_refl) as (_ & Hg).
  { apply Hfit; unfold int16; cbn; lia. }
  { cbn. lia. }
  split; [exact Hn |]. split; [exact Ha | exact Hg].
Defined.

(** X19.  The temperature of a published record comes from the last sample
    that the pass drained, not from an average: on an MPU6000 board the gyro
    temperature is 35 + (t + 512) / 340 for the raw temperature t of the
    last MPU6000 sample, and so is the accelerometer temperature under
    PIOS_MPU6000_ACCEL; where BMA180 is defined the accelerometer
    temperature is 25 + (t - 2) / 2 for the last BMA180 sample. *)
Theorem temperature_is_of_last_sample :
  forall (F : Type) (ops : FloatOps F) (wire : FloatWire F)
         (cfg : config) (e : cycle_env F) (s : state F) (r : readings),
    readings_of cfg e s = Some r ->
    let evs := snd (loop_body cfg e s) in
    let mpu := of_int (mpu_temperature (last (mpu_more e) (mpu_first e))) in
    let bma := of_int (bma_temperature (last (bma_more e) (bma_first e))) in
    (PIOS_INCLUDE_MPU6000 cfg = true ->
     map (@m_temperature F) (gyros_published evs)
     = [fadd (of_int 35) (fdiv (fadd mpu (of_int 512)) (of_int 340))]) /\
    (PIOS_INCLUDE_MPU6000 cfg = true -> PIOS_MPU6000_ACCEL cfg = true ->
     BMA180 cfg = false ->
     map (@m_temperature F) (accels_published evs)
     = [fadd (of_int 35) (fdiv (fadd mpu (of_int 512)) (of_int 340))]) /\
    (PIOS_MPU6000_ACCEL cfg = false -> BMA180 cfg = true ->
     map (@m_temperature F) (accels_published evs)
     = [fadd (of_int 25) (fdiv (fsub bma (of_int 2)) (of_int 2))]).
Proof.
  intros F ops wire cfg e s r Hr evs mpu bma. subst evs mpu bma.
  destruct (pass_publishes cfg e s Hr) as (-> & -> & _).
  unfold readings_of in Hr.
  destruct (acquire cfg e _ _) as [r' | out] eqn:Hacq; [| discriminate].
  injection Hr as ->. apply acquire_readings in Hacq.
  destruct Hacq as (Hbma & Hmpu & _).
  cbn [map]. unfold gyros_record, apply_gyro_bias, gyros_scaled, accels_record,
    accel_temperature.
  split; [| split].
  - intros Hon. destruct (Hmpu Hon) as (_ & _ & Ht & _). rewrite Hon, <- Ht.
    now destruct (bias_correct_gyro s).
  - intros Hon Haccel Hmacro. destruct (Hmpu Hon) as (_ & _ & Ht & _).
    cbn [m_temperature]. now rewrite Hmacro, Haccel, Ht.
  - intros Hoff Hmacro. destruct (Hbma Hoff) as (_ & _ & Ht).
    cbn [m_temperature]. now rewrite Hmacro, Ht.
Qed.

Lemma temperature_is_of_last_sample_witness :
  let cfg := Boards.bma180_mpu6000 in
  let s := Bench.calibrated true false false in
  readings_of cfg Bench.pass_ok s = Some Bench.pass_ok_readings /\
  map (@m_temperature binary32) (gyros_published (snd (loop_body cfg Bench.pass_ok s)))
  = [fadd (of_int 35) (fdiv (fadd (of_int 168) (of_int 512)) (of_int 340))].
Proof.
  cbv zeta. split; [reflexivity |].
  exact (proj1 (@temperature_is_of_last_sample binary32 _ _ Boards.bma180_mpu6000
                  Bench.pass_ok (Bench.calibrated true false false)
                  Bench.pass_ok_readings eq_refl) eq_refl).
Defined.

(** X20.  In single precision, as the code computes it: when the raw
    samples of a pass, whatever they are, have sums that the number of
    samples divides and that are at most 2^24 in magnitude, the value fed
    into scaling is their arithmetic mean, exactly, axis by axis in the
    order (y, x, -z).  For at most 65536 samples of 16 bits, on the four
    paths. *)
Theorem integral_mean_is_not_rounded :
  forall (cfg : config) (e : cycle_env binary32) (s : state binary32) (r : readings)
         (q : vec3 Z),
    readings_of cfg e s = Some r ->
    (PIOS_MPU6000_ACCEL cfg = false ->
     let samples := map bma_axes (bma_first e :: bma_more e) in
     Forall int16_vec samples -> Z.of_nat (length samples) <= 65536 ->
     sum_axes samples = scaled_axes (Z.of_nat (length samples)) q ->
     float_integers (sum_axes samples) ->
     mean_remap (F:=binary32) (r_accel_accum r) (r_accel_samples r)
     = remap fneg (vmap of_int q)) /\
    (PIOS_INCLUDE_MPU6000 cfg = true ->
     let samples := map mpu_gyro_axes (mpu_first e :: mpu_more e) in
     Forall int16_vec samples -> Z.of_nat (length samples) <= 65536 ->
     sum_axes samples = scaled_axes (Z.of_nat (length samples)) q ->
     float_integers (sum_axes samples) ->
     mean_remap (F:=binary32) (r_gyro_accum r) (r_gyro_samples r)
     = remap fneg (vmap of_int q)) /\
    (PIOS_INCLUDE_MPU6000 cfg = true -> PIOS_MPU6000_ACCEL cfg = true ->
     let samples := map mpu_accel_axes (mpu_first e :: mpu_more e) in
     Forall int16_vec samples -> Z.of_nat (length samples) <= 65536 ->
     sum_axes samples = scaled_axes (Z.of_nat (length samples)) q ->
     float_integers (sum_axes samples) ->
     mean_remap (F:=binary32) (r_accel_accum r) (r_accel_samples r)
     = remap fneg (vmap of_int q)) /\
    (PIOS_INCLUDE_MPU6000 cfg = false -> PIOS_INCLUDE_L3GD20 cfg = true ->
     let samples := map l3g_axes (l3g_queue e) in
     samples <> [] ->
     Forall int16_vec samples -> Z.of_nat (length samples) <= 65536 ->
     sum_axes samples = scaled_axes (Z.of_nat (length samples)) q ->
     float_integers (sum_axes samples) ->
     mean_remap (F:=binary32) (r_gyro_accum r) (r_gyro_samples r)
     = remap fneg (vmap of_int q)).
Proof.
  intros cfg e s r q Hr.
  destruct (@readings_hold_sums binary32 _ cfg e s r Hr) as (H1 & H2 & H3 & H4).
  assert (Hmean : forall (samples : list (vec3 Z)),
             samples <> [] -> Z.of_nat (length samples) <= 65536 ->
             sum_axes samples = scaled_axes (Z.of_nat (length samples)) q ->
             float_integers (sum_axes samples) ->
             mean_remap (F:=binary32) (sum_axes samples) (Z.of_nat (length samples))
             = remap fneg (vmap of_int q)).
  { intros samples Hsome Hlen Hsum Hfloat.
    assert (Hn : 0 < Z.of_nat (length samples) < 2 ^ 24).
    { change (2 ^ 24) with 16777216.
      destruct samples; [contradiction | cbn [length] in *; lia]. }
    rewrite Hsum in *. now apply binary32_mean_of_multiple. }
  split; [| split; [| split]].
  - intros Hoff samples Hfit Hlen Hsum Hfloat.
    destruct (H1 Hoff Hfit Hlen) as (-> & ->). now apply Hmean.
  - intros Hon samples Hfit Hlen Hsum Hfloat.
    destruct (H2 Hon Hfit Hlen) as (-> & ->). now apply Hmean.
  - intros Hon Haccel samples Hfit Hlen Hsum Hfloat.
    destruct (H3 Hon Haccel Hfit Hlen) as (-> & ->). now apply Hmean.
  - intros Hoff Hon samples Hsome Hfit Hlen Hsum Hfloat.
    destruct (H4 Hoff Hon Hfit Hlen) as (-> & ->). now apply Hmean.
Qed.

Lemma integral_mean_is_not_rounded_witness :
  let cfg := Boards.bma180_mpu6000 in
  exists r,
    readings_of cfg Trials.two_samples initial_state = Some r /\
    r_accel_accum r = V3 4 6 (-6) /\
    mean_remap (F:=binary32) (r_accel_accum r) (r_accel_samples r)
    = V3 (of_int 3) (of_int 2) (fneg (of_int (-3))).
Proof.
  cbv zeta. eexists. split; [vm_compute; reflexivity |]. split; [reflexivity |].
  refine (proj1 (@integral_mean_is_not_rounded Boards.bma180_mpu6000 Trials.two_samples
                   initial_state _ (V3 2 3 (-3)) eq_refl) eq_refl _ _ _ _).
  - vm_compute. repeat constructor; discriminate.
  - vm_compute. discriminate.
  - reflexivity.
  - vm_compute. repeat split; discriminate.
Defined.

(** ** A record is reported once *)

(** X21.  A GPS or altitude record is put into one message only: the pass
    that sends a message clears both flags, so when no notification arrives
    in between, the message of the next pass that is not abandoned has no
    block tagged 0x02 or 0x03. *)
Theorem record_is_reported_once :
  forall (F : Type) (ops : FloatOps F) (wire : FloatWire F) (cfg : config)
         (e1 e2 : cycle_env F) (s : state F) (r1 r2 : readings),
    pios_com_aux_id cfg <> 0 ->
    readings_of cfg e1 s = Some r1 ->
    sizeof (frame_of cfg e1 s r1) <= 200 ->
    let s1 := fst (loop_body cfg e1 s) in
    readings_of cfg e2 s1 = Some r2 ->
    sizeof (frame_of cfg e2 s1 r2) <= 200 ->
    frames_sent (snd (loop_body cfg e2 s1))
    = [wire_frame (lastSysTime (fst (top_of_loop cfg e2 s1)))
         (accels_record cfg e2 s1 r2) (gyros_record cfg e2 s1 r2)
         (option_map (mag_record s1) (mag_sample e2)) None None].
Proof.
  intros F ops wire cfg e1 e2 s r1 r2 Hport Hr1 Hfit1 s1 Hr2 Hfit2.
  destruct (@pass_frame F ops wire cfg e1 s r1 Hport Hr1 Hfit1) as (_ & Hgps & Hbaro).
  destruct (@pass_frame F ops wire cfg e2 s1 r2 Hport Hr2 Hfit2) as (-> & _).
  unfold frame_of. subst s1. now rewrite Hgps, Hbaro.
Qed.

Lemma record_is_reported_once_witness :
  let cfg := Boards.bma180_mpu6000 in
  let s := Bench.calibrated true true true in
  let s1 := fst (loop_body cfg Bench.pass_ok s) in
  readings_of cfg Bench.pass_ok s = Some Bench.pass_ok_readings /\
  length (concat (frames_sent (snd (loop_body cfg Bench.pass_ok s)))) = 38%nat /\
  length (concat (frames_sent (snd (loop_body cfg Bench.pass_ok s1)))) = 31%nat.
Proof.
  cbv zeta. split; [reflexivity |]. split; [reflexivity |].
  rewrite (@record_is_reported_once binary32 _ _ Boards.bma180_mpu6000
             Bench.pass_ok Bench.pass_ok (Bench.calibrated true true true)
             Bench.pass_ok_readings Bench.pass_ok_readings).
  - reflexivity.
  - discriminate.
  - reflexivity.
  - vm_compute. discriminate.
  - reflexivity.
  - vm_compute. discriminate.
Defined.
